(** * n64js: the VI (video interface) and MI (MIPS interface) register devices

    A shallow embedding of [src/devices/vi.js] and of the MI register device,
    and the properties of their register protocols.

    Conventions of the embedding.
    - A JavaScript number that is always a 32-bit integer (a bus word, the
      result of a bit operation, an offset) is carried as a [Z]; the 32-bit
      conversions [ToInt32] and [ToUint32] that the bit operators apply are
      written out.  The numbers that come out of [/] and [*] are IEEE-754
      binary64 values ([number]), computed with the operations of the
      standard library's [SpecFloat].
    - The two register blocks live in the shared [hardware] object; both
      devices reach them through it, so the world state holds one copy of
      each and every access goes through that copy.
    - A JavaScript exception is an outcome [Throw]; the world at the point of
      the throw is returned with it.
    - Calls to the collaborators (CPU, presentation, host loop) are recorded
      in a trace, diagnostics in a log of their own.  [dump], which only
      prints, is left out. *)

From Stdlib Require Import ZArith Lia Bool List.
From Stdlib Require Import SpecFloat.
From Stdlib Require Import Init.Byte Strings.Byte.
From stdpp Require Import base list.

Local Open Scope Z_scope.

(** ** JavaScript numbers *)

Module JS.

(** ToInt32 and ToUint32 on an integral value. *)
Definition to_uint32 (z : Z) : Z := z mod 2 ^ 32.
Definition to_int32 (z : Z) : Z := (z + 2 ^ 31) mod 2 ^ 32 - 2 ^ 31.

(** The bit operators: the operands go through ToInt32 (ToUint32 for the
    left operand of [>>>]) and the result is a 32-bit integer. *)
Definition and (a b : Z) : Z := Z.land (to_int32 a) (to_int32 b).
Definition or (a b : Z) : Z := Z.lor (to_int32 a) (to_int32 b).
Definition xor (a b : Z) : Z := Z.lxor (to_int32 a) (to_int32 b).
Definition not (a : Z) : Z := Z.lnot (to_int32 a).
Definition ushr (a n : Z) : Z := Z.shiftr (to_uint32 a) (n mod 32).

(** Truthiness of a number in a condition. *)
Definition truthy (a : Z) : bool := negb (a =? 0).

(** binary64 *)
Definition number := spec_float.
Definition prec : Z := 53.
Definition emax : Z := 1024.

Definition of_Z (z : Z) : number := binary_normalize prec emax z 0 false.
Definition div (x y : number) : number := SFdiv prec emax x y.
Definition mul (x y : number) : number := SFmul prec emax x y.
Definition sub (x y : number) : number := SFsub prec emax x y.

(** The integral part of a number (truncation towards zero); NaN and the
    infinities give 0, as in ToInt32. *)
Definition trunc (x : number) : Z :=
  match x with
  | S754_finite s m e => cond_Zopp s (Z.shiftl (Zpos m) e)
  | _ => 0
  end.

(** [x >> 0] *)
Definition ToInt32 (x : number) : Z := to_int32 (trunc x).

End JS.

(** ** The register block *)

(** Modelled from the spec: the [MemoryRegion] class behind [this.mem] and
    [hardware.mi_reg] is not part of the sources.  It is the Register Block
    of the specification: a fixed-length byte store with bounds-checked
    width-4 accessors and bit set/clear helpers; an access outside the store
    fails and stores nothing.  Words are laid out most significant byte
    first. *)
Module Mem.

Definition t := list byte.

Definition byte_of_Z (z : Z) : byte :=
  match Byte.of_N (Z.to_N (z mod 256)) with
  | Some b => b
  | None => x00
  end.

Definition Z_of_byte (b : byte) : Z := Z.of_N (Byte.to_N b).

Definition get (m : list byte) (i : Z) : Z :=
  match m !! Z.to_nat i with
  | Some b => Z_of_byte b
  | None => 0
  end.

Definition in_range (m : t) (o : Z) : bool :=
  (0 <=? o) && (o + 4 <=? Z.of_nat (length m)).

Definition readU32 (m : t) (o : Z) : option Z :=
  if in_range m o
  then Some (get m o * 2 ^ 24 + get m (o + 1) * 2 ^ 16
             + get m (o + 2) * 2 ^ 8 + get m (o + 3))
  else None.

Definition readS32 (m : t) (o : Z) : option Z :=
  match readU32 m o with
  | Some v => Some (JS.to_int32 v)
  | None => None
  end.

Definition put (i : Z) (v : Z) (m : list byte) : list byte :=
  <[Z.to_nat i := byte_of_Z v]> m.

Definition write32 (m : t) (o : Z) (value : Z) : option t :=
  if in_range m o
  then let v := JS.to_uint32 value in
       Some (put (o + 3) v
            (put (o + 2) (Z.shiftr v 8)
            (put (o + 1) (Z.shiftr v 16)
            (put o (Z.shiftr v 24) m))))
  else None.

Definition setBits32 (m : t) (o : Z) (bits : Z) : option t :=
  match readU32 m o with
  | Some v => write32 m o (JS.or v bits)
  | None => None
  end.

Definition clearBits32 (m : t) (o : Z) (bits : Z) : option t :=
  match readU32 m o with
  | Some v => write32 m o (JS.and v (JS.not bits))
  | None => None
  end.

End Mem.

(** ** The world: hardware, devices and collaborators *)

(** Modelled from the spec: the television standards of
    [system_constants.js] (not part of the sources), an enumeration
    {PAL, NTSC, MPAL}; [OS_TV_other] stands for an unrecognised value. *)
Inductive TvType := OS_TV_PAL | OS_TV_NTSC | OS_TV_MPAL | OS_TV_other (n : Z).

(** The fields of a [VIRegDevice]; [rangeStart] and [quiet] are those of the
    [Device] base class. *)
Record VIRegDevice := {
  vi_rangeStart : Z;
  vi_quiet : bool;
  field : Z;
  clock : Z;
  refreshRate : Z;
  countPerScanline : Z;
  countPerVbl : JS.number
}.

Record MIRegDevice := {
  mi_rangeStart : Z;
  mi_quiet : bool
}.

(** Modelled from the spec: the CPU and its event scheduler ([n64js.cpu0])
    are a collaborator outside the sources.  Of its state only the queued
    vertical-blank event matters, held with the cycles left until it fires. *)
Record Cpu := {
  vblEvent : option JS.number
}.

(** Calls made to the collaborators, oldest first. *)
Inductive Call :=
| UpdateCause3
| AddVblEvent (count : JS.number)
| PresentBackBuffer
| ReturnControlToSystem.

(** Diagnostic messages handed to [logger.log]; the formatted text is not
    modelled, only which message it is and the values it carries. *)
Inductive LogMsg :=
| LogRead (address : Z)
| LogViControl (value : Z)
| LogViWidth (value : Z)
| LogViIntr (value : Z)
| LogViCurrent (value : Z)
| LogViIntrCleared
| LogViSync (value : Z) (perScanline : Z) (perVbl : JS.number)
| LogViNotSetting (intr sync : Z)
| LogMiMode (value : Z)
| LogMiIntrMask (value : Z)
| LogMiUnhandled (value address : Z).

Record World := {
  vi_reg : Mem.t;           (* hardware.vi_reg *)
  mi_reg : Mem.t;           (* hardware.mi_reg *)
  tvType : TvType;          (* hardware.rominfo.tvType *)
  vi : VIRegDevice;
  mi : MIRegDevice;
  cpu0 : Cpu;
  calls : list Call;
  logs : list LogMsg
}.

Definition set_vi_reg (m : Mem.t) (w : World) : World :=
  {| vi_reg := m; mi_reg := mi_reg w; tvType := tvType w; vi := vi w;
     mi := mi w; cpu0 := cpu0 w; calls := calls w; logs := logs w |}.

Definition set_mi_reg (m : Mem.t) (w : World) : World :=
  {| vi_reg := vi_reg w; mi_reg := m; tvType := tvType w; vi := vi w;
     mi := mi w; cpu0 := cpu0 w; calls := calls w; logs := logs w |}.

Definition set_vi (d : VIRegDevice) (w : World) : World :=
  {| vi_reg := vi_reg w; mi_reg := mi_reg w; tvType := tvType w; vi := d;
     mi := mi w; cpu0 := cpu0 w; calls := calls w; logs := logs w |}.

Definition set_cpu0 (c : Cpu) (w : World) : World :=
  {| vi_reg := vi_reg w; mi_reg := mi_reg w; tvType := tvType w; vi := vi w;
     mi := mi w; cpu0 := c; calls := calls w; logs := logs w |}.

Definition add_call (c : Call) (w : World) : World :=
  {| vi_reg := vi_reg w; mi_reg := mi_reg w; tvType := tvType w; vi := vi w;
     mi := mi w; cpu0 := cpu0 w; calls := calls w ++ [c]; logs := logs w |}.

Definition add_log (l : LogMsg) (w : World) : World :=
  {| vi_reg := vi_reg w; mi_reg := mi_reg w; tvType := tvType w; vi := vi w;
     mi := mi w; cpu0 := cpu0 w; calls := calls w; logs := logs w ++ [l] |}.

Definition set_field (f : Z) (d : VIRegDevice) : VIRegDevice :=
  {| vi_rangeStart := vi_rangeStart d; vi_quiet := vi_quiet d; field := f;
     clock := clock d; refreshRate := refreshRate d;
     countPerScanline := countPerScanline d; countPerVbl := countPerVbl d |}.

Definition set_counts (s : Z) (v : JS.number) (d : VIRegDevice) : VIRegDevice :=
  {| vi_rangeStart := vi_rangeStart d; vi_quiet := vi_quiet d; field := field d;
     clock := clock d; refreshRate := refreshRate d;
     countPerScanline := s; countPerVbl := v |}.

(** ** Exceptions and the state monad *)

Inductive exn :=
| WriteOutOfRange      (* throw 'Write is out of range' *)
| ReadOutOfRange       (* throw 'Read is out of range' *)
| RangeError.          (* raised by the register block *)

Inductive result (A : Type) :=
| Ok (a : A)
| Throw (e : exn).
Arguments Ok {A} a.
Arguments Throw {A} e.

Definition M (A : Type) : Type := World -> result A * World.

Definition ret {A} (a : A) : M A := fun w => (Ok a, w).

Definition bind {A B} (m : M A) (k : A -> M B) : M B :=
  fun w => match m w with
           | (Ok a, w') => k a w'
           | (Throw e, w') => (Throw e, w')
           end.

Definition throw {A} (e : exn) : M A := fun w => (Throw e, w).

Definition modify (f : World -> World) : M unit := fun w => (Ok tt, f w).

Definition gets {A} (f : World -> A) : M A := fun w => (Ok (f w), w).

Declare Scope js_scope.
Delimit Scope js_scope with js.
Notation "x <- m ;; k" := (bind m (fun x => k))
  (at level 100, m at next level, right associativity) : js_scope.
Notation "m ;;; k" := (bind m (fun _ => k))
  (at level 100, right associativity) : js_scope.
Local Open Scope js_scope.

Definition log (l : LogMsg) : M unit := modify (add_log l).

Definition unless_quiet (quiet : bool) (l : LogMsg) : M unit :=
  if quiet then ret tt else log l.

(** The two register blocks of the shared [hardware] object. *)
Inductive Region := VIReg | MIReg.

Definition region (r : Region) (w : World) : Mem.t :=
  match r with VIReg => vi_reg w | MIReg => mi_reg w end.

Definition set_region (r : Region) (m : Mem.t) (w : World) : World :=
  match r with VIReg => set_vi_reg m w | MIReg => set_mi_reg m w end.

Definition lift_read (r : Region) (f : Mem.t -> option Z) : M Z :=
  fun w => match f (region r w) with
           | Some v => (Ok v, w)
           | None => (Throw RangeError, w)
           end.

Definition lift_write (r : Region) (f : Mem.t -> option Mem.t) : M unit :=
  fun w => match f (region r w) with
           | Some m => (Ok tt, set_region r m w)
           | None => (Throw RangeError, w)
           end.

Definition mem_readU32 (r : Region) (o : Z) : M Z :=
  lift_read r (fun m => Mem.readU32 m o).
Definition mem_readS32 (r : Region) (o : Z) : M Z :=
  lift_read r (fun m => Mem.readS32 m o).
Definition mem_write32 (r : Region) (o value : Z) : M unit :=
  lift_write r (fun m => Mem.write32 m o value).
Definition mem_setBits32 (r : Region) (o bits : Z) : M unit :=
  lift_write r (fun m => Mem.setBits32 m o bits).
Definition mem_clearBits32 (r : Region) (o bits : Z) : M unit :=
  lift_write r (fun m => Mem.clearBits32 m o bits).

(** [this.u8.length] *)
Definition u8_length (r : Region) : M Z :=
  gets (fun w => Z.of_nat (length (region r w))).

(** Modelled from the spec: the scheduler interface of the CPU collaborator
    (section 6): query and request of the vertical-blank callback, and the
    notification that the interrupt line must be re-evaluated. *)
Module Cpu0.

Definition hasVblEvent : M bool :=
  gets (fun w => match vblEvent (cpu0 w) with Some _ => true | None => false end).

Definition getVblCount : M JS.number :=
  gets (fun w => match vblEvent (cpu0 w) with
                 | Some n => n
                 | None => JS.of_Z 0
                 end).

Definition addVblEvent (count : JS.number) : M unit :=
  modify (fun w => add_call (AddVblEvent count)
                     (set_cpu0 {| vblEvent := Some count |} w)).

Definition updateCause3 : M unit := modify (add_call UpdateCause3).

End Cpu0.

(** Modelled from the spec: the presentation collaborator and the yield to
    the host loop, both outside the sources; only the call is recorded. *)
Definition presentBackBuffer : M unit := modify (add_call PresentBackBuffer).
Definition returnControlToSystem : M unit := modify (add_call ReturnControlToSystem).

(** Modelled from the spec: [calcEA] of the [Device] base class (not part of
    the sources) translates a bus address into an offset of the block. *)
Definition calcEA (rangeStart address : Z) : Z := address - rangeStart.

(** Modelled from the spec: [logRead] of the [Device] base class, a
    diagnostic that the [quiet] flag suppresses. *)
Definition logRead (quiet : bool) (address : Z) : M unit :=
  unless_quiet quiet (LogRead address).

(** ** The MIPS interface *)

Module MI.

Definition MI_MODE_REG : Z := 0x00.
Definition MI_VERSION_REG : Z := 0x04.
Definition MI_INTR_REG : Z := 0x08.
Definition MI_INTR_MASK_REG : Z := 0x0C.

Definition MI_CLR_INIT : Z := 0x0080.
Definition MI_SET_INIT : Z := 0x0100.
Definition MI_CLR_EBUS : Z := 0x0200.
Definition MI_SET_EBUS : Z := 0x0400.
Definition MI_CLR_DP_INTR : Z := 0x0800.
Definition MI_CLR_RDRAM : Z := 0x1000.
Definition MI_SET_RDRAM : Z := 0x2000.

Definition MI_MODE_INIT : Z := 0x0080.
Definition MI_MODE_EBUS : Z := 0x0100.
Definition MI_MODE_RDRAM : Z := 0x0200.

Definition MI_INTR_MASK_CLR_SP : Z := 0x0001.
Definition MI_INTR_MASK_SET_SP : Z := 0x0002.
Definition MI_INTR_MASK_CLR_SI : Z := 0x0004.
Definition MI_INTR_MASK_SET_SI : Z := 0x0008.
Definition MI_INTR_MASK_CLR_AI : Z := 0x0010.
Definition MI_INTR_MASK_SET_AI : Z := 0x0020.
Definition MI_INTR_MASK_CLR_VI : Z := 0x0040.
Definition MI_INTR_MASK_SET_VI : Z := 0x0080.
Definition MI_INTR_MASK_CLR_PI : Z := 0x0100.
Definition MI_INTR_MASK_SET_PI : Z := 0x0200.
Definition MI_INTR_MASK_CLR_DP : Z := 0x0400.
Definition MI_INTR_MASK_SET_DP : Z := 0x0800.

Definition MI_INTR_MASK_SP : Z := 0x01.
Definition MI_INTR_MASK_SI : Z := 0x02.
Definition MI_INTR_MASK_AI : Z := 0x04.
Definition MI_INTR_MASK_VI : Z := 0x08.
Definition MI_INTR_MASK_PI : Z := 0x10.
Definition MI_INTR_MASK_DP : Z := 0x20.

Definition MI_INTR_SP : Z := 0x01.
Definition MI_INTR_SI : Z := 0x02.
Definition MI_INTR_AI : Z := 0x04.
Definition MI_INTR_VI : Z := 0x08.
Definition MI_INTR_PI : Z := 0x10.
Definition MI_INTR_DP : Z := 0x20.

Definition reset : M unit :=
  mem_write32 MIReg MI_VERSION_REG 0x02020102.

Definition intrReg : M Z := mem_readU32 MIReg MI_INTR_REG.

Definition intrMaskReg : M Z := mem_readU32 MIReg MI_INTR_MASK_REG.

Definition interruptsUnmasked : M bool :=
  mask <- mem_readU32 MIReg MI_INTR_MASK_REG ;;
  intr <- mem_readU32 MIReg MI_INTR_REG ;;
  ret (negb (JS.and mask intr =? 0)).

Definition setInterruptBit (bit : Z) : M unit :=
  mem_setBits32 MIReg MI_INTR_REG bit ;;;
  Cpu0.updateCause3.

Definition interruptSP : M unit := setInterruptBit MI_INTR_SP.

Definition interruptDP : M unit := setInterruptBit MI_INTR_DP.

(** The mode flags after the set and clear bits of [value] are applied,
    in the order of the source. *)
Definition mode_bits (value mi_mode_reg : Z) : Z :=
  let mi_mode_reg :=
    if JS.truthy (JS.and value MI_SET_RDRAM)
    then JS.or mi_mode_reg MI_MODE_RDRAM else mi_mode_reg in
  let mi_mode_reg :=
    if JS.truthy (JS.and value MI_CLR_RDRAM)
    then JS.and mi_mode_reg (JS.not MI_MODE_RDRAM) else mi_mode_reg in
  let mi_mode_reg :=
    if JS.truthy (JS.and value MI_SET_INIT)
    then JS.or mi_mode_reg MI_MODE_INIT else mi_mode_reg in
  let mi_mode_reg :=
    if JS.truthy (JS.and value MI_CLR_INIT)
    then JS.and mi_mode_reg (JS.not MI_MODE_INIT) else mi_mode_reg in
  let mi_mode_reg :=
    if JS.truthy (JS.and value MI_SET_EBUS)
    then JS.or mi_mode_reg MI_MODE_EBUS else mi_mode_reg in
  let mi_mode_reg :=
    if JS.truthy (JS.and value MI_CLR_EBUS)
    then JS.and mi_mode_reg (JS.not MI_MODE_EBUS) else mi_mode_reg in
  mi_mode_reg.

Definition writeModeReg (value : Z) : M unit :=
  mi_mode_reg <- mem_readU32 MIReg MI_MODE_REG ;;
  let mi_mode_reg := mode_bits value mi_mode_reg in
  mem_write32 MIReg MI_MODE_REG mi_mode_reg ;;;
  if JS.truthy (JS.and value MI_CLR_DP_INTR)
  then mem_clearBits32 MIReg MI_INTR_REG MI_INTR_DP ;;;
       Cpu0.updateCause3
  else ret tt.

(** [acc |= (value & bit) >>> n] *)
Definition gather (acc value bit n : Z) : Z :=
  JS.or acc (JS.ushr (JS.and value bit) n).

Definition clr_bits (value : Z) : Z :=
  let clr := 0 in
  let clr := gather clr value MI_INTR_MASK_CLR_SP 0 in
  let clr := gather clr value MI_INTR_MASK_CLR_SI 1 in
  let clr := gather clr value MI_INTR_MASK_CLR_AI 2 in
  let clr := gather clr value MI_INTR_MASK_CLR_VI 3 in
  let clr := gather clr value MI_INTR_MASK_CLR_PI 4 in
  let clr := gather clr value MI_INTR_MASK_CLR_DP 5 in
  clr.

Definition set_bits (value : Z) : Z :=
  let set := 0 in
  let set := gather set value MI_INTR_MASK_SET_SP 1 in
  let set := gather set value MI_INTR_MASK_SET_SI 2 in
  let set := gather set value MI_INTR_MASK_SET_AI 3 in
  let set := gather set value MI_INTR_MASK_SET_VI 4 in
  let set := gather set value MI_INTR_MASK_SET_PI 5 in
  let set := gather set value MI_INTR_MASK_SET_DP 6 in
  set.

Definition writeIntrMaskReg (value : Z) : M unit :=
  mi_intr_mask_reg <- mem_readU32 MIReg MI_INTR_MASK_REG ;;
  mi_intr_reg <- mem_readU32 MIReg MI_INTR_REG ;;
  let clr := clr_bits value in
  let set := set_bits value in
  let mi_intr_mask_reg := JS.and mi_intr_mask_reg (JS.not clr) in
  let mi_intr_mask_reg := JS.or mi_intr_mask_reg set in
  mem_write32 MIReg MI_INTR_MASK_REG mi_intr_mask_reg ;;;
  (* Check if any interrupts are enabled now, and immediately trigger an interrupt *)
  if JS.truthy (JS.and mi_intr_mask_reg mi_intr_reg)
  then Cpu0.updateCause3
  else ret tt.

Definition write32 (address value : Z) : M unit :=
  d <- gets mi ;;
  let ea := calcEA (mi_rangeStart d) address in
  len <- u8_length MIReg ;;
  if len <? ea + 4 then throw WriteOutOfRange
  else if ea =? MI_MODE_REG then
    unless_quiet (mi_quiet d) (LogMiMode value) ;;;
    writeModeReg value
  else if ea =? MI_INTR_MASK_REG then
    unless_quiet (mi_quiet d) (LogMiIntrMask value) ;;;
    writeIntrMaskReg value
  else if (ea =? MI_VERSION_REG) || (ea =? MI_INTR_REG) then
    (* Read only *)
    ret tt
  else
    log (LogMiUnhandled value address) ;;;
    mem_write32 MIReg ea value.

(** Modelled from the spec: the MI device does not override the word reads
    of the [Device] base class, which is not part of the sources.  They are
    the Register Block's [readWord]: a bounds-checked read of the addressed
    word, without side effect on the registers. *)
Definition readS32 (address : Z) : M Z :=
  d <- gets mi ;;
  logRead (mi_quiet d) address ;;;
  let ea := calcEA (mi_rangeStart d) address in
  len <- u8_length MIReg ;;
  if len <? ea + 4 then throw ReadOutOfRange
  else mem_readS32 MIReg ea.

Definition readU32 (address : Z) : M Z :=
  d <- gets mi ;;
  logRead (mi_quiet d) address ;;;
  let ea := calcEA (mi_rangeStart d) address in
  len <- u8_length MIReg ;;
  if len <? ea + 4 then throw ReadOutOfRange
  else mem_readU32 MIReg ea.

End MI.

(** ** The video interface *)

Module VI.

Definition VI_CONTROL_REG : Z := 0x00.
Definition VI_DRAM_ADDR_REG : Z := 0x04.
Definition VI_H_WIDTH_REG : Z := 0x08.
Definition VI_V_INTR_REG : Z := 0x0C.
Definition VI_V_CURRENT_LINE_REG : Z := 0x10.
Definition VI_TIMING_REG : Z := 0x14.
Definition VI_V_SYNC_REG : Z := 0x18.
Definition VI_H_SYNC_REG : Z := 0x1C.
Definition VI_H_SYNC_LEAP_REG : Z := 0x20.
Definition VI_H_VIDEO_REG : Z := 0x24.
Definition VI_V_VIDEO_REG : Z := 0x28.
Definition VI_V_BURST_REG : Z := 0x2C.
Definition VI_X_SCALE_REG : Z := 0x30.
Definition VI_Y_SCALE_REG : Z := 0x34.

Definition VI_CTRL_TYPE_16 : Z := 0x00002.
Definition VI_CTRL_TYPE_32 : Z := 0x00003.
Definition VI_CTRL_GAMMA_DITHER_ON : Z := 0x00004.
Definition VI_CTRL_GAMMA_ON : Z := 0x00008.
Definition VI_CTRL_DIVOT_ON : Z := 0x00010.
Definition VI_CTRL_SERRATE_ON : Z := 0x00040.
Definition VI_CTRL_ANTIALIAS_MASK : Z := 0x00300.
Definition VI_CTRL_DITHER_FILTER_ON : Z := 0x10000.

Definition controlTypeMask : Z := 0x3.

Definition VI_PAL_CLOCK : Z := 49656530.
Definition VI_NTSC_CLOCK : Z := 48681812.
Definition VI_MPAL_CLOCK : Z := 48628316.

Definition videoClockForTVType (tvType : TvType) : Z :=
  match tvType with
  | OS_TV_PAL => VI_PAL_CLOCK
  | OS_TV_NTSC => VI_NTSC_CLOCK
  | OS_TV_MPAL => VI_MPAL_CLOCK
  | OS_TV_other _ => VI_NTSC_CLOCK
  end.

Definition refreshRateForTVType (tvType : TvType) : Z :=
  match tvType with
  | OS_TV_PAL => 50
  | _ => 60
  end.

(** The device as the constructor leaves it before it calls [reset]. *)
Definition fresh (rangeStart : Z) (quiet : bool) : VIRegDevice :=
  {| vi_rangeStart := rangeStart; vi_quiet := quiet; field := 0;
     clock := 0; refreshRate := 0; countPerScanline := 0;
     countPerVbl := JS.of_Z 0 |}.

Definition reset : M unit :=
  modify (fun w =>
    let d := vi w in
    set_vi {| vi_rangeStart := vi_rangeStart d; vi_quiet := vi_quiet d;
              field := field d;
              clock := videoClockForTVType (tvType w);
              refreshRate := refreshRateForTVType (tvType w);
              countPerScanline := 0;
              countPerVbl := JS.of_Z 0 |} w).

Definition constructor (rangeStart : Z) (quiet : bool) : M unit :=
  modify (set_vi (fresh rangeStart quiet)) ;;;
  reset.

Definition viControlReg : M Z := mem_readU32 VIReg VI_CONTROL_REG.
Definition viDramAddrReg : M Z := mem_readU32 VIReg VI_DRAM_ADDR_REG.
Definition viHWidthReg : M Z := mem_readU32 VIReg VI_H_WIDTH_REG.
Definition viVIntrReg : M Z := mem_readU32 VIReg VI_V_INTR_REG.
Definition viVCurrentLineReg : M Z := mem_readU32 VIReg VI_V_CURRENT_LINE_REG.
Definition viTimingReg : M Z := mem_readU32 VIReg VI_TIMING_REG.
Definition viVSyncReg : M Z := mem_readU32 VIReg VI_V_SYNC_REG.
Definition viHSyncReg : M Z := mem_readU32 VIReg VI_H_SYNC_REG.
Definition viHSyncLeapReg : M Z := mem_readU32 VIReg VI_H_SYNC_LEAP_REG.
Definition viHVideoReg : M Z := mem_readU32 VIReg VI_H_VIDEO_REG.
Definition viVVideoReg : M Z := mem_readU32 VIReg VI_V_VIDEO_REG.
Definition viVBurstReg : M Z := mem_readU32 VIReg VI_V_BURST_REG.
Definition viXScaleReg : M Z := mem_readU32 VIReg VI_X_SCALE_REG.
Definition viYScaleReg : M Z := mem_readU32 VIReg VI_Y_SCALE_REG.

Definition viXScaleFrac : M JS.number :=
  reg <- viXScaleReg ;;
  ret (JS.div (JS.of_Z (JS.and reg 0xfff)) (JS.of_Z 1024)).

Definition viYScaleFrac : M JS.number :=
  reg <- viYScaleReg ;;
  ret (JS.div (JS.of_Z (JS.and reg 0xfff)) (JS.of_Z 1024)).

Definition interlaced : M bool :=
  control <- viControlReg ;;
  ret (negb (JS.and control VI_CTRL_SERRATE_ON =? 0)).

Definition viIs32Bit : M bool :=
  control <- mem_readU32 VIReg VI_CONTROL_REG ;;
  ret (JS.and control controlTypeMask =? VI_CTRL_TYPE_32).

Definition verticalBlank : M unit :=
  control <- mem_readU32 VIReg VI_CONTROL_REG ;;
  let interlaced := if JS.truthy (JS.and control VI_CTRL_SERRATE_ON) then 1 else 0 in
  modify (fun w => set_vi (set_field (JS.xor (field (vi w)) interlaced) (vi w)) w) ;;;
  (* TODO: compensate for over/under cycles. *)
  countPerVbl <- gets (fun w => countPerVbl (vi w)) ;;
  Cpu0.addVblEvent countPerVbl ;;;
  mem_setBits32 MIReg MI.MI_INTR_REG MI.MI_INTR_VI ;;;
  Cpu0.updateCause3 ;;;
  presentBackBuffer ;;;
  returnControlToSystem.

Definition initInterrupt : M unit :=
  pending <- Cpu0.hasVblEvent ;;
  if pending : bool then ret tt
  else
    intr <- mem_readU32 VIReg VI_V_INTR_REG ;;
    sync <- mem_readU32 VIReg VI_V_SYNC_REG ;;
    if sync <=? intr then
      log (LogViNotSetting intr sync)
    else
      countPerVbl <- gets (fun w => countPerVbl (vi w)) ;;
      Cpu0.addVblEvent countPerVbl.

Definition write32 (address value : Z) : M unit :=
  d <- gets vi ;;
  let ea := calcEA (vi_rangeStart d) address in
  len <- u8_length VIReg ;;
  if len <? ea + 4 then throw WriteOutOfRange
  else if ea =? VI_DRAM_ADDR_REG then
    mem_write32 VIReg ea value
  else if ea =? VI_CONTROL_REG then
    unless_quiet (vi_quiet d) (LogViControl value) ;;;
    mem_write32 VIReg ea value
  else if ea =? VI_H_WIDTH_REG then
    unless_quiet (vi_quiet d) (LogViWidth value) ;;;
    mem_write32 VIReg ea value
  else if ea =? VI_V_INTR_REG then
    unless_quiet (vi_quiet d) (LogViIntr value) ;;;
    mem_write32 VIReg ea value ;;;
    initInterrupt
  else if ea =? VI_V_CURRENT_LINE_REG then
    unless_quiet (vi_quiet d) (LogViCurrent value) ;;;
    unless_quiet (vi_quiet d) LogViIntrCleared ;;;
    mem_clearBits32 MIReg MI.MI_INTR_REG MI.MI_INTR_VI ;;;
    Cpu0.updateCause3
  else if ea =? VI_V_SYNC_REG then
    lastSync <- mem_readU32 VIReg ea ;;
    if negb (lastSync =? value) then
      let scanlines := value + 1 in
      let perScanline :=
        JS.ToInt32 (JS.div (JS.div (JS.of_Z (clock d)) (JS.of_Z (refreshRate d)))
                           (JS.of_Z scanlines)) in
      let perVbl := JS.mul (JS.of_Z scanlines) (JS.of_Z perScanline) in
      modify (fun w => set_vi (set_counts perScanline perVbl (vi w)) w) ;;;
      log (LogViSync value perScanline perVbl) ;;;
      mem_write32 VIReg ea value ;;;
      initInterrupt
    else ret tt
  else
    mem_write32 VIReg ea value.

Definition readS32 (address : Z) : M Z :=
  d <- gets vi ;;
  logRead (vi_quiet d) address ;;;
  let ea := calcEA (vi_rangeStart d) address in
  len <- u8_length VIReg ;;
  if len <? ea + 4 then throw ReadOutOfRange
  else
    (if ea =? VI_V_CURRENT_LINE_REG then
       (* Figure out the current scanline based on how many cycles to the next interrupt. *)
       cyclesToNextVbl <- Cpu0.getVblCount ;;
       let countExecuted := JS.sub (countPerVbl d) cyclesToNextVbl in
       let scanline := JS.ToInt32 (JS.div countExecuted (JS.of_Z (countPerScanline d))) in
       (* Wrap around the sync value. *)
       sync <- mem_readU32 VIReg VI_V_SYNC_REG ;;
       let value := scanline in
       let value := if sync <=? value then value - sync else value in
       (* Bit 0 is constant for non-interlaced modes. In interlaced modes, bit 0 gives the field number. *)
       let value := JS.or (JS.and value (JS.not 1)) (field d) in
       mem_write32 VIReg ea value
     else ret tt) ;;;
    mem_readS32 VIReg ea.

Definition readU32 (address : Z) : M Z :=
  v <- readS32 address ;;
  ret (JS.ushr v 0).

End VI.

(** ** Views of the register blocks and auxiliary definitions *)

(** The word stored at an offset of a register block (0 when the block does
    not hold it). *)
Definition word (m : Mem.t) (o : Z) : Z :=
  match Mem.readU32 m o with
  | Some v => v
  | None => 0
  end.

Definition modeBits (w : World) : Z := word (mi_reg w) MI.MI_MODE_REG.
Definition interruptPending (w : World) : Z := word (mi_reg w) MI.MI_INTR_REG.
Definition interruptMask (w : World) : Z := word (mi_reg w) MI.MI_INTR_MASK_REG.
Definition controlReg (w : World) : Z := word (vi_reg w) VI.VI_CONTROL_REG.
Definition interruptLine (w : World) : Z := word (vi_reg w) VI.VI_V_INTR_REG.
Definition currentLine (w : World) : Z := word (vi_reg w) VI.VI_V_CURRENT_LINE_REG.
Definition syncValue (w : World) : Z := word (vi_reg w) VI.VI_V_SYNC_REG.

(** The block after a word store (unchanged when the store is refused). *)
Definition store32 (m : Mem.t) (o value : Z) : Mem.t :=
  match Mem.write32 m o value with
  | Some m' => m'
  | None => m
  end.

(** The register blocks hold the registers of their devices: the fourteen
    word registers of the VI and the four of the MI. *)
Definition holds_registers (w : World) : Prop :=
  0x38 <= Z.of_nat (length (vi_reg w)) /\ 0x10 <= Z.of_nat (length (mi_reg w)).

Definition registers_fit (w : World) : bool :=
  (0x38 <=? Z.of_nat (length (vi_reg w))) && (0x10 <=? Z.of_nat (length (mi_reg w))).

(** The clock and the refresh rate are those [reset] takes from the
    television standard. *)
Definition configured (w : World) : Prop :=
  clock (vi w) = VI.videoClockForTVType (tvType w) /\
  refreshRate (vi w) = VI.refreshRateForTVType (tvType w).

(** What a call of the scheduler leaves behind. *)
Definition scheduled (w w' : World) (count : JS.number) : Prop :=
  cpu0 w' = {| vblEvent := Some count |} /\
  calls w' = calls w ++ [AddVblEvent count].

Definition nothing_scheduled (w w' : World) : Prop :=
  cpu0 w' = cpu0 w /\ calls w' = calls w.

(** The counts that a write of [V] to the vertical-sync register computes. *)
Definition perScanlineOf (d : VIRegDevice) (V : Z) : Z :=
  JS.ToInt32 (JS.div (JS.div (JS.of_Z (clock d)) (JS.of_Z (refreshRate d))) (JS.of_Z (V + 1))).

Definition perVblOf (d : VIRegDevice) (V : Z) : JS.number :=
  JS.mul (JS.of_Z (V + 1)) (JS.of_Z (perScanlineOf d V)).

(** The world after a changed value [V] is written to the vertical-sync
    register, before the vertical-blank event is armed. *)
Definition retimed (w : World) (V : Z) : World :=
  set_vi_reg (store32 (vi_reg w) VI.VI_V_SYNC_REG V)
    (add_log (LogViSync V (perScanlineOf (vi w) V) (perVblOf (vi w) V))
       (set_vi (set_counts (perScanlineOf (vi w) V) (perVblOf (vi w) V) (vi w)) w)).

(** The world after [initInterrupt] has decided on the vertical-blank
    event. *)
Definition armed (w : World) : World :=
  match vblEvent (cpu0 w) with
  | Some _ => w
  | None =>
      if syncValue w <=? interruptLine w
      then add_log (LogViNotSetting (interruptLine w) (syncValue w)) w
      else add_call (AddVblEvent (countPerVbl (vi w)))
             (set_cpu0 {| vblEvent := Some (countPerVbl (vi w)) |} w)
  end.

(** The world after a diagnostic that [quiet] suppresses. *)
Definition quietly (quiet : bool) (l : LogMsg) (w : World) : World :=
  if quiet then w else add_log l w.

(** The world an operation leaves behind. *)
Definition run {A} (m : M A) (w : World) : World := snd (m w).

(** A console at power-on: zeroed register blocks of the sizes of the two
    devices, the VI mapped at 0x04400000 and the MI at 0x04300000, nothing
    scheduled, both devices constructed and reset. *)
Definition blank (n : nat) : Mem.t := repeat x00 n.

Definition power_off (tv : TvType) : World :=
  {| vi_reg := blank 0x38; mi_reg := blank 0x10; tvType := tv;
     vi := VI.fresh 0 true;
     mi := {| mi_rangeStart := 0x04300000; mi_quiet := false |};
     cpu0 := {| vblEvent := None |}; calls := []; logs := [] |}.

Definition power_on (tv : TvType) : World :=
  run MI.reset (run (VI.constructor 0x04400000 false) (power_off tv)).

(** [x] has the bit [bit] set. *)
Definition has (x bit : Z) : bool := negb (Z.land x bit =? 0).

(** The interrupt mask that a write of [value] leaves. *)
Definition newMask (w : World) (value : Z) : Z :=
  JS.or (JS.and (interruptMask w) (JS.not (MI.clr_bits value))) (MI.set_bits value).

(** The world after a write of [value] to the interrupt-mask register. *)
Definition mask_written (w : World) (value : Z) : World :=
  let w1 := set_mi_reg (store32 (mi_reg w) MI.MI_INTR_MASK_REG (newMask w value))
              (quietly (mi_quiet (mi w)) (LogMiIntrMask value) w) in
  if JS.truthy (JS.and (newMask w value) (interruptPending w))
  then add_call UpdateCause3 w1 else w1.

(** The world after a write of [value] to the mode register. *)
Definition mode_written (w : World) (value : Z) : World :=
  let w1 := set_mi_reg (store32 (mi_reg w) MI.MI_MODE_REG (MI.mode_bits value (modeBits w)))
              (quietly (mi_quiet (mi w)) (LogMiMode value) w) in
  if JS.truthy (JS.and value MI.MI_CLR_DP_INTR)
  then add_call UpdateCause3
         (set_mi_reg (store32 (mi_reg w1) MI.MI_INTR_REG
                        (JS.and (interruptPending w1) (JS.not MI.MI_INTR_DP))) w1)
  else w1.

(** The clear, set and mask bits of the six interrupt sources, in the order
    {SP, SI, AI, VI, PI, DP}, and the set, clear and flag bits of the three
    mode flags. *)
Definition sources : list (Z * Z * Z) :=
  [ (MI.MI_INTR_MASK_CLR_SP, MI.MI_INTR_MASK_SET_SP, MI.MI_INTR_MASK_SP);
    (MI.MI_INTR_MASK_CLR_SI, MI.MI_INTR_MASK_SET_SI, MI.MI_INTR_MASK_SI);
    (MI.MI_INTR_MASK_CLR_AI, MI.MI_INTR_MASK_SET_AI, MI.MI_INTR_MASK_AI);
    (MI.MI_INTR_MASK_CLR_VI, MI.MI_INTR_MASK_SET_VI, MI.MI_INTR_MASK_VI);
    (MI.MI_INTR_MASK_CLR_PI, MI.MI_INTR_MASK_SET_PI, MI.MI_INTR_MASK_PI);
    (MI.MI_INTR_MASK_CLR_DP, MI.MI_INTR_MASK_SET_DP, MI.MI_INTR_MASK_DP) ].

Definition mode_flags : list (Z * Z * Z) :=
  [ (MI.MI_SET_RDRAM, MI.MI_CLR_RDRAM, MI.MI_MODE_RDRAM);
    (MI.MI_SET_INIT, MI.MI_CLR_INIT, MI.MI_MODE_INIT);
    (MI.MI_SET_EBUS, MI.MI_CLR_EBUS, MI.MI_MODE_EBUS) ].

(** A console whose VI interrupt is unmasked and not pending. *)
Definition vi_unmasked : World :=
  run (MI.write32 (0x04300000 + MI.MI_INTR_MASK_REG) MI.MI_INTR_MASK_SET_VI)
      (power_on OS_TV_NTSC).

(** The world after a write of [value] to the current-line register: the
    interrupt is acknowledged and the value dropped. *)
Definition acknowledged (w : World) (value : Z) : World :=
  add_call UpdateCause3
    (set_mi_reg (store32 (mi_reg w) MI.MI_INTR_REG
                   (JS.and (interruptPending w) (JS.not MI.MI_INTR_VI)))
       (quietly (vi_quiet (vi w)) LogViIntrCleared
          (quietly (vi_quiet (vi w)) (LogViCurrent value) w))).

(** Two worlds that differ at most in the diagnostics logged. *)
Definition same_state (w w' : World) : Prop :=
  vi_reg w' = vi_reg w /\ mi_reg w' = mi_reg w /\ tvType w' = tvType w /\
  vi w' = vi w /\ mi w' = mi w /\ cpu0 w' = cpu0 w /\ calls w' = calls w.

(** An access that fails with [e] and leaves the state as it was. *)
Definition refused {A} (r : result A * World) (e : exn) (w : World) : Prop :=
  fst r = Throw e /\ same_state w (snd r).

(** An access that either succeeds or fails without a trace in the state. *)
Definition all_or_nothing {A} (r : result A * World) (w : World) : Prop :=
  (exists a, fst r = Ok a) \/ (exists e, fst r = Throw e /\ same_state w (snd r)).

(** The VI registers whose writes are plain stores. *)
Definition vi_passthrough (ea : Z) : bool :=
  negb ((ea =? VI.VI_V_INTR_REG) || (ea =? VI.VI_V_CURRENT_LINE_REG)
        || (ea =? VI.VI_V_SYNC_REG)).

(** The value that a read of the current-line register computes. *)
Definition scanlineOf (w : World) : Z :=
  let cyclesToNextVbl :=
    match vblEvent (cpu0 w) with Some n => n | None => JS.of_Z 0 end in
  let countExecuted := JS.sub (countPerVbl (vi w)) cyclesToNextVbl in
  JS.ToInt32 (JS.div countExecuted (JS.of_Z (countPerScanline (vi w)))).

Definition currentLineOf (w : World) : Z :=
  let value := scanlineOf w in
  let value := if syncValue w <=? value then value - syncValue w else value in
  JS.or (JS.and value (JS.not 1)) (field (vi w)).

(** The world after a word read of the VI at offset [ea]. *)
Definition vi_read (w : World) (address ea : Z) : World :=
  let w1 := quietly (vi_quiet (vi w)) (LogRead address) w in
  if ea =? VI.VI_V_CURRENT_LINE_REG
  then set_vi_reg (store32 (vi_reg w) VI.VI_V_CURRENT_LINE_REG (currentLineOf w)) w1
  else w1.

(** 1 when the serrate bit of the control register is set, 0 otherwise. *)
Definition interlacedOf (w : World) : Z :=
  if JS.truthy (JS.and (controlReg w) VI.VI_CTRL_SERRATE_ON) then 1 else 0.

(** The world after a vertical blank. *)
Definition blanked (w : World) : World :=
  let w1 := set_vi (set_field (JS.xor (field (vi w)) (interlacedOf w)) (vi w)) w in
  let w2 := add_call (AddVblEvent (countPerVbl (vi w)))
              (set_cpu0 {| vblEvent := Some (countPerVbl (vi w)) |} w1) in
  let w3 := set_mi_reg (store32 (mi_reg w) MI.MI_INTR_REG
                          (JS.or (interruptPending w) MI.MI_INTR_VI)) w2 in
  add_call ReturnControlToSystem (add_call PresentBackBuffer (add_call UpdateCause3 w3)).

(** The accesses and events that drive the two devices. *)
Inductive Op :=
| ViWrite (address value : Z)
| ViRead (address : Z)
| MiWrite (address value : Z)
| MiRead (address : Z)
| MiInterrupt (bit : Z)
| VerticalBlank
| CpuRuns (c : Cpu).

Definition step (op : Op) (w : World) : World :=
  match op with
  | ViWrite a v => run (VI.write32 a v) w
  | ViRead a => run (VI.readU32 a) w
  | MiWrite a v => run (MI.write32 a v) w
  | MiRead a => run (MI.readU32 a) w
  | MiInterrupt bit => run (MI.setInterruptBit bit) w
  | VerticalBlank => run VI.verticalBlank w
  | CpuRuns c => set_cpu0 c w
  end.

Fixpoint exec (ops : list Op) (w : World) : World :=
  match ops with
  | [] => w
  | op :: ops' => exec ops' (step op w)
  end.

(** Interlaced output is off before each of the operations. *)
Fixpoint serrate_off (ops : list Op) (w : World) : bool :=
  match ops with
  | [] => true
  | op :: ops' =>
      negb (has (controlReg w) VI.VI_CTRL_SERRATE_ON) && serrate_off ops' (step op w)
  end.

(** The field parity is a single bit. *)
Definition parity_bit (w : World) : Prop := field (vi w) = 0 \/ field (vi w) = 1.

(** What every operation keeps: the sizes of the register blocks, the
    clock and the refresh rate and, apart from the vertical blank, the field
    parity. *)
Definition kept (w w' : World) : Prop :=
  length (vi_reg w') = length (vi_reg w) /\ length (mi_reg w') = length (mi_reg w) /\
  field (vi w') = field (vi w) /\
  clock (vi w') = clock (vi w) /\ refreshRate (vi w') = refreshRate (vi w) /\
  tvType w' = tvType w.

(** A console that showed one interlaced field and then had interlaced
    output turned off. *)
Definition interlace_turned_off : World :=
  exec [ ViWrite (0x04400000 + VI.VI_V_SYNC_REG) 524;
         ViWrite (0x04400000 + VI.VI_CONTROL_REG) VI.VI_CTRL_SERRATE_ON;
         VerticalBlank;
         ViWrite (0x04400000 + VI.VI_CONTROL_REG) 0 ]
       (power_on OS_TV_NTSC).

(** A console after its first vertical blank: the VI interrupt is pending. *)
Definition first_blank : World := step VerticalBlank (power_on OS_TV_NTSC).

(** The four word registers of the MI. *)
Definition mi_registers : list Z :=
  [MI.MI_MODE_REG; MI.MI_VERSION_REG; MI.MI_INTR_REG; MI.MI_INTR_MASK_REG].

(** An operation that relates the world it leaves to the world it found by
    [R], whatever it returns. *)
Definition preserves {A} (R : World -> World -> Prop) (m : M A) : Prop :=
  forall w, R w (snd (m w)).

(** What no operation of the MI changes: the VI block, the VI device, the
    scheduler and the television standard. *)
Definition vi_side_kept (w w' : World) : Prop :=
  vi_reg w' = vi_reg w /\ vi w' = vi w /\ cpu0 w' = cpu0 w /\ tvType w' = tvType w /\
  mi w' = mi w.

(** What the VI changes of the MI only to raise or acknowledge its own
    interrupt: the MI block and the MI device. *)
Definition mi_side_kept (w w' : World) : Prop :=
  mi_reg w' = mi_reg w /\ mi w' = mi w /\ tvType w' = tvType w.

(** Accesses of the registers, as opposed to the vertical blank and the
    progress of the CPU. *)
Definition register_access (op : Op) : bool :=
  match op with
  | VerticalBlank | CpuRuns _ => false
  | _ => true
  end.

(** [n] vertical blanks in a row. *)
Definition blanks (n : nat) : list Op := repeat VerticalBlank n.

(** An NTSC console timed for 525 scanlines, with the CPU 400000 cycles
    before the next vertical blank. *)
Definition mid_frame : World :=
  exec [ ViWrite (0x04400000 + VI.VI_V_SYNC_REG) 524;
         CpuRuns {| vblEvent := Some (JS.of_Z 400000) |} ]
       (power_on OS_TV_NTSC).

(** The number of vertical-blank callbacks requested from the scheduler. *)
Definition vbl_requests (cs : list Call) : nat :=
  length (List.filter (fun c => match c with AddVblEvent _ => true | _ => false end) cs).

(** With a vertical-blank event queued, the schedule is left as it is and
    no further callback is requested. *)
Definition schedule_kept (w w' : World) : Prop :=
  match vblEvent (cpu0 w) with
  | Some _ => cpu0 w' = cpu0 w /\ vbl_requests (calls w') = vbl_requests (calls w)
  | None => True
  end.

(** An NTSC console with interlaced output turned on. *)
Definition interlaced_console : World :=
  step (ViWrite (0x04400000 + VI.VI_CONTROL_REG) VI.VI_CTRL_SERRATE_ON) (power_on OS_TV_NTSC).

(** The cycles of one frame: the clock divided by the refresh rate. *)
Definition frameBudget (d : VIRegDevice) : Z := clock d / refreshRate d.

(** [f] is exactly the fraction [k / 2^d], for an integer [0 <= k]. *)
Definition is_fraction (f : JS.number) (k d : Z) : bool :=
  match f with
  | S754_zero false => k =? 0
  | S754_finite false m e => (e <=? - d) && (Zpos m =? k * 2 ^ (- d - e))
  | _ => false
  end.

(** A console whose MI block is longer than the four registers. *)
Definition long_mi_block : World := set_mi_reg (blank 0x20) (power_on OS_TV_NTSC).

(** The mantissa of the binary64 value of an integer [0 < a < 2^53]: the
    integer shifted up to 53 bits. *)
Definition mant (a : Z) : positive := Z.to_pos (a * 2 ^ (JS.prec - Zdigits2 a)).

(** * Properties *)

(** ** binary64 arithmetic on the integers of the devices *)

Lemma digits2_pos_bounds (p : positive) :
  2 ^ (Zpos (digits2_pos p) - 1) <= Zpos p < 2 ^ Zpos (digits2_pos p).
Proof.
  induction p as [p IH | p IH |]; simpl digits2_pos.
  - rewrite Pos2Z.inj_succ.
    replace (Z.succ (Zpos (digits2_pos p)) - 1) with (Z.succ (Zpos (digits2_pos p) - 1)) by lia.
    rewrite !Z.pow_succ_r by lia. lia.
  - rewrite Pos2Z.inj_succ.
    replace (Z.succ (Zpos (digits2_pos p)) - 1) with (Z.succ (Zpos (digits2_pos p) - 1)) by lia.
    rewrite !Z.pow_succ_r by lia. lia.
  - simpl. lia.
Qed.

Lemma Zdigits2_bounds (m : Z) :
  0 < m -> 2 ^ (Zdigits2 m - 1) <= m < 2 ^ Zdigits2 m.
Proof.
  destruct m as [| p | p]; try lia. intros _. apply digits2_pos_bounds.
Qed.

Lemma Zdigits2_nonneg (m : Z) : 0 <= Zdigits2 m.
Proof. destruct m; simpl; lia. Qed.

Lemma Zdigits2_le (m k : Z) : 0 <= k -> 0 <= m < 2 ^ k -> Zdigits2 m <= k.
Proof.
  intros Hk [H0 Hm]. destruct (Z.eq_dec m 0) as [-> | Hne]; [simpl; lia |].
  destruct (Zdigits2_bounds m) as [Hlo _]; [lia |].
  destruct (Z_le_gt_dec (Zdigits2 m) k) as [|Hgt]; [assumption | exfalso].
  assert (2 ^ k <= 2 ^ (Zdigits2 m - 1)) by (apply Z.pow_le_mono_r; lia).
  lia.
Qed.

Lemma Zdigits2_unique (m d : Z) : 2 ^ (d - 1) <= m < 2 ^ d -> 0 < d -> Zdigits2 m = d.
Proof.
  intros [Hlo Hhi] Hd.
  assert (0 < m) by (pose proof (Z.pow_pos_nonneg 2 (d - 1)); lia).
  destruct (Zdigits2_bounds m) as [Hlo' Hhi']; [assumption |].
  pose proof (Zdigits2_nonneg m).
  destruct (Z_lt_le_dec (Zdigits2 m) d) as [Hlt | Hge].
  - assert (2 ^ Zdigits2 m <= 2 ^ (d - 1)) by (apply Z.pow_le_mono_r; lia). lia.
  - destruct (Z.eq_dec (Zdigits2 m) d) as [|Hne]; [assumption |].
    assert (2 ^ d <= 2 ^ (Zdigits2 m - 1)) by (apply Z.pow_le_mono_r; lia). lia.
Qed.

Lemma shr_1_m (mrs : shr_record) :
  0 <= shr_m mrs -> shr_m (shr_1 mrs) = shr_m mrs / 2.
Proof.
  destruct mrs as [m r s]; cbn [shr_m]. intros Hm.
  destruct m as [| [p | p |] | p]; cbn [shr_1 shr_m]; try lia.
  - reflexivity.
  - apply Z.div_unique with 1; lia.
  - apply Z.div_unique with 0; lia.
  - reflexivity.
Qed.

Lemma iter_shr_1_m (p : positive) : forall mrs,
  0 <= shr_m mrs -> shr_m (SpecFloat.iter_pos shr_1 p mrs) = shr_m mrs / 2 ^ Zpos p.
Proof.
  assert (Hnn : forall mrs, 0 <= shr_m mrs -> 0 <= shr_m (shr_1 mrs)).
  { intros mrs H. rewrite shr_1_m by assumption. apply Z.div_pos; lia. }
  induction p as [p IH | p IH |]; intros mrs Hm; cbn [SpecFloat.iter_pos].
  - assert (H1 : 0 <= shr_m (SpecFloat.iter_pos shr_1 p (shr_1 mrs))).
    { rewrite IH by auto. apply Z.div_pos; [auto | lia]. }
    rewrite IH by assumption. rewrite IH by auto. rewrite shr_1_m by assumption.
    rewrite !Z.div_div by lia. f_equal.
    replace (Zpos p~1) with (1 + Zpos p + Zpos p) by lia.
    rewrite !Z.pow_add_r by lia. lia.
  - assert (H1 : 0 <= shr_m (SpecFloat.iter_pos shr_1 p mrs)).
    { rewrite IH by auto. apply Z.div_pos; [auto | lia]. }
    rewrite IH by assumption. rewrite IH by auto.
    rewrite !Z.div_div by lia. f_equal.
    replace (Zpos p~0) with (Zpos p + Zpos p) by lia.
    rewrite !Z.pow_add_r by lia. lia.
  - rewrite shr_1_m by assumption. reflexivity.
Qed.

Lemma shr_spec (mrs : shr_record) (e n : Z) :
  0 <= shr_m mrs ->
  shr_m (fst (shr mrs e n)) = shr_m mrs / 2 ^ Z.max 0 n /\
  snd (shr mrs e n) = e + Z.max 0 n.
Proof.
  intros Hm. destruct n as [| p | p]; simpl.
  - rewrite Z.div_1_r. lia.
  - rewrite iter_shr_1_m by assumption. split; [reflexivity | lia].
  - rewrite Z.div_1_r. lia.
Qed.

Lemma shr_record_of_loc_m (m : Z) (l : location) : shr_m (shr_record_of_loc m l) = m.
Proof. destruct l as [| []]; reflexivity. Qed.

Section Rounding.
Variables prec emax : Z.

Lemma shr_fexp_spec (m e : Z) (l : location) :
  0 <= m ->
  let e' := Z.max e (fexp prec emax (Zdigits2 m + e)) in
  shr_m (fst (shr_fexp prec emax m e l)) = m / 2 ^ (e' - e) /\
  snd (shr_fexp prec emax m e l) = e'.
Proof.
  intros Hm e'. unfold shr_fexp.
  destruct (shr_spec (shr_record_of_loc m l) e (fexp prec emax (Zdigits2 m + e) - e)) as [H1 H2].
  { rewrite shr_record_of_loc_m. assumption. }
  rewrite H1, H2, shr_record_of_loc_m.
  replace (Z.max 0 (fexp prec emax (Zdigits2 m + e) - e)) with (e' - e) by (unfold e'; lia).
  split; [reflexivity | lia].
Qed.

Lemma round_nearest_even_bounds (m : Z) (l : location) :
  m <= round_nearest_even m l <= m + 1.
Proof.
  destruct l as [| []]; simpl; try lia. destruct (Z.even m); lia.
Qed.

(** What [binary_round_aux] returns, up to the direction of the rounding. *)
Lemma binary_round_aux_spec (sx : bool) (mx ex : Z) (lx : location) :
  0 <= mx ->
  exists m1 m e1 e,
    e1 = Z.max ex (fexp prec emax (Zdigits2 mx + ex)) /\
    mx / 2 ^ (e1 - ex) <= m1 <= mx / 2 ^ (e1 - ex) + 1 /\
    e = Z.max e1 (fexp prec emax (Zdigits2 m1 + e1)) /\
    m = m1 / 2 ^ (e - e1) /\
    binary_round_aux prec emax sx mx ex lx =
      match m with
      | Z0 => S754_zero sx
      | Zpos p => if e <=? emax - prec then S754_finite sx p e else S754_infinity sx
      | Zneg _ => S754_nan
      end.
Proof.
  intros Hmx. unfold binary_round_aux.
  destruct (shr_fexp_spec mx ex lx Hmx) as [H1 H2].
  destruct (shr_fexp prec emax mx ex lx) as [mrs' e'] eqn:E1. simpl in H1, H2.
  set (m1 := round_nearest_even (shr_m mrs') (loc_of_shr_record mrs')).
  assert (Hb : shr_m mrs' <= m1 <= shr_m mrs' + 1) by apply round_nearest_even_bounds.
  assert (Hm1 : 0 <= m1).
  { rewrite H1 in Hb. assert (0 <= mx / 2 ^ (Z.max ex (fexp prec emax (Zdigits2 mx + ex)) - ex)).
    { apply Z.div_pos; [assumption | apply Z.pow_pos_nonneg; lia]. } lia. }
  destruct (shr_fexp_spec m1 e' loc_Exact Hm1) as [H3 H4].
  destruct (shr_fexp prec emax m1 e' loc_Exact) as [mrs'' e''] eqn:E2. simpl in H3, H4.
  exists m1, (shr_m mrs''), e', e''. subst e'.
  split; [reflexivity |]. split; [rewrite <- H1; exact Hb |].
  split; [exact H4 |]. split; [rewrite H3, H4; reflexivity |].
  reflexivity.
Qed.
End Rounding.

Lemma Zdigits2_mul_pow2 (m k : Z) : 0 < m -> 0 <= k -> Zdigits2 (m * 2 ^ k) = Zdigits2 m + k.
Proof.
  intros Hm Hk. destruct (Zdigits2_bounds m Hm) as [Hlo Hhi].
  pose proof (Zdigits2_nonneg m) as Hd.
  assert (Hd1 : 1 <= Zdigits2 m).
  { destruct (Z.eq_dec (Zdigits2 m) 0) as [E | E]; [| lia].
    rewrite E in Hhi. simpl in Hhi. lia. }
  apply Zdigits2_unique; [| lia].
  replace (Zdigits2 m + k - 1) with ((Zdigits2 m - 1) + k) by lia.
  rewrite !Z.pow_add_r by lia.
  pose proof (Z.pow_pos_nonneg 2 k). nia.
Qed.

Lemma shr_1_exact (m : Z) :
  0 <= m -> shr_1 (Build_shr_record (2 * m) false false) = Build_shr_record m false false.
Proof. intros Hm. destruct m as [| p | p]; try lia; reflexivity. Qed.

Lemma iter_shr_1_exact (p : positive) : forall m,
  0 <= m ->
  SpecFloat.iter_pos shr_1 p (Build_shr_record (m * 2 ^ Zpos p) false false)
  = Build_shr_record m false false.
Proof.
  induction p as [p IH | p IH |]; intros m Hm; cbn [SpecFloat.iter_pos].
  - replace (m * 2 ^ Zpos p~1) with (2 * ((m * 2 ^ Zpos p) * 2 ^ Zpos p)).
    + rewrite shr_1_exact by (pose proof (Z.pow_pos_nonneg 2 (Zpos p)); nia).
      rewrite IH by (pose proof (Z.pow_pos_nonneg 2 (Zpos p)); nia).
      apply IH; assumption.
    + replace (Zpos p~1) with (1 + Zpos p + Zpos p) by lia.
      rewrite !Z.pow_add_r by lia. lia.
  - replace (m * 2 ^ Zpos p~0) with ((m * 2 ^ Zpos p) * 2 ^ Zpos p).
    + rewrite IH by (pose proof (Z.pow_pos_nonneg 2 (Zpos p)); nia).
      apply IH; assumption.
    + replace (Zpos p~0) with (Zpos p + Zpos p) by lia.
      rewrite !Z.pow_add_r by lia. lia.
  - replace (m * 2 ^ 1) with (2 * m) by lia. apply shr_1_exact; assumption.
Qed.

Lemma fexp_canonical (d e : Z) :
  d = JS.prec -> -1074 <= e -> fexp JS.prec JS.emax (d + e) = e.
Proof. intros -> He. unfold fexp, emin, JS.prec, JS.emax. lia. Qed.

(** Rounding a value that fits the 53 bits of the mantissa changes nothing. *)
Lemma binary_round_aux_exact (sx : bool) (m0 : positive) (k e : Z) :
  Zdigits2 (Zpos m0) = JS.prec -> 0 <= k -> -1074 <= e <= 971 ->
  binary_round_aux JS.prec JS.emax sx (Zpos m0 * 2 ^ k) (e - k) loc_Exact
  = S754_finite sx m0 e.
Proof.
  intros Hd Hk He. unfold binary_round_aux, shr_fexp.
  rewrite Zdigits2_mul_pow2 by lia.
  replace (Zdigits2 (Zpos m0) + k + (e - k)) with (Zdigits2 (Zpos m0) + e) by lia.
  rewrite (fexp_canonical _ _ Hd) by lia.
  replace (e - (e - k)) with k by lia.
  cbn [shr_record_of_loc].
  assert (Hshr : shr (Build_shr_record (Zpos m0 * 2 ^ k) false false) (e - k) k
                 = (Build_shr_record (Zpos m0) false false, e)).
  { destruct k as [| p | p]; try lia.
    - cbn [shr]. rewrite Z.mul_1_r. f_equal. lia.
    - cbn [shr]. rewrite iter_shr_1_exact by lia. f_equal. lia. }
  rewrite Hshr. cbn [shr_m loc_of_shr_record round_nearest_even].
  rewrite (fexp_canonical _ _ Hd) by lia.
  rewrite Z.sub_diag. cbn [shr shr_record_of_loc shr_m].
  replace (e <=? JS.emax - JS.prec) with true; [reflexivity |].
  symmetry. apply Z.leb_le. unfold JS.emax, JS.prec. lia.
Qed.

Lemma Pos_iter_xO (p q : positive) : Zpos (Pos.iter xO p q) = Zpos p * 2 ^ Zpos q.
Proof.
  induction q as [| q IH] using Pos.peano_ind.
  - simpl. lia.
  - rewrite Pos.iter_succ, Pos2Z.inj_xO, IH, Pos2Z.inj_succ, Z.pow_succ_r by lia. lia.
Qed.

Lemma mant_spec (a : Z) :
  0 < a < 2 ^ 53 ->
  Zpos (mant a) = a * 2 ^ (JS.prec - Zdigits2 a) /\ Zdigits2 (Zpos (mant a)) = JS.prec /\
  1 <= Zdigits2 a <= 53.
Proof.
  intros [H0 H1].
  assert (Hd : Zdigits2 a <= 53) by (apply Zdigits2_le; lia).
  pose proof (Zdigits2_nonneg a) as Hn.
  destruct (Zdigits2_bounds a H0) as [Hlo Hhi].
  assert (Hd1 : 1 <= Zdigits2 a).
  { destruct (Z.eq_dec (Zdigits2 a) 0) as [E | E]; [| lia]. rewrite E in Hhi. simpl in Hhi. lia. }
  assert (Hp : 0 < a * 2 ^ (JS.prec - Zdigits2 a)).
  { unfold JS.prec. pose proof (Z.pow_pos_nonneg 2 (53 - Zdigits2 a)). nia. }
  unfold mant. rewrite Z2Pos.id by assumption.
  split; [reflexivity |]. split; [| lia].
  rewrite Zdigits2_mul_pow2 by (unfold JS.prec; lia). lia.
Qed.

Lemma of_Z_pos (a : Z) :
  0 < a < 2 ^ 53 -> JS.of_Z a = S754_finite false (mant a) (Zdigits2 a - JS.prec).
Proof.
  intros Ha. destruct (mant_spec a Ha) as (Hm & Hd & Hda).
  destruct a as [| p | p]; try lia.
  unfold JS.of_Z, binary_normalize, binary_round.
  change (Zpos (digits2_pos p)) with (Zdigits2 (Zpos p)).
  rewrite Z.add_0_r.
  assert (Hf : fexp JS.prec JS.emax (Zdigits2 (Zpos p)) = Zdigits2 (Zpos p) - JS.prec).
  { unfold fexp, emin, JS.prec, JS.emax. lia. }
  rewrite Hf. unfold shl_align. rewrite Z.sub_0_r.
  destruct (Zdigits2 (Zpos p) - JS.prec) as [| q | q] eqn:E.
  - assert (Hmp : mant (Zpos p) = p).
    { apply Pos2Z.inj. rewrite Hm. replace (JS.prec - Zdigits2 (Zpos p)) with 0 by lia. lia. }
    rewrite Hmp in *.
    pose proof (binary_round_aux_exact false p 0 0 Hd) as H.
    rewrite Z.mul_1_r in H. apply H; lia.
  - unfold JS.prec in *. lia.
  - assert (Hmp : Pos.iter xO p q = mant (Zpos p)).
    { apply Pos2Z.inj. rewrite Hm, Pos_iter_xO. f_equal. f_equal. lia. }
    rewrite Hmp.
    pose proof (binary_round_aux_exact false (mant (Zpos p)) 0 (Zneg q) Hd) as H.
    rewrite Z.mul_1_r, Z.sub_0_r in H. apply H; unfold JS.prec in *; lia.
Qed.

Lemma trunc_finite (m : positive) (e : Z) :
  e <= 0 -> JS.trunc (S754_finite false m e) = Zpos m / 2 ^ (- e).
Proof.
  intros He. unfold JS.trunc, cond_Zopp.
  rewrite <- Z.shiftr_div_pow2 by lia. unfold Z.shiftr. rewrite Z.opp_involutive. reflexivity.
Qed.

Lemma trunc_of_Z (a : Z) : 0 <= a < 2 ^ 53 -> JS.trunc (JS.of_Z a) = a.
Proof.
  intros Ha. destruct (Z.eq_dec a 0) as [-> | Hne]; [reflexivity |].
  rewrite of_Z_pos by lia. destruct (mant_spec a) as (Hm & Hd & Hda); [lia |].
  rewrite trunc_finite by (unfold JS.prec; lia). rewrite Hm.
  replace (- (Zdigits2 a - JS.prec)) with (JS.prec - Zdigits2 a) by lia.
  apply Z.div_mul. apply Z.pow_nonzero; unfold JS.prec; lia.
Qed.

Lemma Zdigits2_mul_ge (a b : Z) :
  0 < a -> 0 < b -> Zdigits2 a + Zdigits2 b - 1 <= Zdigits2 (a * b).
Proof.
  intros Ha Hb.
  destruct (Zdigits2_bounds a Ha) as [Ha1 Ha2]. destruct (Zdigits2_bounds b Hb) as [Hb1 Hb2].
  destruct (Zdigits2_bounds (a * b)) as [Hc1 Hc2]; [nia |].
  pose proof (Zdigits2_nonneg (a * b)) as Hn.
  assert (Hda : 1 <= Zdigits2 a).
  { pose proof (Zdigits2_nonneg a). destruct (Z.eq_dec (Zdigits2 a) 0) as [E | E]; [| lia].
    rewrite E in Ha2. simpl in Ha2. lia. }
  assert (Hdb : 1 <= Zdigits2 b).
  { pose proof (Zdigits2_nonneg b). destruct (Z.eq_dec (Zdigits2 b) 0) as [E | E]; [| lia].
    rewrite E in Hb2. simpl in Hb2. lia. }
  destruct (Z_le_gt_dec (Zdigits2 a + Zdigits2 b - 1) (Zdigits2 (a * b))) as [| Hgt]; [assumption |].
  exfalso.
  assert (2 ^ Zdigits2 (a * b) <= 2 ^ ((Zdigits2 a - 1) + (Zdigits2 b - 1)))
    by (apply Z.pow_le_mono_r; lia).
  rewrite Z.pow_add_r in * by lia.
  pose proof (Z.pow_pos_nonneg 2 (Zdigits2 a - 1)). pose proof (Z.pow_pos_nonneg 2 (Zdigits2 b - 1)).
  nia.
Qed.

(** The product of two integers is exact as long as it stays below 2^53. *)
Lemma mul_of_Z (a b : Z) :
  0 <= a < 2 ^ 53 -> 0 <= b < 2 ^ 53 -> a * b < 2 ^ 53 ->
  JS.mul (JS.of_Z a) (JS.of_Z b) = JS.of_Z (a * b).
Proof.
  intros Ha Hb Hab.
  destruct (Z.eq_dec a 0) as [-> | Hna].
  { rewrite Z.mul_0_l. destruct (Z.eq_dec b 0) as [-> | Hnb]; [reflexivity |].
    rewrite (of_Z_pos b) by lia. reflexivity. }
  destruct (Z.eq_dec b 0) as [-> | Hnb].
  { rewrite Z.mul_0_r. rewrite (of_Z_pos a) by lia. reflexivity. }
  destruct (mant_spec a) as (Hma & Hda & Hda'); [lia |].
  destruct (mant_spec b) as (Hmb & Hdb & Hdb'); [lia |].
  destruct (mant_spec (a * b)) as (Hmc & Hdc & Hdc'); [nia |].
  pose proof (Zdigits2_mul_ge a b) as Hge.
  rewrite !of_Z_pos by nia. unfold JS.mul, SFmul. cbn [xorb].
  set (k := JS.prec + Zdigits2 (a * b) - Zdigits2 a - Zdigits2 b).
  assert (Hk : 0 <= k) by (unfold k, JS.prec; lia).
  replace (Zpos (mant a * mant b)) with (Zpos (mant (a * b)) * 2 ^ k).
  - replace (Zdigits2 a - JS.prec + (Zdigits2 b - JS.prec))
      with ((Zdigits2 (a * b) - JS.prec) - k) by (unfold k; lia).
    apply binary_round_aux_exact; [assumption | assumption |].
    unfold JS.prec in *. lia.
  - rewrite Pos2Z.inj_mul, Hma, Hmb, Hmc.
    replace (JS.prec - Zdigits2 a) with ((JS.prec - Zdigits2 (a * b)) + (k - (JS.prec - Zdigits2 b)))
      by (unfold k; lia).
    unfold JS.prec in *.
    replace (2 ^ k) with (2 ^ (k - (53 - Zdigits2 b)) * 2 ^ (53 - Zdigits2 b)).
    + rewrite (Z.pow_add_r 2 (53 - Zdigits2 (a * b))) by (unfold k; lia). lia.
    + rewrite <- Z.pow_add_r by (unfold k; lia). f_equal. lia.
Qed.

Lemma div_finite (mx my : positive) (ex ey : Z) :
  Zdigits2 (Zpos mx) = JS.prec -> Zdigits2 (Zpos my) = JS.prec -> -1021 <= ex - ey ->
  JS.div (S754_finite false mx ex) (S754_finite false my ey)
  = binary_round_aux JS.prec JS.emax false
      (Zpos mx * 2 ^ 53 / Zpos my) (ex - ey - 53)
      (new_location (Zpos my) (Zpos mx * 2 ^ 53 mod Zpos my)).
Proof.
  intros Hdx Hdy He. unfold JS.div, SFdiv, SFdiv_core_binary.
  rewrite Hdx, Hdy.
  replace (Z.min (fexp JS.prec JS.emax (JS.prec + ex - (JS.prec + ey))) (ex - ey))
    with (ex - ey - 53) by (unfold fexp, emin, JS.prec, JS.emax; lia).
  replace (ex - ey - (ex - ey - 53)) with 53 by lia.
  cbv beta iota.
  rewrite Z.shiftl_mul_pow2 by lia.
  unfold Z.div, Z.modulo.
  destruct (Z.div_eucl (Zpos mx * 2 ^ 53) (Zpos my)) as [q r]. reflexivity.
Qed.

(** Dividing a 53-bit value [mx * 2^ex] by an integer [s] and truncating
    gives [K] as soon as the value lies in [[K * s, (K + 1) * s)] with two
    units of the mantissa to spare. *)
Lemma trunc_div_of_Z (mx : positive) (ex s K : Z) :
  Zdigits2 (Zpos mx) = JS.prec -> -100 <= ex <= -3 ->
  0 < s < 2 ^ 53 -> 0 <= K ->
  K * s * 2 ^ (- ex) <= Zpos mx ->
  Zpos mx + 2 < (K + 1) * s * 2 ^ (- ex) ->
  JS.trunc (JS.div (S754_finite false mx ex) (JS.of_Z s)) = K.
Proof.
  intros Hdx Hex Hs HK Hlo Hhi.
  destruct (mant_spec s Hs) as (Hmy & Hdy & Hds).
  rewrite (of_Z_pos s Hs).
  rewrite div_finite by (unfold JS.prec in *; lia).
  set (my := Zpos (mant s)) in *.
  set (q := Zpos mx * 2 ^ 53 / my).
  set (e0 := ex - (Zdigits2 s - JS.prec) - 53).
  assert (He0 : e0 = ex - Zdigits2 s) by (unfold e0, JS.prec; lia).
  assert (Hmypos : 0 < my) by (unfold my; lia).
  assert (Hmy52 : 2 ^ 52 <= my < 2 ^ 53).
  { destruct (Zdigits2_bounds my Hmypos) as [A B].
    rewrite Hdy in A, B. exact (conj A B). }
  assert (Hmx53 : Zpos mx < 2 ^ 53).
  { destruct (Zdigits2_bounds (Zpos mx)) as [A B]; [lia |]. rewrite Hdx in B. exact B. }
  assert (Hq0 : 0 <= q) by (apply Z.div_pos; lia).
  assert (Hqmul : q * my <= Zpos mx * 2 ^ 53).
  { unfold q. rewrite Z.mul_comm. apply Z.mul_div_le. assumption. }
  assert (Hq54 : q < 2 ^ 54).
  { apply Z.div_lt_upper_bound; [assumption |].
    change (2 ^ 54) with (2 ^ 52 * 4). change (2 ^ 53) with (2 ^ 52 * 2) in *. nia. }
  (* the scale of the quotient *)
  set (P := 2 ^ (- e0)).
  assert (HP : P * my = s * 2 ^ (- ex) * 2 ^ 53).
  { unfold P. rewrite Hmy, He0.
    replace (- (ex - Zdigits2 s)) with (Zdigits2 s + - ex) by lia.
    rewrite Z.pow_add_r by lia.
    replace (2 ^ 53) with (2 ^ Zdigits2 s * 2 ^ (JS.prec - Zdigits2 s)).
    - ring.
    - rewrite <- Z.pow_add_r by (unfold JS.prec; lia). f_equal. unfold JS.prec. lia. }
  assert (HPpos : 0 < P) by (apply Z.pow_pos_nonneg; lia).
  assert (HKq : K * P <= q).
  { apply Z.div_le_lower_bound; [assumption |].
    replace (my * (K * P)) with (K * (P * my)) by ring. rewrite HP.
    pose proof (Z.pow_pos_nonneg 2 53). nia. }
  assert (HqK : q + 2 < (K + 1) * P).
  { destruct (Z_lt_le_dec (q + 2) ((K + 1) * P)) as [| Hge]; [assumption | exfalso].
    assert (A : (K + 1) * (P * my) <= (q + 2) * my) by nia.
    rewrite HP in A.
    assert (B : (Zpos mx + 2) * 2 ^ 53 < (K + 1) * (s * 2 ^ (- ex) * 2 ^ 53)).
    { pose proof (Z.pow_pos_nonneg 2 53). nia. }
    nia. }
  destruct (binary_round_aux_spec JS.prec JS.emax false q e0
              (new_location my (Zpos mx * 2 ^ 53 mod my)) Hq0)
    as (m1 & m & e1 & e & He1 & Hm1 & He & Hm & Hres).
  rewrite Hres. clear Hres.
  (* the exponents *)
  assert (Hdq : Zdigits2 q <= 54) by (apply Zdigits2_le; lia).
  pose proof (Zdigits2_nonneg q) as Hdq0.
  assert (He1b : e0 <= e1 <= e0 + 1).
  { rewrite He1. unfold fexp, emin, JS.prec, JS.emax. lia. }
  assert (Hpow1 : 1 <= 2 ^ (e1 - e0) <= 2).
  { destruct (Z.eq_dec e1 e0) as [-> | Hne].
    - rewrite Z.sub_diag. simpl. lia.
    - replace (e1 - e0) with 1 by lia. simpl. lia. }
  assert (Hdiv1 : q / 2 ^ (e1 - e0) <= q).
  { apply Z.div_le_upper_bound; [lia | nia]. }
  assert (Hdiv0 : 0 <= q / 2 ^ (e1 - e0)) by (apply Z.div_pos; lia).
  assert (Hm1b : 0 <= m1 < 2 ^ 55).
  { change (2 ^ 55) with (2 ^ 54 * 2). lia. }
  assert (Hdm1 : Zdigits2 m1 <= 55) by (apply Zdigits2_le; lia).
  pose proof (Zdigits2_nonneg m1) as Hdm0.
  assert (Heb : e1 <= e <= e1 + 2).
  { rewrite He. unfold fexp, emin, JS.prec, JS.emax. lia. }
  assert (Hple : 0 < 2 ^ (e - e1)) by (apply Z.pow_pos_nonneg; lia).
  assert (Hm0 : 0 <= m) by (rewrite Hm; apply Z.div_pos; lia).
  assert (Hsplit : 2 ^ (- e0) = 2 ^ (- e) * (2 ^ (e - e1) * 2 ^ (e1 - e0))).
  { rewrite <- !Z.pow_add_r by lia. f_equal. lia. }
  assert (Hpe : 0 < 2 ^ (- e)) by (apply Z.pow_pos_nonneg; lia).
  fold P in Hsplit.
  (* the mantissa lies between K * 2^-e and (K + 1) * 2^-e *)
  assert (Hlow : K * 2 ^ (- e) <= m).
  { rewrite Hm. apply Z.div_le_lower_bound; [assumption |].
    apply Z.le_trans with (q / 2 ^ (e1 - e0)); [| lia].
    apply Z.div_le_lower_bound; [lia |].
    replace (2 ^ (e1 - e0) * (2 ^ (e - e1) * (K * 2 ^ (- e)))) with (K * P)
      by (rewrite Hsplit; ring).
    assumption. }
  assert (Hupp : m < (K + 1) * 2 ^ (- e)).
  { assert (A : m * 2 ^ (e - e1) <= m1).
    { rewrite Hm, Z.mul_comm. apply Z.mul_div_le. assumption. }
    assert (B : q / 2 ^ (e1 - e0) * 2 ^ (e1 - e0) <= q).
    { rewrite Z.mul_comm. apply Z.mul_div_le. lia. }
    assert (C : m * (2 ^ (e - e1) * 2 ^ (e1 - e0)) <= q + 2) by nia.
    assert (D : m * (2 ^ (e - e1) * 2 ^ (e1 - e0)) < (K + 1) * 2 ^ (- e) * (2 ^ (e - e1) * 2 ^ (e1 - e0))).
    { replace ((K + 1) * 2 ^ (- e) * (2 ^ (e - e1) * 2 ^ (e1 - e0))) with ((K + 1) * P)
        by (rewrite Hsplit; ring).
      lia. }
    apply (Z.mul_lt_mono_pos_r (2 ^ (e - e1) * 2 ^ (e1 - e0))); [| exact D].
    apply Z.mul_pos_pos; lia. }
  assert (Hele : e <= 0) by lia.
  destruct m as [| p | p]; try lia.
  - cbn [JS.trunc]. destruct (Z.eq_dec K 0) as [-> | HK0]; [reflexivity | exfalso].
    assert (0 < K * 2 ^ (- e)) by (apply Z.mul_pos_pos; lia). lia.
  - replace (e <=? JS.emax - JS.prec) with true
      by (symmetry; apply Z.leb_le; unfold JS.emax, JS.prec; lia).
    rewrite trunc_finite by assumption.
    symmetry. apply Z.div_unique with (Zpos p - K * 2 ^ (- e)); [| ring].
    left. lia.
Qed.

(** ** 32-bit conversions *)

Lemma to_uint32_range (z : Z) : 0 <= JS.to_uint32 z < 2 ^ 32.
Proof. unfold JS.to_uint32. apply Z.mod_pos_bound. lia. Qed.

Lemma to_int32_range (z : Z) : - 2 ^ 31 <= JS.to_int32 z < 2 ^ 31.
Proof. unfold JS.to_int32. pose proof (Z.mod_pos_bound (z + 2 ^ 31) (2 ^ 32)). lia. Qed.

Lemma to_uint32_small (z : Z) : 0 <= z < 2 ^ 32 -> JS.to_uint32 z = z.
Proof. apply Z.mod_small. Qed.

Lemma to_int32_small (z : Z) : - 2 ^ 31 <= z < 2 ^ 31 -> JS.to_int32 z = z.
Proof. intros H. unfold JS.to_int32. rewrite Z.mod_small; lia. Qed.

Lemma to_uint32_bits (z i : Z) :
  0 <= i -> Z.testbit (JS.to_uint32 z) i = Z.testbit z i && (i <? 32).
Proof.
  intros Hi. unfold JS.to_uint32. destruct (Z.ltb_spec i 32).
  - rewrite Z.mod_pow2_bits_low by lia. rewrite andb_true_r. reflexivity.
  - rewrite Z.mod_pow2_bits_high by lia. rewrite andb_false_r. reflexivity.
Qed.

Lemma to_int32_bits (z i : Z) :
  0 <= i -> Z.testbit (JS.to_int32 z) i = Z.testbit z (Z.min i 31).
Proof.
  intros Hi.
  assert (Hu : 0 <= z mod 2 ^ 32 < 2 ^ 32) by (apply Z.mod_pos_bound; lia).
  assert (Hlow : forall j, 0 <= j < 32 -> Z.testbit (z mod 2 ^ 32) j = Z.testbit z j).
  { intros j Hj. apply Z.mod_pow2_bits_low. lia. }
  destruct (Z_lt_le_dec (z mod 2 ^ 32) (2 ^ 31)) as [Hs | Hb].
  - assert (E : JS.to_int32 z = z mod 2 ^ 32).
    { unfold JS.to_int32. rewrite <- Zplus_mod_idemp_l.
      rewrite (Z.mod_small (z mod 2 ^ 32 + 2 ^ 31)) by lia. lia. }
    rewrite E.
    assert (H31 : forall j, 31 <= j -> Z.testbit (z mod 2 ^ 32) j = false).
    { intros j Hj. destruct (Z.eq_dec (z mod 2 ^ 32) 0) as [E0 | N0].
      - rewrite E0. apply Z.bits_0.
      - apply Z.bits_above_log2; [lia |]. apply Z.log2_lt_pow2; [lia |].
        apply Z.lt_le_trans with (2 ^ 31); [assumption |]. apply Z.pow_le_mono_r; lia. }
    destruct (Z_lt_le_dec i 31).
    + rewrite Z.min_l by lia. apply Hlow. lia.
    + rewrite Z.min_r by lia. rewrite <- Hlow by lia. rewrite !H31 by lia. reflexivity.
  - assert (E : JS.to_int32 z = Z.lnot (2 ^ 32 - 1 - z mod 2 ^ 32)).
    { unfold JS.to_int32, Z.lnot.
      rewrite <- Zplus_mod_idemp_l.
      replace (z mod 2 ^ 32 + 2 ^ 31) with (z mod 2 ^ 32 - 2 ^ 31 + 1 * 2 ^ 32) by lia.
      rewrite Z.mod_add by lia.
      rewrite (Z.mod_small (z mod 2 ^ 32 - 2 ^ 31)) by lia. lia. }
    rewrite E, Z.lnot_spec by lia.
    set (c := 2 ^ 32 - 1 - z mod 2 ^ 32).
    assert (Hc : 0 <= c < 2 ^ 31) by (unfold c; lia).
    assert (Hchi : forall j, 31 <= j -> Z.testbit c j = false).
    { intros j Hj. destruct (Z.eq_dec c 0) as [E0 | N0].
      - rewrite E0. apply Z.bits_0.
      - apply Z.bits_above_log2; [lia |]. apply Z.log2_lt_pow2; [lia |].
        apply Z.lt_le_trans with (2 ^ 31); [lia |]. apply Z.pow_le_mono_r; lia. }
    assert (Hcl : forall j, 0 <= j < 32 -> Z.testbit c j = negb (Z.testbit z j)).
    { intros j Hj. unfold c.
      replace (2 ^ 32 - 1 - z mod 2 ^ 32) with (Z.lnot (z mod 2 ^ 32) mod 2 ^ 32).
      - rewrite Z.mod_pow2_bits_low, Z.lnot_spec, Hlow by lia. reflexivity.
      - unfold Z.lnot. replace (Z.pred (- (z mod 2 ^ 32))) with (2 ^ 32 - 1 - z mod 2 ^ 32 + (-1) * 2 ^ 32) by lia.
        rewrite Z.mod_add by lia. apply Z.mod_small. lia. }
    destruct (Z_lt_le_dec i 31).
    + rewrite Z.min_l by lia. rewrite Hcl by lia. apply negb_involutive.
    + rewrite Z.min_r by lia. rewrite Hchi by lia.
      rewrite <- (negb_involutive (Z.testbit z 31)). rewrite <- Hcl by lia.
      rewrite Hchi by lia. reflexivity.
Qed.

Lemma min31_idem (i : Z) : Z.min (Z.min i 31) 31 = Z.min i 31.
Proof. lia. Qed.

Lemma and_bits (a b i : Z) :
  0 <= i -> Z.testbit (JS.and a b) i = Z.testbit a (Z.min i 31) && Z.testbit b (Z.min i 31).
Proof. intros Hi. unfold JS.and. rewrite Z.land_spec, !to_int32_bits by lia. reflexivity. Qed.

Lemma or_bits (a b i : Z) :
  0 <= i -> Z.testbit (JS.or a b) i = Z.testbit a (Z.min i 31) || Z.testbit b (Z.min i 31).
Proof. intros Hi. unfold JS.or. rewrite Z.lor_spec, !to_int32_bits by lia. reflexivity. Qed.

Lemma xor_bits (a b i : Z) :
  0 <= i -> Z.testbit (JS.xor a b) i = xorb (Z.testbit a (Z.min i 31)) (Z.testbit b (Z.min i 31)).
Proof. intros Hi. unfold JS.xor. rewrite Z.lxor_spec, !to_int32_bits by lia. reflexivity. Qed.

Lemma not_bits (a i : Z) :
  0 <= i -> Z.testbit (JS.not a) i = negb (Z.testbit a (Z.min i 31)).
Proof. intros Hi. unfold JS.not. rewrite Z.lnot_spec, to_int32_bits by lia. reflexivity. Qed.

Lemma ushr_bits (a n i : Z) :
  0 <= i ->
  Z.testbit (JS.ushr a n) i = Z.testbit a (i + n mod 32) && (i + n mod 32 <? 32).
Proof.
  intros Hi. unfold JS.ushr. pose proof (Z.mod_pos_bound n 32).
  rewrite Z.shiftr_spec, to_uint32_bits by lia. reflexivity.
Qed.

Lemma to_uint32_to_int32 (z : Z) : JS.to_uint32 (JS.to_int32 z) = JS.to_uint32 z.
Proof.
  apply Z.bits_inj'. intros i Hi. rewrite !to_uint32_bits, to_int32_bits by lia.
  destruct (Z.ltb_spec i 32).
  - rewrite Z.min_l by lia. reflexivity.
  - rewrite !andb_false_r. reflexivity.
Qed.

Lemma truthy_and_bit (value k : Z) :
  0 <= k < 31 -> JS.truthy (JS.and value (2 ^ k)) = Z.testbit value k.
Proof.
  intros Hk. unfold JS.truthy.
  assert (E : JS.and value (2 ^ k) = if Z.testbit value k then 2 ^ k else 0).
  { apply Z.bits_inj'. intros i Hi. rewrite and_bits by lia.
    destruct (Z.eq_dec i k) as [-> | Hne].
    - rewrite Z.min_l by lia. rewrite Z.pow2_bits_true by lia.
      destruct (Z.testbit value k); [rewrite Z.pow2_bits_true by lia | rewrite Z.bits_0]; reflexivity.
    - rewrite (Z.pow2_bits_false k (Z.min i 31)) by lia. rewrite andb_false_r.
      destruct (Z.testbit value k); [rewrite Z.pow2_bits_false by lia | rewrite Z.bits_0]; reflexivity. }
  rewrite E. destruct (Z.testbit value k).
  - pose proof (Z.pow_pos_nonneg 2 k). destruct (Z.eqb_spec (2 ^ k) 0); [lia | reflexivity].
  - reflexivity.
Qed.

(** ** The register block *)

Lemma Z_of_byte_range (b : byte) : 0 <= Mem.Z_of_byte b < 256.
Proof. unfold Mem.Z_of_byte. pose proof (Byte.to_N_bounded b). lia. Qed.

Lemma Z_of_byte_of_Z (z : Z) : Mem.Z_of_byte (Mem.byte_of_Z z) = z mod 256.
Proof.
  unfold Mem.Z_of_byte, Mem.byte_of_Z.
  pose proof (Z.mod_pos_bound z 256 ltac:(lia)) as Hr.
  destruct (Byte.of_N (Z.to_N (z mod 256))) as [b |] eqn:E.
  - apply Byte.to_of_N in E. rewrite E. lia.
  - apply Byte.of_N_None_iff in E. lia.
Qed.

Lemma get_range (m : list byte) (i : Z) : 0 <= Mem.get m i < 256.
Proof. unfold Mem.get. destruct (m !! Z.to_nat i); [apply Z_of_byte_range | lia]. Qed.

Lemma put_length (i v : Z) (m : list byte) : length (Mem.put i v m) = length m.
Proof. unfold Mem.put. apply length_insert. Qed.

Lemma get_put_eq (i v : Z) (m : list byte) :
  0 <= i < Z.of_nat (length m) -> Mem.get (Mem.put i v m) i = v mod 256.
Proof.
  intros Hi. unfold Mem.get, Mem.put.
  rewrite list_lookup_insert_eq by lia. apply Z_of_byte_of_Z.
Qed.

Lemma get_put_ne (i j v : Z) (m : list byte) :
  0 <= i -> 0 <= j -> i <> j -> Mem.get (Mem.put i v m) j = Mem.get m j.
Proof.
  intros Hi Hj Hne. unfold Mem.get, Mem.put.
  rewrite list_lookup_insert_ne by lia. reflexivity.
Qed.

Lemma in_range_iff (m : list byte) (o : Z) :
  Mem.in_range m o = true <-> 0 <= o /\ o + 4 <= Z.of_nat (length m).
Proof. unfold Mem.in_range. rewrite andb_true_iff, Z.leb_le, Z.leb_le. reflexivity. Qed.

Lemma readU32_some (m : list byte) (o : Z) :
  0 <= o -> o + 4 <= Z.of_nat (length m) -> Mem.readU32 m o = Some (word m o).
Proof.
  intros H0 H1. unfold word, Mem.readU32.
  replace (Mem.in_range m o) with true by (symmetry; apply in_range_iff; lia). reflexivity.
Qed.

Lemma readU32_none (m : list byte) (o : Z) :
  o < 0 \/ Z.of_nat (length m) < o + 4 -> Mem.readU32 m o = None.
Proof.
  intros H. unfold Mem.readU32.
  destruct (Mem.in_range m o) eqn:E; [| reflexivity]. apply in_range_iff in E. lia.
Qed.

Lemma word_range (m : list byte) (o : Z) : 0 <= word m o < 2 ^ 32.
Proof.
  unfold word, Mem.readU32. destruct (Mem.in_range m o); [| lia].
  pose proof (get_range m o). pose proof (get_range m (o + 1)).
  pose proof (get_range m (o + 2)). pose proof (get_range m (o + 3)). lia.
Qed.

Lemma write32_length (m m' : list byte) (o v : Z) :
  Mem.write32 m o v = Some m' -> length m' = length m.
Proof.
  unfold Mem.write32. destruct (Mem.in_range m o); [| discriminate].
  intros [= <-]. rewrite !put_length. reflexivity.
Qed.

Lemma write32_some (m : list byte) (o v : Z) :
  0 <= o -> o + 4 <= Z.of_nat (length m) -> exists m', Mem.write32 m o v = Some m'.
Proof.
  intros H0 H1. unfold Mem.write32.
  replace (Mem.in_range m o) with true by (symmetry; apply in_range_iff; lia). eauto.
Qed.

Lemma write32_none (m : list byte) (o v : Z) :
  o < 0 \/ Z.of_nat (length m) < o + 4 -> Mem.write32 m o v = None.
Proof.
  intros H. unfold Mem.write32.
  destruct (Mem.in_range m o) eqn:E; [| reflexivity]. apply in_range_iff in E. lia.
Qed.

Lemma bytes_of_word (v : Z) :
  0 <= v < 2 ^ 32 ->
  Z.shiftr v 24 mod 256 * 2 ^ 24 + Z.shiftr v 16 mod 256 * 2 ^ 16
  + Z.shiftr v 8 mod 256 * 2 ^ 8 + v mod 256 = v.
Proof.
  intros Hv. rewrite !Z.shiftr_div_pow2 by lia.
  change (2 ^ 24) with 16777216. change (2 ^ 16) with 65536. change (2 ^ 8) with 256.
  change (2 ^ 32) with 4294967296 in Hv.
  Z.div_mod_to_equations. lia.
Qed.

(** A stored word reads back, reduced to 32 bits. *)
Lemma word_write32_eq (m m' : list byte) (o v : Z) :
  Mem.write32 m o v = Some m' -> word m' o = JS.to_uint32 v.
Proof.
  intros H. pose proof (write32_length _ _ _ _ H) as Hl.
  unfold Mem.write32 in H. destruct (Mem.in_range m o) eqn:E; [| discriminate].
  apply in_range_iff in E. injection H as <-.
  unfold word, Mem.readU32.
  replace (Mem.in_range _ o) with true
    by (symmetry; apply in_range_iff; rewrite !put_length; lia).
  set (u := JS.to_uint32 v). pose proof (to_uint32_range v) as Hu. fold u in Hu.
  rewrite (get_put_ne (o + 3) o), (get_put_ne (o + 2) o), (get_put_ne (o + 1) o) by lia.
  rewrite (get_put_eq o) by lia.
  rewrite (get_put_ne (o + 3) (o + 1)), (get_put_ne (o + 2) (o + 1)) by lia.
  rewrite (get_put_eq (o + 1)) by (rewrite !put_length; lia).
  rewrite (get_put_ne (o + 3) (o + 2)) by lia.
  rewrite (get_put_eq (o + 2)) by (rewrite !put_length; lia).
  rewrite (get_put_eq (o + 3)) by (rewrite !put_length; lia).
  apply bytes_of_word. exact Hu.
Qed.

(** A store leaves the words that do not overlap it as they were. *)
Lemma word_write32_ne (m m' : list byte) (o o' v : Z) :
  Mem.write32 m o v = Some m' -> o' + 4 <= o \/ o + 4 <= o' -> word m' o' = word m o'.
Proof.
  intros H Hd. pose proof (write32_length _ _ _ _ H) as Hl.
  unfold Mem.write32 in H. destruct (Mem.in_range m o) eqn:E; [| discriminate].
  apply in_range_iff in E. injection H as <-.
  unfold word, Mem.readU32.
  assert (Er : Mem.in_range (Mem.put (o + 3) (JS.to_uint32 v)
             (Mem.put (o + 2) (Z.shiftr (JS.to_uint32 v) 8)
             (Mem.put (o + 1) (Z.shiftr (JS.to_uint32 v) 16)
             (Mem.put o (Z.shiftr (JS.to_uint32 v) 24) m)))) o' = Mem.in_range m o').
  { unfold Mem.in_range. rewrite !put_length. reflexivity. }
  rewrite Er. destruct (Mem.in_range m o') eqn:E'; [| reflexivity].
  apply in_range_iff in E'.
  rewrite !(get_put_ne (o + 3)), !(get_put_ne (o + 2)), !(get_put_ne (o + 1)), !(get_put_ne o) by lia.
  reflexivity.
Qed.

(** ** Stores and the lifted accessors *)

Lemma write32_store32 (m : list byte) (o v : Z) :
  0 <= o -> o + 4 <= Z.of_nat (length m) -> Mem.write32 m o v = Some (store32 m o v).
Proof.
  intros H0 H1. unfold store32.
  destruct (write32_some m o v H0 H1) as [m' ->]. reflexivity.
Qed.

Lemma store32_length (m : list byte) (o v : Z) : length (store32 m o v) = length m.
Proof.
  unfold store32. destruct (Mem.write32 m o v) eqn:E; [| reflexivity].
  eapply write32_length, E.
Qed.

Lemma word_store32_eq (m : list byte) (o v : Z) :
  0 <= o -> o + 4 <= Z.of_nat (length m) -> word (store32 m o v) o = JS.to_uint32 v.
Proof.
  intros H0 H1. apply word_write32_eq with m. apply write32_store32; assumption.
Qed.

Lemma word_store32_ne (m : list byte) (o o' v : Z) :
  o' + 4 <= o \/ o + 4 <= o' -> word (store32 m o v) o' = word m o'.
Proof.
  intros Hd. unfold store32. destruct (Mem.write32 m o v) eqn:E; [| reflexivity].
  eapply word_write32_ne; eassumption.
Qed.

Lemma mem_readU32_ok (r : Region) (o : Z) (w : World) :
  0 <= o -> o + 4 <= Z.of_nat (length (region r w)) ->
  mem_readU32 r o w = (Ok (word (region r w) o), w).
Proof.
  intros H0 H1. unfold mem_readU32, lift_read. rewrite readU32_some by assumption. reflexivity.
Qed.

Lemma mem_readS32_ok (r : Region) (o : Z) (w : World) :
  0 <= o -> o + 4 <= Z.of_nat (length (region r w)) ->
  mem_readS32 r o w = (Ok (JS.to_int32 (word (region r w) o)), w).
Proof.
  intros H0 H1. unfold mem_readS32, lift_read, Mem.readS32.
  rewrite readU32_some by assumption. reflexivity.
Qed.

Lemma mem_write32_ok (r : Region) (o v : Z) (w : World) :
  0 <= o -> o + 4 <= Z.of_nat (length (region r w)) ->
  mem_write32 r o v w = (Ok tt, set_region r (store32 (region r w) o v) w).
Proof.
  intros H0 H1. unfold mem_write32, lift_write. rewrite write32_store32 by assumption. reflexivity.
Qed.

Lemma mem_write32_fail (r : Region) (o v : Z) (w : World) :
  o < 0 \/ Z.of_nat (length (region r w)) < o + 4 ->
  mem_write32 r o v w = (Throw RangeError, w).
Proof.
  intros H. unfold mem_write32, lift_write. rewrite write32_none by assumption. reflexivity.
Qed.

Lemma mem_readS32_fail (r : Region) (o : Z) (w : World) :
  o < 0 \/ Z.of_nat (length (region r w)) < o + 4 ->
  mem_readS32 r o w = (Throw RangeError, w).
Proof.
  intros H. unfold mem_readS32, lift_read, Mem.readS32. rewrite readU32_none by assumption.
  reflexivity.
Qed.

Lemma mem_setBits32_ok (r : Region) (o bits : Z) (w : World) :
  0 <= o -> o + 4 <= Z.of_nat (length (region r w)) ->
  mem_setBits32 r o bits w
  = (Ok tt, set_region r (store32 (region r w) o (JS.or (word (region r w) o) bits)) w).
Proof.
  intros H0 H1. unfold mem_setBits32, lift_write, Mem.setBits32.
  rewrite readU32_some, write32_store32 by assumption. reflexivity.
Qed.

Lemma mem_clearBits32_ok (r : Region) (o bits : Z) (w : World) :
  0 <= o -> o + 4 <= Z.of_nat (length (region r w)) ->
  mem_clearBits32 r o bits w
  = (Ok tt, set_region r (store32 (region r w) o
                            (JS.and (word (region r w) o) (JS.not bits))) w).
Proof.
  intros H0 H1. unfold mem_clearBits32, lift_write, Mem.clearBits32.
  rewrite readU32_some, write32_store32 by assumption. reflexivity.
Qed.

(** Side conditions on offsets: unfold the register offsets and compare. *)
Ltac offsets :=
  cbn [region set_region set_vi_reg set_mi_reg set_vi set_cpu0 add_call add_log
       vi_reg mi_reg];
  unfold holds_registers,
    VI.VI_CONTROL_REG, VI.VI_DRAM_ADDR_REG, VI.VI_H_WIDTH_REG, VI.VI_V_INTR_REG,
    VI.VI_V_CURRENT_LINE_REG, VI.VI_TIMING_REG, VI.VI_V_SYNC_REG,
    MI.MI_MODE_REG, MI.MI_VERSION_REG, MI.MI_INTR_REG, MI.MI_INTR_MASK_REG in *;
  rewrite ?store32_length; lia.

Lemma calcEA_offset (b o : Z) : calcEA b (b + o) = o.
Proof. unfold calcEA. lia. Qed.

(** ** Arming the vertical-blank event *)

Lemma initInterrupt_spec (w : World) :
  0x1C <= Z.of_nat (length (vi_reg w)) ->
  VI.initInterrupt w = (Ok tt, armed w).
Proof.
  intros Hl. unfold VI.initInterrupt, armed, bind, Cpu0.hasVblEvent, gets.
  destruct (vblEvent (cpu0 w)) as [n |]; [reflexivity |].
  rewrite !mem_readU32_ok by offsets.
  cbn [region]. fold (interruptLine w). fold (syncValue w).
  destruct (syncValue w <=? interruptLine w); reflexivity.
Qed.

Lemma write32_V_SYNC (w : World) (V : Z) :
  0x1C <= Z.of_nat (length (vi_reg w)) ->
  VI.write32 (vi_rangeStart (vi w) + VI.VI_V_SYNC_REG) V w =
    (Ok tt, if syncValue w =? V then w else armed (retimed w V)).
Proof.
  intros Hl. unfold VI.write32, bind at 1, gets at 1. rewrite calcEA_offset.
  unfold bind at 1, u8_length, gets at 1. cbn [region].
  replace (Z.of_nat (length (vi_reg w)) <? VI.VI_V_SYNC_REG + 4) with false
    by (symmetry; apply Z.ltb_ge; offsets).
  change (VI.VI_V_SYNC_REG =? VI.VI_DRAM_ADDR_REG) with false.
  change (VI.VI_V_SYNC_REG =? VI.VI_CONTROL_REG) with false.
  change (VI.VI_V_SYNC_REG =? VI.VI_H_WIDTH_REG) with false.
  change (VI.VI_V_SYNC_REG =? VI.VI_V_INTR_REG) with false.
  change (VI.VI_V_SYNC_REG =? VI.VI_V_CURRENT_LINE_REG) with false.
  change (VI.VI_V_SYNC_REG =? VI.VI_V_SYNC_REG) with true.
  cbv iota.
  unfold bind at 1. rewrite mem_readU32_ok by offsets.
  cbn [region]. fold (syncValue w).
  destruct (syncValue w =? V); cbn [negb]; [reflexivity |].
  unfold bind at 1, modify at 1. unfold bind at 1, log, modify at 1.
  unfold bind at 1. rewrite mem_write32_ok by offsets.
  apply initInterrupt_spec. cbn. rewrite store32_length. exact Hl.
Qed.

(** ** The retiming arithmetic *)

(** The binary64 operations are symmetric in the sign. *)
Lemma binary_round_aux_negb (s : bool) (m e : Z) (l : location) :
  binary_round_aux JS.prec JS.emax (negb s) m e l
  = SFopp (binary_round_aux JS.prec JS.emax s m e l).
Proof.
  unfold binary_round_aux.
  destruct (shr_fexp JS.prec JS.emax m e l) as [mrs e'].
  destruct (shr_fexp JS.prec JS.emax _ e' loc_Exact) as [mrs' e''].
  destruct (shr_m mrs'); [reflexivity | | reflexivity].
  destruct (e'' <=? JS.emax - JS.prec); reflexivity.
Qed.

Lemma of_Z_opp (a : Z) : 0 < a -> JS.of_Z (- a) = SFopp (JS.of_Z a).
Proof.
  intros Ha. destruct a as [| p | p]; try lia.
  unfold JS.of_Z, binary_normalize, binary_round.
  change (- Z.pos p) with (Z.neg p). cbv iota.
  destruct (shl_align p 0 _) as [mz ez].
  apply (binary_round_aux_negb false).
Qed.

Lemma div_opp_r (x y : JS.number) : JS.div x (SFopp y) = SFopp (JS.div x y).
Proof.
  unfold JS.div.
  destruct x as [sx | sx | | sx mx ex], y as [sy | sy | | sy my ey];
    cbn [SFdiv SFopp]; rewrite <- ?negb_xorb_r; try reflexivity.
  destruct (SFdiv_core_binary JS.prec JS.emax (Zpos mx) ex (Zpos my) ey) as [[mz ez] lz].
  apply binary_round_aux_negb.
Qed.

Lemma mul_opp_opp (x y : JS.number) : JS.mul (SFopp x) (SFopp y) = JS.mul x y.
Proof.
  unfold JS.mul.
  destruct x as [sx | sx | | sx mx ex], y as [sy | sy | | sy my ey];
    cbn [SFmul SFopp]; rewrite ?xorb_negb_negb; reflexivity.
Qed.

Lemma trunc_opp (x : JS.number) : JS.trunc (SFopp x) = - JS.trunc x.
Proof.
  destruct x as [s | s | | s m e]; cbn [SFopp JS.trunc]; try reflexivity.
  destruct s; cbn [negb cond_Zopp]; lia.
Qed.

Lemma ToInt32_opp (x : JS.number) :
  0 <= JS.trunc x < 2 ^ 31 -> JS.ToInt32 (SFopp x) = - JS.ToInt32 x.
Proof.
  intros H. unfold JS.ToInt32. rewrite trunc_opp.
  rewrite !to_int32_small by lia. reflexivity.
Qed.

(** Truncating [(c / r) / s]: when the binary64 quotient [c / r] has
    exponent -33 and lies between the integer [c / r] and its successor by
    a margin, the computed result is the floor of the exact quotient. *)
Lemma trunc_quotient (c r s : Z) (mx : positive) :
  JS.div (JS.of_Z c) (JS.of_Z r) = S754_finite false mx (-33) ->
  Zdigits2 (Zpos mx) = JS.prec ->
  0 < r -> 0 <= c / r < 2 ^ 31 ->
  (c / r) * 2 ^ 33 <= Zpos mx -> Zpos mx + 2 < (c / r + 1) * 2 ^ 33 ->
  0 < s < 2 ^ 53 ->
  JS.trunc (JS.div (JS.div (JS.of_Z c) (JS.of_Z r)) (JS.of_Z s)) = c / (r * s).
Proof.
  intros Hx Hd Hr Hn Hlo Hhi Hs. rewrite Hx.
  rewrite <- Z.div_div by lia.
  set (n := c / r) in *. set (K := n / s).
  assert (HK0 : 0 <= K) by (apply Z.div_pos; lia).
  assert (HKs : s * K <= n) by (apply Z.mul_div_le; lia).
  assert (HKn : n < s * Z.succ K) by (apply Z.mul_succ_div_gt; lia).
  apply (trunc_div_of_Z mx (-33) s K);
    first [assumption | lia | change (- -33) with 33; nia].
Qed.

Lemma scanline_trunc (d : VIRegDevice) (tv : TvType) (s : Z) :
  clock d = VI.videoClockForTVType tv -> refreshRate d = VI.refreshRateForTVType tv ->
  0 < s < 2 ^ 53 ->
  JS.trunc (JS.div (JS.div (JS.of_Z (clock d)) (JS.of_Z (refreshRate d))) (JS.of_Z s))
  = clock d / (refreshRate d * s).
Proof.
  intros Hc Hr Hs. rewrite Hc, Hr.
  destruct tv; cbn [VI.videoClockForTVType VI.refreshRateForTVType];
    unfold VI.VI_PAL_CLOCK, VI.VI_NTSC_CLOCK, VI.VI_MPAL_CLOCK.
  - apply trunc_quotient with (mx := 8530926895313715%positive);
      [vm_compute; reflexivity | reflexivity | lia | vm_compute; split; [discriminate | reflexivity]
      | vm_compute; discriminate | vm_compute; reflexivity | exact Hs].
  - apply trunc_quotient with (mx := 6969559681667345%positive);
      [vm_compute; reflexivity | reflexivity | lia | vm_compute; split; [discriminate | reflexivity]
      | vm_compute; discriminate | vm_compute; reflexivity | exact Hs].
  - apply trunc_quotient with (mx := 6961900895985118%positive);
      [vm_compute; reflexivity | reflexivity | lia | vm_compute; split; [discriminate | reflexivity]
      | vm_compute; discriminate | vm_compute; reflexivity | exact Hs].
  - apply trunc_quotient with (mx := 6969559681667345%positive);
      [vm_compute; reflexivity | reflexivity | lia | vm_compute; split; [discriminate | reflexivity]
      | vm_compute; discriminate | vm_compute; reflexivity | exact Hs].
Qed.

Lemma quot_zero (a : Z) : Z.quot a 0 = 0.
Proof. destruct a; reflexivity. Qed.

(** The clock and refresh rate of a television standard, in numbers. *)
Lemma standard_range (d : VIRegDevice) (tv : TvType) :
  clock d = VI.videoClockForTVType tv -> refreshRate d = VI.refreshRateForTVType tv ->
  0 < refreshRate d /\ 0 < clock d /\ 0 <= clock d / refreshRate d < 2 ^ 20.
Proof. intros -> ->. destruct tv; vm_compute; repeat split; discriminate. Qed.

Lemma quotient_range (c r s : Z) :
  0 < r -> 0 <= c / r < 2 ^ 20 -> 0 < s ->
  0 <= c / (r * s) /\ s * (c / (r * s)) <= c / r /\ c / r < s * (c / (r * s)) + s.
Proof.
  intros Hr Hn Hs. rewrite <- Z.div_div by lia.
  pose proof (Z.mul_div_le (c / r) s Hs). pose proof (Z.mul_succ_div_gt (c / r) s Hs).
  split; [apply Z.div_pos; lia | lia].
Qed.

(** For a positive number of scanlines the count is the floor. *)
Lemma perScanlineOf_pos (d : VIRegDevice) (tv : TvType) (V : Z) :
  clock d = VI.videoClockForTVType tv -> refreshRate d = VI.refreshRateForTVType tv ->
  0 < V + 1 < 2 ^ 53 ->
  perScanlineOf d V = clock d / (refreshRate d * (V + 1)).
Proof.
  intros Hc Hr HV. unfold perScanlineOf, JS.ToInt32.
  rewrite (scanline_trunc d tv (V + 1) Hc Hr HV).
  destruct (standard_range d tv Hc Hr) as (Hr0 & Hc0 & Hn).
  destruct (quotient_range (clock d) (refreshRate d) (V + 1) Hr0 Hn) as (Q0 & Q1 & _); [lia |].
  apply to_int32_small. nia.
Qed.

(** For a negative number of scanlines the count is the negated count of
    its absolute value. *)
Lemma perScanlineOf_neg (d : VIRegDevice) (tv : TvType) (V : Z) :
  clock d = VI.videoClockForTVType tv -> refreshRate d = VI.refreshRateForTVType tv ->
  - 2 ^ 53 < V + 1 < 0 ->
  perScanlineOf d V = - (clock d / (refreshRate d * (- (V + 1)))).
Proof.
  intros Hc Hr HV. unfold perScanlineOf.
  replace (V + 1) with (- (- (V + 1))) at 1 by lia.
  rewrite of_Z_opp, div_opp_r by lia.
  pose proof (scanline_trunc d tv (- (V + 1)) Hc Hr ltac:(lia)) as Ht.
  destruct (standard_range d tv Hc Hr) as (Hr0 & Hc0 & Hn).
  destruct (quotient_range (clock d) (refreshRate d) (- (V + 1)) Hr0 Hn) as (Q0 & Q1 & _);
    [lia |].
  assert (Hq : 0 <= clock d / (refreshRate d * - (V + 1)) < 2 ^ 20) by nia.
  rewrite ToInt32_opp by (rewrite Ht; lia).
  unfold JS.ToInt32. rewrite Ht. rewrite to_int32_small by lia. reflexivity.
Qed.

(** The cycles per scanline for every integer value: the quotient
    truncated towards zero, and 0 for no scanline at all. *)
Lemma perScanlineOf_quot (d : VIRegDevice) (tv : TvType) (V : Z) :
  clock d = VI.videoClockForTVType tv -> refreshRate d = VI.refreshRateForTVType tv ->
  - 2 ^ 53 < V + 1 < 2 ^ 53 ->
  perScanlineOf d V = Z.quot (clock d) (refreshRate d * (V + 1)).
Proof.
  intros Hc Hr HV.
  destruct (standard_range d tv Hc Hr) as (Hr0 & Hc0 & Hn).
  destruct (Z.lt_trichotomy (V + 1) 0) as [Hneg | [Hz | Hpos]].
  - rewrite (perScanlineOf_neg d tv V Hc Hr) by lia.
    replace (refreshRate d * (V + 1)) with (- (refreshRate d * - (V + 1))) by lia.
    rewrite Z.quot_opp_r by nia. rewrite Z.quot_div_nonneg by nia. reflexivity.
  - unfold perScanlineOf. rewrite Hz, Z.mul_0_r, quot_zero.
    destruct (JS.div (JS.of_Z (clock d)) (JS.of_Z (refreshRate d))); reflexivity.
  - rewrite (perScanlineOf_pos d tv V Hc Hr) by lia.
    rewrite Z.quot_div_nonneg by nia. reflexivity.
Qed.


(** The cycles per vertical blank: the exact product, with the sign of a
    zero as binary64 has it. *)
Lemma perVblOf_signed (d : VIRegDevice) (tv : TvType) (V : Z) :
  clock d = VI.videoClockForTVType tv -> refreshRate d = VI.refreshRateForTVType tv ->
  - 2 ^ 53 < V + 1 < 2 ^ 53 ->
  0 <= (V + 1) * perScanlineOf d V < 2 ^ 20 /\
  perVblOf d V
  = (if (V + 1 <? 0) && (perScanlineOf d V =? 0)
     then S754_zero true
     else JS.of_Z ((V + 1) * perScanlineOf d V)) /\
  JS.trunc (perVblOf d V) = (V + 1) * perScanlineOf d V.
Proof.
  intros Hc Hr HV.
  destruct (standard_range d tv Hc Hr) as (Hr0 & Hc0 & Hn).
  destruct (Z.lt_trichotomy (V + 1) 0) as [Hneg | [Hz | Hpos]].
  - pose proof (perScanlineOf_neg d tv V Hc Hr ltac:(lia)) as Hs.
    replace (V + 1 <? 0) with true by (symmetry; apply Z.ltb_lt; lia). cbn [andb].
    unfold perVblOf. rewrite Hs. clear Hs.
    assert (E : V + 1 = - (- (V + 1))) by lia.
    set (s := - (V + 1)) in *. assert (Hs : 0 < s < 2 ^ 53) by lia. rewrite E. clear E.
    destruct (quotient_range (clock d) (refreshRate d) s Hr0 Hn) as (Q0 & Q1 & _); [lia |].
    set (K := clock d / (refreshRate d * s)) in *.
    replace (- s * - K) with (s * K) by ring.
    rewrite (of_Z_opp s) by lia.
    split; [nia |].
    destruct (Z.eqb_spec (- K) 0) as [E | E].
    + assert (K0 : K = 0) by lia. rewrite K0.
      rewrite (of_Z_pos s) by lia. rewrite Z.mul_0_r. split; reflexivity.
    + rewrite (of_Z_opp K) by lia. rewrite mul_opp_opp.
      rewrite mul_of_Z by (first [lia | nia]).
      split; [reflexivity |]. apply trunc_of_Z. nia.
  - unfold perVblOf. rewrite Hz. rewrite !Z.mul_0_l. cbn [Z.ltb Z.compare andb].
    assert (E : perScanlineOf d V = 0).
    { rewrite (perScanlineOf_quot d tv V Hc Hr HV), Hz, Z.mul_0_r. apply quot_zero. }
    rewrite E. split; [lia |]. split; reflexivity.
  - replace (V + 1 <? 0) with false by (symmetry; apply Z.ltb_ge; lia). cbn [andb].
    unfold perVblOf. rewrite (perScanlineOf_pos d tv V Hc Hr) by lia.
    destruct (quotient_range (clock d) (refreshRate d) (V + 1) Hr0 Hn) as (Q0 & Q1 & _);
      [lia |].
    set (K := clock d / (refreshRate d * (V + 1))) in *.
    rewrite mul_of_Z by (first [lia | nia]).
    split; [nia |]. split; [reflexivity |]. apply trunc_of_Z. nia.
Qed.

(** ** The arm decision and the retiming leave the rest alone *)

Lemma armed_frame (w : World) :
  vi_reg (armed w) = vi_reg w /\ mi_reg (armed w) = mi_reg w /\
  vi (armed w) = vi w /\ mi (armed w) = mi w /\ tvType (armed w) = tvType w.
Proof.
  unfold armed. destruct (vblEvent (cpu0 w)); [tauto |].
  destruct (syncValue w <=? interruptLine w); cbn; tauto.
Qed.

Lemma armed_decision (w : World) :
  match vblEvent (cpu0 w) with
  | Some _ => nothing_scheduled w (armed w)
  | None =>
      if interruptLine w <? syncValue w
      then scheduled w (armed w) (countPerVbl (vi w))
      else nothing_scheduled w (armed w)
  end.
Proof.
  unfold armed, scheduled, nothing_scheduled.
  destruct (vblEvent (cpu0 w)); [tauto |].
  rewrite (Z.ltb_antisym (syncValue w) (interruptLine w)).
  destruct (syncValue w <=? interruptLine w); cbn; tauto.
Qed.

Lemma syncValue_armed (w : World) : syncValue (armed w) = syncValue w.
Proof. unfold syncValue. destruct (armed_frame w) as (-> & _). reflexivity. Qed.

Lemma interruptLine_armed (w : World) : interruptLine (armed w) = interruptLine w.
Proof. unfold interruptLine. destruct (armed_frame w) as (-> & _). reflexivity. Qed.

Lemma syncValue_retimed (w : World) (V : Z) :
  0x1C <= Z.of_nat (length (vi_reg w)) -> syncValue (retimed w V) = JS.to_uint32 V.
Proof. intros Hl. unfold syncValue, retimed. cbn. apply word_store32_eq; offsets. Qed.

Lemma interruptLine_retimed (w : World) (V : Z) :
  interruptLine (retimed w V) = interruptLine w.
Proof. unfold interruptLine, retimed. cbn. apply word_store32_ne. offsets. Qed.








(** C3, as the code has it.  With the NTSC clock 48681812, 60 Hz and
    [V = 524] (525 scanlines), the write computes
    [countPerScanline = floor (48681812 / 60 / 525) = 1545] and
    [countPerVbl = 525 * 1545]. *)
Theorem ntsc_525_scanlines (w : World) :
  holds_registers w ->
  clock (vi w) = VI.VI_NTSC_CLOCK -> refreshRate (vi w) = 60 -> syncValue w <> 524 ->
  exists w',
    VI.write32 (vi_rangeStart (vi w) + VI.VI_V_SYNC_REG) 524 w = (Ok tt, w') /\
    countPerScanline (vi w') = 48681812 / 60 / 525 /\
    countPerScanline (vi w') = 1545 /\
    countPerVbl (vi w') = JS.of_Z (525 * 1545) /\
    JS.trunc (countPerVbl (vi w')) = 525 * 1545.
Proof.
  intros [Hvi Hmi] Hc Hr Hne. rewrite write32_V_SYNC by lia.
  destruct (Z.eqb_spec (syncValue w) 524) as [E | _]; [congruence |].
  exists (armed (retimed w 524)). split; [reflexivity |].
  destruct (armed_frame (retimed w 524)) as (_ & _ & -> & _).
  cbn [retimed vi set_vi_reg add_log set_vi set_counts countPerScanline countPerVbl].
  unfold perVblOf, perScanlineOf. rewrite Hc, Hr.
  vm_compute. repeat split; reflexivity.
Qed.

Lemma ntsc_525_scanlines_witness :
  holds_registers (power_on OS_TV_NTSC) /\
  clock (vi (power_on OS_TV_NTSC)) = VI.VI_NTSC_CLOCK /\
  refreshRate (vi (power_on OS_TV_NTSC)) = 60 /\
  syncValue (power_on OS_TV_NTSC) <> 524 /\
  exists w',
    VI.write32 (vi_rangeStart (vi (power_on OS_TV_NTSC)) + VI.VI_V_SYNC_REG) 524
      (power_on OS_TV_NTSC) = (Ok tt, w') /\
    countPerScanline (vi w') = 48681812 / 60 / 525 /\
    countPerScanline (vi w') = 1545 /\
    countPerVbl (vi w') = JS.of_Z (525 * 1545) /\
    JS.trunc (countPerVbl (vi w')) = 525 * 1545.
Proof.
  assert (H1 : holds_registers (power_on OS_TV_NTSC))
    by (unfold holds_registers; vm_compute; split; discriminate).
  assert (H2 : clock (vi (power_on OS_TV_NTSC)) = VI.VI_NTSC_CLOCK) by (vm_compute; reflexivity).
  assert (H3 : refreshRate (vi (power_on OS_TV_NTSC)) = 60) by (vm_compute; reflexivity).
  assert (H4 : syncValue (power_on OS_TV_NTSC) <> 524) by (vm_compute; discriminate).
  split; [exact H1 |]. split; [exact H2 |]. split; [exact H3 |]. split; [exact H4 |].
  exact (ntsc_525_scanlines (power_on OS_TV_NTSC) H1 H2 H3 H4).
Defined.

(** C3: at these inputs the write computes 1545 cycles per scanline and
    525 * 1545 cycles per vertical blank, not 1546 and 525 * 1546. *)
Lemma ntsc_525_scanlines_not_1546 :
  clock (vi (power_on OS_TV_NTSC)) = 48681812 /\
  refreshRate (vi (power_on OS_TV_NTSC)) = 60 /\
  exists w',
    VI.write32 (0x04400000 + VI.VI_V_SYNC_REG) 524 (power_on OS_TV_NTSC) = (Ok tt, w') /\
    countPerScanline (vi w') = 1545 /\
    countPerScanline (vi w') <> 1546 /\
    countPerVbl (vi w') <> JS.of_Z (525 * 1546).
Proof.
  split; [vm_compute; reflexivity |]. split; [vm_compute; reflexivity |].
  eexists. split; [vm_compute; reflexivity |].
  vm_compute. repeat split; discriminate.
Qed.

(** ** The vertical-interrupt-line register *)

Lemma unless_quiet_spec (quiet : bool) (l : LogMsg) (w : World) :
  unless_quiet quiet l w = (Ok tt, quietly quiet l w).
Proof. unfold unless_quiet, quietly. destruct quiet; reflexivity. Qed.

Lemma quietly_frame (quiet : bool) (l : LogMsg) (w : World) :
  vi_reg (quietly quiet l w) = vi_reg w /\ mi_reg (quietly quiet l w) = mi_reg w /\
  vi (quietly quiet l w) = vi w /\ mi (quietly quiet l w) = mi w /\
  cpu0 (quietly quiet l w) = cpu0 w /\ calls (quietly quiet l w) = calls w /\
  tvType (quietly quiet l w) = tvType w.
Proof. unfold quietly. destruct quiet; cbn; tauto. Qed.

Lemma write32_V_INTR (w : World) (value : Z) :
  0x1C <= Z.of_nat (length (vi_reg w)) ->
  VI.write32 (vi_rangeStart (vi w) + VI.VI_V_INTR_REG) value w =
    (Ok tt, armed (set_vi_reg (store32 (vi_reg w) VI.VI_V_INTR_REG value)
                     (quietly (vi_quiet (vi w)) (LogViIntr value) w))).
Proof.
  intros Hl. unfold VI.write32, bind at 1, gets at 1. rewrite calcEA_offset.
  unfold bind at 1, u8_length, gets at 1. cbn [region].
  replace (Z.of_nat (length (vi_reg w)) <? VI.VI_V_INTR_REG + 4) with false
    by (symmetry; apply Z.ltb_ge; offsets).
  change (VI.VI_V_INTR_REG =? VI.VI_DRAM_ADDR_REG) with false.
  change (VI.VI_V_INTR_REG =? VI.VI_CONTROL_REG) with false.
  change (VI.VI_V_INTR_REG =? VI.VI_H_WIDTH_REG) with false.
  change (VI.VI_V_INTR_REG =? VI.VI_V_INTR_REG) with true.
  cbv iota.
  destruct (quietly_frame (vi_quiet (vi w)) (LogViIntr value) w) as (Hq & _).
  unfold bind at 1. rewrite unless_quiet_spec.
  unfold bind at 1. rewrite mem_write32_ok by (cbn [region]; rewrite ?Hq; offsets).
  cbn [region set_region]. rewrite Hq.
  apply initInterrupt_spec. cbn. rewrite store32_length. exact Hl.
Qed.

(** C4. After a write to the vertical-interrupt-line register, and after a
    write of a changed value to the vertical-sync register, the controller
    arms the vertical-blank event: with an event already queued nothing is
    scheduled; otherwise a callback after [countPerVbl] cycles is scheduled
    if and only if the stored interrupt line is strictly below the stored
    sync value. *)
Theorem arm_vertical_blank_decision (w : World) (value : Z) :
  holds_registers w ->
  (exists w',
     VI.write32 (vi_rangeStart (vi w) + VI.VI_V_INTR_REG) value w = (Ok tt, w') /\
     interruptLine w' = JS.to_uint32 value /\ syncValue w' = syncValue w /\
     countPerVbl (vi w') = countPerVbl (vi w) /\
     match vblEvent (cpu0 w) with
     | Some _ => nothing_scheduled w w'
     | None =>
         if interruptLine w' <? syncValue w'
         then scheduled w w' (countPerVbl (vi w'))
         else nothing_scheduled w w'
     end) /\
  (exists w',
     VI.write32 (vi_rangeStart (vi w) + VI.VI_V_SYNC_REG) value w = (Ok tt, w') /\
     if syncValue w =? value then w' = w
     else
       interruptLine w' = interruptLine w /\ syncValue w' = JS.to_uint32 value /\
       match vblEvent (cpu0 w) with
       | Some _ => nothing_scheduled w w'
       | None =>
           if interruptLine w' <? syncValue w'
           then scheduled w w' (countPerVbl (vi w'))
           else nothing_scheduled w w'
       end).
Proof.
  intros [Hvi Hmi]. split.
  - rewrite write32_V_INTR by lia.
    set (w0 := set_vi_reg (store32 (vi_reg w) VI.VI_V_INTR_REG value)
                 (quietly (vi_quiet (vi w)) (LogViIntr value) w)).
    destruct (quietly_frame (vi_quiet (vi w)) (LogViIntr value) w)
      as (Hq1 & Hq2 & Hq3 & Hq4 & Hq5 & Hq6 & Hq7).
    assert (Hline : interruptLine w0 = JS.to_uint32 value).
    { unfold interruptLine, w0. cbn [vi_reg set_vi_reg]. apply word_store32_eq; offsets. }
    assert (Hsync : syncValue w0 = syncValue w).
    { unfold syncValue, w0. cbn [vi_reg set_vi_reg]. apply word_store32_ne. offsets. }
    assert (Hvi0 : vi w0 = vi w) by (unfold w0; cbn [vi set_vi_reg]; exact Hq3).
    assert (Hcpu : cpu0 w0 = cpu0 w) by (unfold w0; cbn [cpu0 set_vi_reg]; exact Hq5).
    assert (Hcalls : calls w0 = calls w) by (unfold w0; cbn [calls set_vi_reg]; exact Hq6).
    exists (armed w0). split; [reflexivity |].
    rewrite interruptLine_armed, syncValue_armed.
    destruct (armed_frame w0) as (_ & _ & Hv & _). rewrite Hv, Hvi0.
    split; [exact Hline |]. split; [exact Hsync |]. split; [reflexivity |].
    pose proof (armed_decision w0) as Hd.
    unfold scheduled, nothing_scheduled in *.
    rewrite Hcpu, Hcalls, Hvi0 in Hd. exact Hd.
  - rewrite write32_V_SYNC by lia.
    exists (if syncValue w =? value then w else armed (retimed w value)).
    split; [reflexivity |].
    destruct (syncValue w =? value); [reflexivity |].
    rewrite interruptLine_armed, syncValue_armed, interruptLine_retimed,
      syncValue_retimed by lia.
    split; [reflexivity |]. split; [reflexivity |].
    pose proof (armed_decision (retimed w value)) as Hd.
    rewrite interruptLine_retimed, syncValue_retimed in Hd by lia.
    destruct (armed_frame (retimed w value)) as (_ & _ & Hv & _). rewrite Hv.
    exact Hd.
Qed.

Lemma arm_vertical_blank_decision_witness :
  holds_registers (power_on OS_TV_NTSC) /\
  (exists w',
     VI.write32 (vi_rangeStart (vi (power_on OS_TV_NTSC)) + VI.VI_V_SYNC_REG) 524
       (power_on OS_TV_NTSC) = (Ok tt, w') /\
     if syncValue (power_on OS_TV_NTSC) =? 524 then w' = power_on OS_TV_NTSC
     else
       interruptLine w' = interruptLine (power_on OS_TV_NTSC) /\
       syncValue w' = JS.to_uint32 524 /\
       match vblEvent (cpu0 (power_on OS_TV_NTSC)) with
       | Some _ => nothing_scheduled (power_on OS_TV_NTSC) w'
       | None =>
           if interruptLine w' <? syncValue w'
           then scheduled (power_on OS_TV_NTSC) w' (countPerVbl (vi w'))
           else nothing_scheduled (power_on OS_TV_NTSC) w'
       end).
Proof.
  assert (H : holds_registers (power_on OS_TV_NTSC))
    by (unfold holds_registers; vm_compute; split; discriminate).
  split; [exact H |].
  exact (proj2 (arm_vertical_blank_decision (power_on OS_TV_NTSC) 524 H)).
Defined.

(** ** Bits *)

Lemma bits_above (z n i : Z) : 0 <= z < 2 ^ n -> 0 <= n <= i -> Z.testbit z i = false.
Proof.
  intros Hz Hi. rewrite <- (Z.mod_small z (2 ^ n)) by exact Hz.
  apply Z.mod_pow2_bits_high. lia.
Qed.

Lemma has_pow2 (x k : Z) : 0 <= k -> has x (2 ^ k) = Z.testbit x k.
Proof.
  intros Hk. unfold has.
  assert (E : Z.land x (2 ^ k) = if Z.testbit x k then 2 ^ k else 0).
  { apply Z.bits_inj'. intros i Hi. rewrite Z.land_spec, Z.pow2_bits_eqb by lia.
    destruct (Z.eqb_spec k i) as [<- | Hne].
    - rewrite andb_true_r. destruct (Z.testbit x k) eqn:E; [| rewrite Z.bits_0; reflexivity].
      rewrite Z.pow2_bits_true by lia. reflexivity.
    - rewrite andb_false_r. destruct (Z.testbit x k); [| rewrite Z.bits_0; reflexivity].
      rewrite Z.pow2_bits_false by lia. reflexivity. }
  rewrite E. destruct (Z.testbit x k); [| reflexivity].
  pose proof (Z.pow_pos_nonneg 2 k). destruct (Z.eqb_spec (2 ^ k) 0); [lia | reflexivity].
Qed.

Lemma gather_bits (acc value k n i : Z) :
  0 <= n <= k -> k < 31 -> 0 <= i ->
  (forall j, 31 <= j -> Z.testbit acc j = false) ->
  Z.testbit (MI.gather acc value (2 ^ k) n) i
  = Z.testbit acc i || (Z.testbit value k && (i =? k - n)).
Proof.
  intros Hn Hk Hi Hacc. unfold MI.gather.
  rewrite or_bits, ushr_bits by lia. rewrite (Z.mod_small n 32) by lia.
  rewrite and_bits, Z.pow2_bits_eqb by lia.
  destruct (Z.eqb_spec i (k - n)) as [-> | Hne].
  - rewrite !Z.min_l by lia. replace (k - n + n) with k by lia.
    rewrite Z.eqb_refl.
    replace (k <? 32) with true by (symmetry; apply Z.ltb_lt; lia).
    rewrite !andb_true_r. reflexivity.
  - rewrite andb_false_r, orb_false_r.
    replace (k =? Z.min (Z.min i 31 + n) 31) with false by (symmetry; apply Z.eqb_neq; lia).
    rewrite andb_false_r, andb_false_l, orb_false_r.
    destruct (Z_le_gt_dec i 31).
    + rewrite Z.min_l by lia. reflexivity.
    + rewrite Z.min_r by lia. rewrite !Hacc by lia. reflexivity.
Qed.

Lemma gather_high (acc value k n : Z) :
  0 <= n <= k -> k - n < 31 -> k < 31 ->
  (forall j, 31 <= j -> Z.testbit acc j = false) ->
  forall j, 31 <= j -> Z.testbit (MI.gather acc value (2 ^ k) n) j = false.
Proof.
  intros Hn Hkn Hk Hacc j Hj. rewrite gather_bits by (try assumption; lia).
  rewrite Hacc by assumption.
  replace (j =? k - n) with false by (symmetry; apply Z.eqb_neq; lia).
  rewrite andb_false_r. reflexivity.
Qed.

Lemma clr_bits_spec (value i : Z) :
  0 <= i -> Z.testbit (MI.clr_bits value) i = (i <? 6) && Z.testbit value (2 * i).
Proof.
  intros Hi. unfold MI.clr_bits.
  change MI.MI_INTR_MASK_CLR_SP with (2 ^ 0). change MI.MI_INTR_MASK_CLR_SI with (2 ^ 2).
  change MI.MI_INTR_MASK_CLR_AI with (2 ^ 4). change MI.MI_INTR_MASK_CLR_VI with (2 ^ 6).
  change MI.MI_INTR_MASK_CLR_PI with (2 ^ 8). change MI.MI_INTR_MASK_CLR_DP with (2 ^ 10).
  assert (H0 : forall j, 31 <= j -> Z.testbit 0 j = false) by (intros; apply Z.bits_0).
  pose proof (gather_high 0 value 0 0 ltac:(lia) ltac:(lia) ltac:(lia) H0) as H1.
  pose proof (gather_high _ value 2 1 ltac:(lia) ltac:(lia) ltac:(lia) H1) as H2.
  pose proof (gather_high _ value 4 2 ltac:(lia) ltac:(lia) ltac:(lia) H2) as H3.
  pose proof (gather_high _ value 6 3 ltac:(lia) ltac:(lia) ltac:(lia) H3) as H4.
  pose proof (gather_high _ value 8 4 ltac:(lia) ltac:(lia) ltac:(lia) H4) as H5.
  rewrite gather_bits by (try assumption; lia).
  rewrite gather_bits by (try assumption; lia).
  rewrite gather_bits by (try assumption; lia).
  rewrite gather_bits by (try assumption; lia).
  rewrite gather_bits by (try assumption; lia).
  rewrite gather_bits by (try assumption; lia).
  rewrite Z.bits_0. cbn [orb].
  destruct (Z.ltb_spec i 6).
  - assert (Hc : i = 0 \/ i = 1 \/ i = 2 \/ i = 3 \/ i = 4 \/ i = 5) by lia.
    destruct Hc as [-> | [-> | [-> | [-> | [-> | ->]]]]]; cbn;
      rewrite ?andb_false_r, ?andb_true_r, ?orb_false_r; reflexivity.
  - repeat match goal with
           | |- context [i =? ?c] =>
               replace (i =? c) with false by (symmetry; apply Z.eqb_neq; lia)
           end.
    rewrite !andb_false_r. reflexivity.
Qed.

Lemma set_bits_spec (value i : Z) :
  0 <= i -> Z.testbit (MI.set_bits value) i = (i <? 6) && Z.testbit value (2 * i + 1).
Proof.
  intros Hi. unfold MI.set_bits.
  change MI.MI_INTR_MASK_SET_SP with (2 ^ 1). change MI.MI_INTR_MASK_SET_SI with (2 ^ 3).
  change MI.MI_INTR_MASK_SET_AI with (2 ^ 5). change MI.MI_INTR_MASK_SET_VI with (2 ^ 7).
  change MI.MI_INTR_MASK_SET_PI with (2 ^ 9). change MI.MI_INTR_MASK_SET_DP with (2 ^ 11).
  assert (H0 : forall j, 31 <= j -> Z.testbit 0 j = false) by (intros; apply Z.bits_0).
  pose proof (gather_high 0 value 1 1 ltac:(lia) ltac:(lia) ltac:(lia) H0) as H1.
  pose proof (gather_high _ value 3 2 ltac:(lia) ltac:(lia) ltac:(lia) H1) as H2.
  pose proof (gather_high _ value 5 3 ltac:(lia) ltac:(lia) ltac:(lia) H2) as H3.
  pose proof (gather_high _ value 7 4 ltac:(lia) ltac:(lia) ltac:(lia) H3) as H4.
  pose proof (gather_high _ value 9 5 ltac:(lia) ltac:(lia) ltac:(lia) H4) as H5.
  rewrite gather_bits by (try assumption; lia).
  rewrite gather_bits by (try assumption; lia).
  rewrite gather_bits by (try assumption; lia).
  rewrite gather_bits by (try assumption; lia).
  rewrite gather_bits by (try assumption; lia).
  rewrite gather_bits by (try assumption; lia).
  rewrite Z.bits_0. cbn [orb].
  destruct (Z.ltb_spec i 6).
  - assert (Hc : i = 0 \/ i = 1 \/ i = 2 \/ i = 3 \/ i = 4 \/ i = 5) by lia.
    destruct Hc as [-> | [-> | [-> | [-> | [-> | ->]]]]]; cbn;
      rewrite ?andb_false_r, ?andb_true_r, ?orb_false_r; reflexivity.
  - repeat match goal with
           | |- context [i =? ?c] =>
               replace (i =? c) with false by (symmetry; apply Z.eqb_neq; lia)
           end.
    rewrite !andb_false_r. reflexivity.
Qed.

Lemma clr_bits_range (value : Z) : 0 <= MI.clr_bits value < 2 ^ 6.
Proof.
  assert (H0 : 0 <= MI.clr_bits value).
  { apply Z.bits_iff_nonneg_ex. exists 6. intros m Hm.
    rewrite clr_bits_spec by lia.
    replace (m <? 6) with false by (symmetry; apply Z.ltb_ge; lia). reflexivity. }
  split; [exact H0 |].
  destruct (Z.eq_dec (MI.clr_bits value) 0) as [-> | Hne]; [reflexivity |].
  apply Z.log2_lt_pow2; [lia |].
  destruct (Z_lt_le_dec (Z.log2 (MI.clr_bits value)) 6) as [| Hge]; [assumption | exfalso].
  pose proof (Z.bit_log2 (MI.clr_bits value) ltac:(lia)) as Hb.
  rewrite clr_bits_spec in Hb by lia.
  replace (Z.log2 (MI.clr_bits value) <? 6) with false in Hb
    by (symmetry; apply Z.ltb_ge; lia).
  discriminate.
Qed.

Lemma set_bits_range (value : Z) : 0 <= MI.set_bits value < 2 ^ 6.
Proof.
  assert (H0 : 0 <= MI.set_bits value).
  { apply Z.bits_iff_nonneg_ex. exists 6. intros m Hm.
    rewrite set_bits_spec by lia.
    replace (m <? 6) with false by (symmetry; apply Z.ltb_ge; lia). reflexivity. }
  split; [exact H0 |].
  destruct (Z.eq_dec (MI.set_bits value) 0) as [-> | Hne]; [reflexivity |].
  apply Z.log2_lt_pow2; [lia |].
  destruct (Z_lt_le_dec (Z.log2 (MI.set_bits value)) 6) as [| Hge]; [assumption | exfalso].
  pose proof (Z.bit_log2 (MI.set_bits value) ltac:(lia)) as Hb.
  rewrite set_bits_spec in Hb by lia.
  replace (Z.log2 (MI.set_bits value) <? 6) with false in Hb
    by (symmetry; apply Z.ltb_ge; lia).
  discriminate.
Qed.

(** The stored mask is [(mask AND NOT clr) OR set]. *)
Lemma newMask_stored (w : World) (value : Z) :
  JS.to_uint32 (newMask w value)
  = Z.lor (Z.land (interruptMask w) (Z.lnot (MI.clr_bits value))) (MI.set_bits value).
Proof.
  unfold newMask. apply Z.bits_inj'. intros i Hi.
  rewrite to_uint32_bits, or_bits, and_bits, not_bits by lia.
  rewrite !min31_idem.
  rewrite Z.lor_spec, Z.land_spec, Z.lnot_spec by lia.
  destruct (Z.ltb_spec i 32).
  - rewrite Z.min_l by lia. rewrite andb_true_r. reflexivity.
  - rewrite andb_false_r.
    rewrite (bits_above (interruptMask w) 32 i) by (try apply word_range; lia).
    rewrite (bits_above (MI.set_bits value) 6 i) by (try apply set_bits_range; lia).
    reflexivity.
Qed.

(** ** The interrupt-mask and mode registers *)

Lemma write32_MI_MASK (w : World) (value : Z) :
  0x10 <= Z.of_nat (length (mi_reg w)) ->
  MI.write32 (mi_rangeStart (mi w) + MI.MI_INTR_MASK_REG) value w
  = (Ok tt, mask_written w value).
Proof.
  intros Hl. unfold MI.write32, bind at 1, gets at 1. rewrite calcEA_offset.
  unfold bind at 1, u8_length, gets at 1. cbn [region].
  replace (Z.of_nat (length (mi_reg w)) <? MI.MI_INTR_MASK_REG + 4) with false
    by (symmetry; apply Z.ltb_ge; offsets).
  change (MI.MI_INTR_MASK_REG =? MI.MI_MODE_REG) with false.
  change (MI.MI_INTR_MASK_REG =? MI.MI_INTR_MASK_REG) with true.
  cbv iota.
  destruct (quietly_frame (mi_quiet (mi w)) (LogMiIntrMask value) w) as (_ & Hq & _).
  unfold bind at 1. rewrite unless_quiet_spec.
  unfold MI.writeIntrMaskReg.
  unfold bind at 1. rewrite mem_readU32_ok by (cbn [region]; rewrite ?Hq; offsets).
  unfold bind at 1. rewrite mem_readU32_ok by (cbn [region]; rewrite ?Hq; offsets).
  unfold bind at 1. rewrite mem_write32_ok by (cbn [region]; rewrite ?Hq; offsets).
  cbn [region set_region]. rewrite Hq.
  unfold mask_written, newMask, interruptMask, interruptPending.
  destruct (JS.truthy _); reflexivity.
Qed.

Lemma write32_MI_MODE (w : World) (value : Z) :
  0x10 <= Z.of_nat (length (mi_reg w)) ->
  MI.write32 (mi_rangeStart (mi w) + MI.MI_MODE_REG) value w
  = (Ok tt, mode_written w value).
Proof.
  intros Hl. unfold MI.write32, bind at 1, gets at 1. rewrite calcEA_offset.
  unfold bind at 1, u8_length, gets at 1. cbn [region].
  replace (Z.of_nat (length (mi_reg w)) <? MI.MI_MODE_REG + 4) with false
    by (symmetry; apply Z.ltb_ge; offsets).
  change (MI.MI_MODE_REG =? MI.MI_MODE_REG) with true.
  cbv iota.
  destruct (quietly_frame (mi_quiet (mi w)) (LogMiMode value) w) as (_ & Hq & _).
  unfold bind at 1. rewrite unless_quiet_spec.
  unfold MI.writeModeReg.
  unfold bind at 1. rewrite mem_readU32_ok by (cbn [region]; rewrite ?Hq; offsets).
  unfold bind at 1. rewrite mem_write32_ok by (cbn [region]; rewrite ?Hq; offsets).
  cbn [region set_region]. rewrite Hq.
  unfold mode_written. fold (modeBits w).
  destruct (JS.truthy (JS.and value MI.MI_CLR_DP_INTR)); [| reflexivity].
  unfold bind at 1.
  rewrite mem_clearBits32_ok by (cbn [region set_mi_reg mi_reg]; rewrite ?store32_length; offsets).
  reflexivity.
Qed.

Lemma set_step_bits (value s f reg i : Z) :
  0 <= i < 32 -> 0 <= s < 31 -> 0 <= f ->
  Z.testbit (if JS.truthy (JS.and value (2 ^ s)) then JS.or reg (2 ^ f) else reg) i
  = Z.testbit reg i || (Z.testbit value s && (i =? f)).
Proof.
  intros Hi Hs Hf. rewrite truthy_and_bit by lia.
  destruct (Z.testbit value s); cbn [andb].
  - rewrite or_bits, Z.min_l, Z.pow2_bits_eqb, (Z.eqb_sym f i) by lia. reflexivity.
  - rewrite orb_false_r. reflexivity.
Qed.

Lemma clr_step_bits (value c f reg i : Z) :
  0 <= i < 32 -> 0 <= c < 31 -> 0 <= f < 31 ->
  Z.testbit (if JS.truthy (JS.and value (2 ^ c)) then JS.and reg (JS.not (2 ^ f)) else reg) i
  = Z.testbit reg i && negb (Z.testbit value c && (i =? f)).
Proof.
  intros Hi Hc Hf. rewrite truthy_and_bit by lia.
  destruct (Z.testbit value c); cbn [andb negb].
  - rewrite and_bits, not_bits, min31_idem, Z.min_l, Z.pow2_bits_eqb, (Z.eqb_sym f i) by lia.
    reflexivity.
  - rewrite andb_true_r. reflexivity.
Qed.

Lemma mode_bits_spec (value reg i : Z) :
  0 <= i < 32 ->
  Z.testbit (MI.mode_bits value reg) i
  = ((((((Z.testbit reg i
          || (Z.testbit value 13 && (i =? 9))) && negb (Z.testbit value 12 && (i =? 9)))
        || (Z.testbit value 8 && (i =? 7))) && negb (Z.testbit value 7 && (i =? 7)))
      || (Z.testbit value 10 && (i =? 8))) && negb (Z.testbit value 9 && (i =? 8))).
Proof.
  intros Hi. unfold MI.mode_bits.
  change MI.MI_SET_RDRAM with (2 ^ 13). change MI.MI_CLR_RDRAM with (2 ^ 12).
  change MI.MI_SET_INIT with (2 ^ 8). change MI.MI_CLR_INIT with (2 ^ 7).
  change MI.MI_SET_EBUS with (2 ^ 10). change MI.MI_CLR_EBUS with (2 ^ 9).
  change MI.MI_MODE_RDRAM with (2 ^ 9). change MI.MI_MODE_INIT with (2 ^ 7).
  change MI.MI_MODE_EBUS with (2 ^ 8).
  cbv zeta.
  rewrite clr_step_bits, set_step_bits, clr_step_bits, set_step_bits, clr_step_bits,
    set_step_bits by lia.
  reflexivity.
Qed.

Lemma sources_pow2 (c s m : Z) :
  In (c, s, m) sources -> exists k, 0 <= k < 6 /\ c = 2 ^ (2 * k) /\ s = 2 ^ (2 * k + 1) /\ m = 2 ^ k.
Proof.
  intros Hin. cbn in Hin.
  destruct Hin as [E | [E | [E | [E | [E | [E | []]]]]]]; injection E as <- <- <-.
  - exists 0. repeat split; lia.
  - exists 1. repeat split; lia.
  - exists 2. repeat split; lia.
  - exists 3. repeat split; lia.
  - exists 4. repeat split; lia.
  - exists 5. repeat split; lia.
Qed.

Lemma interruptMask_mask_written (w : World) (value : Z) :
  0x10 <= Z.of_nat (length (mi_reg w)) ->
  interruptMask (mask_written w value) = JS.to_uint32 (newMask w value).
Proof.
  intros Hl. unfold interruptMask, mask_written.
  destruct (JS.truthy _); cbn [mi_reg add_call set_mi_reg]; apply word_store32_eq; offsets.
Qed.

Lemma modeBits_mode_written (w : World) (value : Z) :
  0x10 <= Z.of_nat (length (mi_reg w)) ->
  modeBits (mode_written w value) = JS.to_uint32 (MI.mode_bits value (modeBits w)).
Proof.
  intros Hl. unfold modeBits at 1, mode_written.
  destruct (JS.truthy _); cbn [mi_reg add_call set_mi_reg].
  - rewrite word_store32_ne by offsets. apply word_store32_eq; offsets.
  - apply word_store32_eq; offsets.
Qed.

(** C1. A write to the interrupt-mask register leaves
    [(mask AND NOT clr) OR set], where [clr] and [set] are the 6-bit vectors
    gathered from the clear and set bits of the six sources, so a source
    given both bits ends up set.  A write to the mode register applies the
    set bit of each flag before its clear bit, so a flag given both bits
    ends up cleared. *)
Theorem mask_set_wins_mode_clear_wins (w : World) (value : Z) :
  holds_registers w ->
  (exists w',
     MI.write32 (mi_rangeStart (mi w) + MI.MI_INTR_MASK_REG) value w = (Ok tt, w') /\
     interruptMask w'
     = Z.lor (Z.land (interruptMask w) (Z.lnot (MI.clr_bits value))) (MI.set_bits value) /\
     0 <= MI.clr_bits value < 2 ^ 6 /\ 0 <= MI.set_bits value < 2 ^ 6 /\
     forall c s m, In (c, s, m) sources ->
       has (MI.clr_bits value) m = has value c /\
       has (MI.set_bits value) m = has value s /\
       has (interruptMask w') m
       = (has (interruptMask w) m && negb (has value c)) || has value s /\
       (has value s = true -> has (interruptMask w') m = true)) /\
  (exists w',
     MI.write32 (mi_rangeStart (mi w) + MI.MI_MODE_REG) value w = (Ok tt, w') /\
     forall s c f, In (s, c, f) mode_flags ->
       has (modeBits w') f = (has (modeBits w) f || has value s) && negb (has value c) /\
       (has value c = true -> has (modeBits w') f = false)).
Proof.
  intros [Hvi Hmi]. split.
  - exists (mask_written w value). split; [apply write32_MI_MASK; lia |].
    rewrite interruptMask_mask_written, newMask_stored by lia.
    split; [reflexivity |]. split; [apply clr_bits_range |]. split; [apply set_bits_range |].
    intros c s m Hin. destruct (sources_pow2 c s m Hin) as (k & Hk & -> & -> & ->).
    rewrite !has_pow2 by lia.
    rewrite Z.lor_spec, Z.land_spec, Z.lnot_spec, clr_bits_spec, set_bits_spec by lia.
    replace (k <? 6) with true by (symmetry; apply Z.ltb_lt; lia). cbn [andb].
    split; [reflexivity |]. split; [reflexivity |]. split; [reflexivity |].
    intros ->. apply orb_true_r.
  - exists (mode_written w value). split; [apply write32_MI_MODE; lia |].
    rewrite modeBits_mode_written by lia.
    intros s c f Hin. cbn in Hin.
    assert (Hgoal : has (JS.to_uint32 (MI.mode_bits value (modeBits w))) f
                    = (has (modeBits w) f || has value s) && negb (has value c)).
    { destruct Hin as [E | [E | [E | []]]]; injection E as <- <- <-.
      - change MI.MI_SET_RDRAM with (2 ^ 13). change MI.MI_CLR_RDRAM with (2 ^ 12).
        change MI.MI_MODE_RDRAM with (2 ^ 9). rewrite !has_pow2 by lia.
        rewrite to_uint32_bits, mode_bits_spec by lia. cbn.
        rewrite ?andb_false_r, ?andb_true_r, ?orb_false_r. reflexivity.
      - change MI.MI_SET_INIT with (2 ^ 8). change MI.MI_CLR_INIT with (2 ^ 7).
        change MI.MI_MODE_INIT with (2 ^ 7). rewrite !has_pow2 by lia.
        rewrite to_uint32_bits, mode_bits_spec by lia. cbn.
        rewrite ?andb_false_r, ?andb_true_r, ?orb_false_r. reflexivity.
      - change MI.MI_SET_EBUS with (2 ^ 10). change MI.MI_CLR_EBUS with (2 ^ 9).
        change MI.MI_MODE_EBUS with (2 ^ 8). rewrite !has_pow2 by lia.
        rewrite to_uint32_bits, mode_bits_spec by lia. cbn.
        rewrite ?andb_false_r, ?andb_true_r, ?orb_false_r. reflexivity. }
    split; [exact Hgoal |]. intros Hc. rewrite Hgoal, Hc. apply andb_false_r.
Qed.

Lemma mask_set_wins_mode_clear_wins_witness :
  holds_registers (power_on OS_TV_NTSC) /\
  (exists w',
     MI.write32 (mi_rangeStart (mi (power_on OS_TV_NTSC)) + MI.MI_INTR_MASK_REG)
       (Z.lor MI.MI_INTR_MASK_CLR_VI MI.MI_INTR_MASK_SET_VI) (power_on OS_TV_NTSC)
     = (Ok tt, w') /\
     has (interruptMask w') MI.MI_INTR_MASK_VI = true) /\
  (exists w',
     MI.write32 (mi_rangeStart (mi (power_on OS_TV_NTSC)) + MI.MI_MODE_REG)
       (Z.lor MI.MI_SET_INIT MI.MI_CLR_INIT) (power_on OS_TV_NTSC)
     = (Ok tt, w') /\
     has (modeBits w') MI.MI_MODE_INIT = false).
Proof.
  assert (H : holds_registers (power_on OS_TV_NTSC))
    by (unfold holds_registers; vm_compute; split; discriminate).
  split; [exact H |].
  destruct (mask_set_wins_mode_clear_wins (power_on OS_TV_NTSC)
              (Z.lor MI.MI_INTR_MASK_CLR_VI MI.MI_INTR_MASK_SET_VI) H)
    as [(w1 & Hw1 & _ & _ & _ & Hsrc) _].
  destruct (mask_set_wins_mode_clear_wins (power_on OS_TV_NTSC)
              (Z.lor MI.MI_SET_INIT MI.MI_CLR_INIT) H)
    as [_ (w2 & Hw2 & Hfl)].
  split.
  - exists w1. split; [exact Hw1 |].
    destruct (Hsrc MI.MI_INTR_MASK_CLR_VI MI.MI_INTR_MASK_SET_VI MI.MI_INTR_MASK_VI)
      as (_ & _ & _ & Hwin).
    + cbn. tauto.
    + apply Hwin. vm_compute. reflexivity.
  - exists w2. split; [exact Hw2 |].
    destruct (Hfl MI.MI_SET_INIT MI.MI_CLR_INIT MI.MI_MODE_INIT) as (_ & Hwin).
    + cbn. tauto.
    + apply Hwin. vm_compute. reflexivity.
Defined.

(** ** Re-evaluation of the interrupt line *)

Lemma ushr_0 (v : Z) : JS.ushr v 0 = JS.to_uint32 v.
Proof. unfold JS.ushr. apply Z.shiftr_0_r. Qed.

Lemma and_zero_iff (a b : Z) :
  JS.and a b = 0 <-> Z.land (JS.to_uint32 a) (JS.to_uint32 b) = 0.
Proof.
  split; intros H.
  - apply Z.bits_inj'. intros i Hi. rewrite Z.bits_0, Z.land_spec, !to_uint32_bits by lia.
    destruct (Z.ltb_spec i 32); [| rewrite !andb_false_r; reflexivity].
    rewrite !andb_true_r.
    assert (E : Z.testbit (JS.and a b) i = false) by (rewrite H; apply Z.bits_0).
    rewrite and_bits, Z.min_l in E by lia. exact E.
  - apply Z.bits_inj'. intros i Hi. rewrite Z.bits_0, and_bits by lia.
    assert (E : Z.testbit (Z.land (JS.to_uint32 a) (JS.to_uint32 b)) (Z.min i 31) = false)
      by (rewrite H; apply Z.bits_0).
    rewrite Z.land_spec, !to_uint32_bits in E by lia.
    replace (Z.min i 31 <? 32) with true in E by (symmetry; apply Z.ltb_lt; lia).
    rewrite !andb_true_r in E. exact E.
Qed.

Lemma truthy_and (a b : Z) :
  JS.truthy (JS.and a b) = negb (Z.land (JS.to_uint32 a) (JS.to_uint32 b) =? 0).
Proof.
  unfold JS.truthy. f_equal.
  destruct (Z.eqb_spec (JS.and a b) 0) as [E | E];
    destruct (Z.eqb_spec (Z.land (JS.to_uint32 a) (JS.to_uint32 b)) 0) as [E' | E'];
    try reflexivity; exfalso.
  - apply E', and_zero_iff, E.
  - apply E, and_zero_iff, E'.
Qed.

Lemma setInterruptBit_spec (w : World) (bit : Z) :
  0x10 <= Z.of_nat (length (mi_reg w)) ->
  MI.setInterruptBit bit w
  = (Ok tt, add_call UpdateCause3
              (set_mi_reg (store32 (mi_reg w) MI.MI_INTR_REG
                             (JS.or (interruptPending w) bit)) w)).
Proof.
  intros Hl. unfold MI.setInterruptBit, bind.
  rewrite mem_setBits32_ok by offsets. reflexivity.
Qed.

(** C6, as the code has it.  Raising a pending bit through
    [setInterruptBit] re-evaluates the interrupt line unconditionally.  A
    write to the interrupt-mask register re-evaluates it exactly when the
    new mask AND the pending vector is not zero. *)
Theorem interrupt_line_reevaluation (w : World) (bit value : Z) :
  holds_registers w ->
  (exists w',
     MI.setInterruptBit bit w = (Ok tt, w') /\
     interruptPending w' = JS.to_uint32 (JS.or (interruptPending w) bit) /\
     interruptMask w' = interruptMask w /\
     calls w' = calls w ++ [UpdateCause3]) /\
  (exists w',
     MI.write32 (mi_rangeStart (mi w) + MI.MI_INTR_MASK_REG) value w = (Ok tt, w') /\
     interruptPending w' = interruptPending w /\
     calls w' = if Z.land (interruptMask w') (interruptPending w') =? 0
                then calls w
                else calls w ++ [UpdateCause3]).
Proof.
  intros [Hvi Hmi]. split.
  - rewrite setInterruptBit_spec by lia. eexists. split; [reflexivity |].
    unfold interruptPending at 1, interruptMask at 1. cbn [mi_reg add_call set_mi_reg calls].
    rewrite word_store32_eq, word_store32_ne by offsets.
    repeat split; reflexivity.
  - rewrite write32_MI_MASK by lia. exists (mask_written w value). split; [reflexivity |].
    assert (Hp : interruptPending (mask_written w value) = interruptPending w).
    { unfold interruptPending, mask_written.
      destruct (JS.truthy _); cbn [mi_reg add_call set_mi_reg];
        apply word_store32_ne; offsets. }
    split; [exact Hp |].
    rewrite Hp, interruptMask_mask_written by lia.
    destruct (quietly_frame (mi_quiet (mi w)) (LogMiIntrMask value) w)
      as (_ & _ & _ & _ & _ & Hq & _).
    unfold mask_written. rewrite truthy_and.
    rewrite (to_uint32_small (interruptPending w)) by apply word_range.
    destruct (Z.land (JS.to_uint32 (newMask w value)) (interruptPending w) =? 0);
      cbn [negb calls add_call set_mi_reg]; rewrite Hq; reflexivity.
Qed.

Lemma interrupt_line_reevaluation_witness :
  holds_registers (power_on OS_TV_NTSC) /\
  (exists w',
     MI.write32 (mi_rangeStart (mi (power_on OS_TV_NTSC)) + MI.MI_INTR_MASK_REG)
       MI.MI_INTR_MASK_SET_VI (power_on OS_TV_NTSC) = (Ok tt, w') /\
     interruptPending w' = interruptPending (power_on OS_TV_NTSC) /\
     calls w' = if Z.land (interruptMask w') (interruptPending w') =? 0
                then calls (power_on OS_TV_NTSC)
                else calls (power_on OS_TV_NTSC) ++ [UpdateCause3]).
Proof.
  assert (H : holds_registers (power_on OS_TV_NTSC))
    by (unfold holds_registers; vm_compute; split; discriminate).
  split; [exact H |].
  exact (proj2 (interrupt_line_reevaluation (power_on OS_TV_NTSC) 0
                  MI.MI_INTR_MASK_SET_VI H)).
Defined.

(** C6: a write that clears the only bit of the mask changes the mask and
    does not re-evaluate the interrupt line. *)
Lemma mask_write_without_reevaluation :
  interruptMask vi_unmasked = MI.MI_INTR_MASK_VI /\
  exists w',
    MI.write32 (0x04300000 + MI.MI_INTR_MASK_REG) MI.MI_INTR_MASK_CLR_VI vi_unmasked
    = (Ok tt, w') /\
    interruptMask w' = 0 /\
    interruptMask w' <> interruptMask vi_unmasked /\
    Z.land (interruptMask w') (interruptPending w') = 0 /\
    calls w' = calls vi_unmasked.
Proof.
  split; [vm_compute; reflexivity |].
  eexists. split; [vm_compute; reflexivity |].
  vm_compute. repeat split; discriminate.
Qed.

(** ** Acknowledging the VI interrupt *)

Lemma same_state_refl (w : World) : same_state w w.
Proof. unfold same_state. tauto. Qed.

Lemma same_state_quietly (quiet : bool) (l : LogMsg) (w : World) :
  same_state w (quietly quiet l w).
Proof. unfold same_state, quietly. destruct quiet; cbn; tauto. Qed.

Lemma same_state_add_log (l : LogMsg) (w : World) : same_state w (add_log l w).
Proof. unfold same_state. cbn. tauto. Qed.

Lemma write32_V_CURRENT_LINE (w : World) (value : Z) :
  0x14 <= Z.of_nat (length (vi_reg w)) -> 0x0C <= Z.of_nat (length (mi_reg w)) ->
  VI.write32 (vi_rangeStart (vi w) + VI.VI_V_CURRENT_LINE_REG) value w
  = (Ok tt, acknowledged w value).
Proof.
  intros Hl Hm. unfold VI.write32, bind at 1, gets at 1. rewrite calcEA_offset.
  unfold bind at 1, u8_length, gets at 1. cbn [region].
  replace (Z.of_nat (length (vi_reg w)) <? VI.VI_V_CURRENT_LINE_REG + 4) with false
    by (symmetry; apply Z.ltb_ge; offsets).
  change (VI.VI_V_CURRENT_LINE_REG =? VI.VI_DRAM_ADDR_REG) with false.
  change (VI.VI_V_CURRENT_LINE_REG =? VI.VI_CONTROL_REG) with false.
  change (VI.VI_V_CURRENT_LINE_REG =? VI.VI_H_WIDTH_REG) with false.
  change (VI.VI_V_CURRENT_LINE_REG =? VI.VI_V_INTR_REG) with false.
  change (VI.VI_V_CURRENT_LINE_REG =? VI.VI_V_CURRENT_LINE_REG) with true.
  cbv iota.
  destruct (quietly_frame (vi_quiet (vi w)) (LogViCurrent value) w) as (_ & Hq1 & _).
  destruct (quietly_frame (vi_quiet (vi w)) LogViIntrCleared
              (quietly (vi_quiet (vi w)) (LogViCurrent value) w)) as (_ & Hq2 & _).
  unfold bind at 1. rewrite unless_quiet_spec.
  unfold bind at 1. rewrite unless_quiet_spec.
  unfold bind at 1.
  rewrite mem_clearBits32_ok by (cbn [region]; rewrite ?Hq2, ?Hq1; offsets).
  cbn [region set_region]. rewrite Hq2, Hq1. reflexivity.
Qed.

(** C8. A write of any value to the current-line register clears the VI
    bit of the pending vector, requests a re-evaluation of the interrupt
    line and drops the value: the VI block, the interrupt mask, the other
    MI registers and pending bits, and both devices stay as they were. *)
Theorem current_line_write_acknowledges (w : World) (value : Z) :
  holds_registers w ->
  exists w',
    VI.write32 (vi_rangeStart (vi w) + VI.VI_V_CURRENT_LINE_REG) value w = (Ok tt, w') /\
    has (interruptPending w') MI.MI_INTR_VI = false /\
    interruptPending w' = Z.land (interruptPending w) (Z.lnot MI.MI_INTR_VI) /\
    calls w' = calls w ++ [UpdateCause3] /\
    vi_reg w' = vi_reg w /\ currentLine w' = currentLine w /\
    interruptMask w' = interruptMask w /\ modeBits w' = modeBits w /\
    word (mi_reg w') MI.MI_VERSION_REG = word (mi_reg w) MI.MI_VERSION_REG /\
    vi w' = vi w /\ mi w' = mi w /\ cpu0 w' = cpu0 w.
Proof.
  intros [Hvi Hmi]. rewrite write32_V_CURRENT_LINE by lia.
  exists (acknowledged w value). split; [reflexivity |].
  destruct (quietly_frame (vi_quiet (vi w)) (LogViCurrent value) w)
    as (Ha1 & Ha2 & Ha3 & Ha4 & Ha5 & Ha6 & Ha7).
  destruct (quietly_frame (vi_quiet (vi w)) LogViIntrCleared
              (quietly (vi_quiet (vi w)) (LogViCurrent value) w))
    as (Hb1 & Hb2 & Hb3 & Hb4 & Hb5 & Hb6 & Hb7).
  assert (Hp : interruptPending (acknowledged w value)
               = Z.land (interruptPending w) (Z.lnot MI.MI_INTR_VI)).
  { unfold interruptPending at 1, acknowledged. cbn [mi_reg add_call set_mi_reg].
    rewrite word_store32_eq by offsets.
    apply Z.bits_inj'. intros i Hi.
    rewrite to_uint32_bits, and_bits, not_bits, min31_idem, Z.land_spec, Z.lnot_spec by lia.
    destruct (Z.ltb_spec i 32).
    - rewrite Z.min_l by lia. apply andb_true_r.
    - rewrite andb_false_r.
      rewrite (bits_above (interruptPending w) 32 i) by (try apply word_range; lia).
      reflexivity. }
  split.
  { rewrite Hp. change MI.MI_INTR_VI with (2 ^ 3). rewrite has_pow2 by lia.
    rewrite Z.land_spec, Z.lnot_spec by lia. rewrite Z.pow2_bits_true by lia.
    apply andb_false_r. }
  split; [exact Hp |].
  unfold currentLine, interruptMask, modeBits, acknowledged.
  cbn [vi_reg mi_reg vi mi cpu0 calls add_call set_mi_reg].
  rewrite !word_store32_ne by offsets.
  rewrite Hb1, Ha1, Hb3, Ha3, Hb4, Ha4, Hb5, Ha5, Hb6, Ha6.
  repeat split; reflexivity.
Qed.

Lemma current_line_write_acknowledges_witness :
  holds_registers (first_blank) /\
  exists w',
    VI.write32 (vi_rangeStart (vi (first_blank)) + VI.VI_V_CURRENT_LINE_REG)
      0x1234 (first_blank) = (Ok tt, w') /\
    has (interruptPending w') MI.MI_INTR_VI = false /\
    interruptPending w'
    = Z.land (interruptPending (first_blank)) (Z.lnot MI.MI_INTR_VI) /\
    calls w' = calls (first_blank) ++ [UpdateCause3] /\
    vi_reg w' = vi_reg (first_blank) /\
    currentLine w' = currentLine (first_blank) /\
    interruptMask w' = interruptMask (first_blank) /\
    modeBits w' = modeBits (first_blank) /\
    word (mi_reg w') MI.MI_VERSION_REG
    = word (mi_reg (first_blank)) MI.MI_VERSION_REG /\
    vi w' = vi (first_blank) /\ mi w' = mi (first_blank) /\
    cpu0 w' = cpu0 (first_blank).
Proof.
  assert (H : holds_registers (first_blank))
    by (unfold holds_registers; vm_compute; split; discriminate).
  split; [exact H |].
  exact (current_line_write_acknowledges (first_blank) 0x1234 H).
Defined.

(** ** Bounds errors *)

Lemma registers_fit_holds (w : World) : registers_fit w = true -> holds_registers w.
Proof.
  unfold registers_fit, holds_registers. rewrite andb_true_iff, !Z.leb_le. tauto.
Qed.

Lemma address_of_offset (b a : Z) : a = b + calcEA b a.
Proof. unfold calcEA. lia. Qed.

Lemma VI_write32_out_of_range (w : World) (address value : Z) :
  Z.of_nat (length (vi_reg w)) < calcEA (vi_rangeStart (vi w)) address + 4 ->
  VI.write32 address value w = (Throw WriteOutOfRange, w).
Proof.
  intros H. unfold VI.write32, bind at 1, gets at 1.
  unfold bind at 1, u8_length, gets at 1. cbn [region].
  replace (_ <? _) with true by (symmetry; apply Z.ltb_lt; exact H). reflexivity.
Qed.

Lemma VI_readS32_out_of_range (w : World) (address : Z) :
  Z.of_nat (length (vi_reg w)) < calcEA (vi_rangeStart (vi w)) address + 4 ->
  VI.readS32 address w
  = (Throw ReadOutOfRange, quietly (vi_quiet (vi w)) (LogRead address) w).
Proof.
  intros H. unfold VI.readS32, bind at 1, gets at 1.
  destruct (quietly_frame (vi_quiet (vi w)) (LogRead address) w) as (Hq & _).
  unfold bind at 1, logRead. rewrite unless_quiet_spec.
  unfold bind at 1, u8_length, gets at 1. cbn [region]. rewrite Hq.
  replace (_ <? _) with true by (symmetry; apply Z.ltb_lt; exact H). reflexivity.
Qed.

Lemma VI_readU32_of_readS32 (w : World) (address : Z) :
  VI.readU32 address w =
    match VI.readS32 address w with
    | (Ok v, w') => (Ok (JS.to_uint32 v), w')
    | (Throw e, w') => (Throw e, w')
    end.
Proof.
  unfold VI.readU32, bind. destruct (VI.readS32 address w) as [[v | e] w']; [| reflexivity].
  unfold ret. rewrite ushr_0. reflexivity.
Qed.

Lemma MI_write32_out_of_range (w : World) (address value : Z) :
  Z.of_nat (length (mi_reg w)) < calcEA (mi_rangeStart (mi w)) address + 4 ->
  MI.write32 address value w = (Throw WriteOutOfRange, w).
Proof.
  intros H. unfold MI.write32, bind at 1, gets at 1.
  unfold bind at 1, u8_length, gets at 1. cbn [region].
  replace (_ <? _) with true by (symmetry; apply Z.ltb_lt; exact H). reflexivity.
Qed.

Lemma MI_readS32_out_of_range (w : World) (address : Z) :
  Z.of_nat (length (mi_reg w)) < calcEA (mi_rangeStart (mi w)) address + 4 ->
  MI.readS32 address w
  = (Throw ReadOutOfRange, quietly (mi_quiet (mi w)) (LogRead address) w).
Proof.
  intros H. unfold MI.readS32, bind at 1, gets at 1.
  destruct (quietly_frame (mi_quiet (mi w)) (LogRead address) w) as (_ & Hq & _).
  unfold bind at 1, logRead. rewrite unless_quiet_spec.
  unfold bind at 1, u8_length, gets at 1. cbn [region]. rewrite Hq.
  replace (_ <? _) with true by (symmetry; apply Z.ltb_lt; exact H). reflexivity.
Qed.

Lemma MI_readU32_out_of_range (w : World) (address : Z) :
  Z.of_nat (length (mi_reg w)) < calcEA (mi_rangeStart (mi w)) address + 4 ->
  MI.readU32 address w
  = (Throw ReadOutOfRange, quietly (mi_quiet (mi w)) (LogRead address) w).
Proof.
  intros H. unfold MI.readU32, bind at 1, gets at 1.
  destruct (quietly_frame (mi_quiet (mi w)) (LogRead address) w) as (_ & Hq & _).
  unfold bind at 1, logRead. rewrite unless_quiet_spec.
  unfold bind at 1, u8_length, gets at 1. cbn [region]. rewrite Hq.
  replace (_ <? _) with true by (symmetry; apply Z.ltb_lt; exact H). reflexivity.
Qed.

(** A plain store of the VI: it succeeds when the offset is not negative,
    and is refused by the register block otherwise. *)
Lemma VI_plain_store (w : World) (ea value : Z) (quiet : bool) (l : LogMsg) :
  ea + 4 <= Z.of_nat (length (vi_reg w)) ->
  mem_write32 VIReg ea value (quietly quiet l w)
  = if 0 <=? ea
    then (Ok tt, set_vi_reg (store32 (vi_reg w) ea value) (quietly quiet l w))
    else (Throw RangeError, quietly quiet l w).
Proof.
  intros H. destruct (quietly_frame quiet l w) as (Hq & _).
  destruct (Z.leb_spec 0 ea).
  - rewrite mem_write32_ok by (cbn [region]; rewrite ?Hq; lia).
    cbn [region set_region]. rewrite Hq. reflexivity.
  - apply mem_write32_fail. left. assumption.
Qed.

Lemma VI_write32_in_range (w : World) (address value : Z) :
  let ea := calcEA (vi_rangeStart (vi w)) address in
  0x1C <= Z.of_nat (length (vi_reg w)) -> 0x0C <= Z.of_nat (length (mi_reg w)) ->
  ea + 4 <= Z.of_nat (length (vi_reg w)) ->
  VI.write32 address value w =
    if ea =? VI.VI_V_INTR_REG then
      (Ok tt, armed (set_vi_reg (store32 (vi_reg w) VI.VI_V_INTR_REG value)
                       (quietly (vi_quiet (vi w)) (LogViIntr value) w)))
    else if ea =? VI.VI_V_CURRENT_LINE_REG then (Ok tt, acknowledged w value)
    else if ea =? VI.VI_V_SYNC_REG then
      (Ok tt, if syncValue w =? value then w else armed (retimed w value))
    else
      let w1 := if ea =? VI.VI_CONTROL_REG
                then quietly (vi_quiet (vi w)) (LogViControl value) w
                else if ea =? VI.VI_H_WIDTH_REG
                     then quietly (vi_quiet (vi w)) (LogViWidth value) w
                     else w in
      if 0 <=? ea
      then (Ok tt, set_vi_reg (store32 (vi_reg w) ea value) w1)
      else (Throw RangeError, w1).
Proof.
  intros ea Hl Hm He.
  rewrite (address_of_offset (vi_rangeStart (vi w)) address). fold ea.
  destruct (Z.eqb_spec ea VI.VI_V_INTR_REG) as [-> | N1]; [apply write32_V_INTR; exact Hl |].
  destruct (Z.eqb_spec ea VI.VI_V_CURRENT_LINE_REG) as [-> | N2];
    [apply write32_V_CURRENT_LINE; [lia | exact Hm] |].
  destruct (Z.eqb_spec ea VI.VI_V_SYNC_REG) as [-> | N3]; [apply write32_V_SYNC; exact Hl |].
  unfold VI.write32, bind at 1, gets at 1. rewrite calcEA_offset.
  unfold bind at 1, u8_length, gets at 1. cbn [region].
  replace (Z.of_nat (length (vi_reg w)) <? ea + 4) with false
    by (symmetry; apply Z.ltb_ge; exact He).
  replace (ea =? VI.VI_V_INTR_REG) with false by (symmetry; apply Z.eqb_neq; exact N1).
  replace (ea =? VI.VI_V_CURRENT_LINE_REG) with false by (symmetry; apply Z.eqb_neq; exact N2).
  replace (ea =? VI.VI_V_SYNC_REG) with false by (symmetry; apply Z.eqb_neq; exact N3).
  pose proof (VI_plain_store w ea value true (LogViIntr value) He) as Hplain.
  unfold quietly at 1 2 3 in Hplain.
  destruct (Z.eqb_spec ea VI.VI_DRAM_ADDR_REG) as [E1 | N4].
  - rewrite E1 in *.
    change (VI.VI_DRAM_ADDR_REG =? VI.VI_CONTROL_REG) with false.
    change (VI.VI_DRAM_ADDR_REG =? VI.VI_H_WIDTH_REG) with false.
    exact Hplain.
  - destruct (Z.eqb_spec ea VI.VI_CONTROL_REG) as [E2 | N5].
    + unfold bind at 1. rewrite unless_quiet_spec. apply VI_plain_store. exact He.
    + destruct (Z.eqb_spec ea VI.VI_H_WIDTH_REG) as [E3 | N6].
      * unfold bind at 1. rewrite unless_quiet_spec. apply VI_plain_store. exact He.
      * exact Hplain.
Qed.

Lemma MI_write32_in_range (w : World) (address value : Z) :
  let ea := calcEA (mi_rangeStart (mi w)) address in
  0x10 <= Z.of_nat (length (mi_reg w)) ->
  ea + 4 <= Z.of_nat (length (mi_reg w)) ->
  MI.write32 address value w =
    if ea =? MI.MI_MODE_REG then (Ok tt, mode_written w value)
    else if ea =? MI.MI_INTR_MASK_REG then (Ok tt, mask_written w value)
    else if (ea =? MI.MI_VERSION_REG) || (ea =? MI.MI_INTR_REG) then (Ok tt, w)
    else if 0 <=? ea
         then (Ok tt, set_mi_reg (store32 (mi_reg w) ea value)
                        (add_log (LogMiUnhandled value address) w))
         else (Throw RangeError, add_log (LogMiUnhandled value address) w).
Proof.
  intros ea Hl He.
  destruct (Z.eqb_spec ea MI.MI_MODE_REG) as [E1 | N1].
  { rewrite (address_of_offset (mi_rangeStart (mi w)) address). fold ea. rewrite E1.
    apply write32_MI_MODE; exact Hl. }
  destruct (Z.eqb_spec ea MI.MI_INTR_MASK_REG) as [E2 | N2].
  { rewrite (address_of_offset (mi_rangeStart (mi w)) address). fold ea. rewrite E2.
    apply write32_MI_MASK; exact Hl. }
  unfold MI.write32, bind at 1, gets at 1. fold ea.
  unfold bind at 1, u8_length, gets at 1. cbn [region].
  replace (Z.of_nat (length (mi_reg w)) <? ea + 4) with false
    by (symmetry; apply Z.ltb_ge; exact He).
  replace (ea =? MI.MI_MODE_REG) with false by (symmetry; apply Z.eqb_neq; exact N1).
  replace (ea =? MI.MI_INTR_MASK_REG) with false by (symmetry; apply Z.eqb_neq; exact N2).
  destruct ((ea =? MI.MI_VERSION_REG) || (ea =? MI.MI_INTR_REG)); [reflexivity |].
  unfold bind at 1, log, modify.
  destruct (Z.leb_spec 0 ea).
  - rewrite mem_write32_ok by (cbn [region add_log mi_reg]; lia). reflexivity.
  - apply mem_write32_fail. left. assumption.
Qed.

(** C9. A word access of either controller whose translated offset plus 4
    exceeds the length of the backing store fails with a bounds error and
    leaves the state of both devices as it was: nothing is stored.  When
    the blocks hold the registers of their devices, a word write either
    succeeds or fails without changing the state, and a plain store of the
    VI writes the whole word.  (The word reads of the MI are those of the
    base class, modelled from the specification.) *)
Theorem bounds_error_leaves_registers (w : World) (address value : Z) :
  (if Z.of_nat (length (vi_reg w)) <? calcEA (vi_rangeStart (vi w)) address + 4
   then VI.write32 address value w = (Throw WriteOutOfRange, w) /\
        refused (VI.readS32 address w) ReadOutOfRange w /\
        refused (VI.readU32 address w) ReadOutOfRange w
   else if registers_fit w
        then all_or_nothing (VI.write32 address value w) w /\
             (if vi_passthrough (calcEA (vi_rangeStart (vi w)) address)
                 && (0 <=? calcEA (vi_rangeStart (vi w)) address)
              then word (vi_reg (snd (VI.write32 address value w)))
                     (calcEA (vi_rangeStart (vi w)) address) = JS.to_uint32 value
              else True)
        else True) /\
  (if Z.of_nat (length (mi_reg w)) <? calcEA (mi_rangeStart (mi w)) address + 4
   then MI.write32 address value w = (Throw WriteOutOfRange, w) /\
        refused (MI.readS32 address w) ReadOutOfRange w /\
        refused (MI.readU32 address w) ReadOutOfRange w
   else if registers_fit w
        then all_or_nothing (MI.write32 address value w) w
        else True).
Proof.
  split.
  - destruct (Z.ltb_spec (Z.of_nat (length (vi_reg w)))
                (calcEA (vi_rangeStart (vi w)) address + 4)) as [Hout | Hin].
    + split; [apply VI_write32_out_of_range; exact Hout |].
      assert (Hr : refused (VI.readS32 address w) ReadOutOfRange w).
      { rewrite VI_readS32_out_of_range by exact Hout.
        split; [reflexivity | apply same_state_quietly]. }
      split; [exact Hr |].
      rewrite VI_readU32_of_readS32. rewrite VI_readS32_out_of_range by exact Hout.
      split; [reflexivity | apply same_state_quietly].
    + destruct (registers_fit w) eqn:Hfit; [| exact I].
      apply registers_fit_holds in Hfit. destruct Hfit as [Hvi Hmi].
      rewrite VI_write32_in_range by lia.
      set (ea := calcEA (vi_rangeStart (vi w)) address) in *.
      unfold vi_passthrough, all_or_nothing.
      destruct (ea =? VI.VI_V_INTR_REG); [split; [left; eexists; reflexivity | exact I] |].
      destruct (ea =? VI.VI_V_CURRENT_LINE_REG); [split; [left; eexists; reflexivity | exact I] |].
      destruct (ea =? VI.VI_V_SYNC_REG); [split; [left; eexists; reflexivity | exact I] |].
      cbn [orb negb andb]. cbv zeta.
      destruct (Z.leb_spec 0 ea).
      * split; [left; eexists; reflexivity |].
        cbn [snd vi_reg set_vi_reg]. apply word_store32_eq; lia.
      * split; [| exact I]. right. exists RangeError. split; [reflexivity |].
        cbn [snd].
        destruct (ea =? VI.VI_CONTROL_REG); [apply same_state_quietly |].
        destruct (ea =? VI.VI_H_WIDTH_REG); [apply same_state_quietly | apply same_state_refl].
  - destruct (Z.ltb_spec (Z.of_nat (length (mi_reg w)))
                (calcEA (mi_rangeStart (mi w)) address + 4)) as [Hout | Hin].
    + split; [apply MI_write32_out_of_range; exact Hout |].
      rewrite MI_readS32_out_of_range, MI_readU32_out_of_range by exact Hout.
      split; (split; [reflexivity | apply same_state_quietly]).
    + destruct (registers_fit w) eqn:Hfit; [| exact I].
      apply registers_fit_holds in Hfit. destruct Hfit as [Hvi Hmi].
      rewrite MI_write32_in_range by lia.
      set (ea := calcEA (mi_rangeStart (mi w)) address) in *.
      unfold all_or_nothing.
      destruct (ea =? MI.MI_MODE_REG); [left; eexists; reflexivity |].
      destruct (ea =? MI.MI_INTR_MASK_REG); [left; eexists; reflexivity |].
      destruct ((ea =? MI.MI_VERSION_REG) || (ea =? MI.MI_INTR_REG));
        [left; eexists; reflexivity |].
      destruct (0 <=? ea); [left; eexists; reflexivity |].
      right. exists RangeError. split; [reflexivity | apply same_state_add_log].
Qed.

(** ** Reads of the VI *)

Lemma VI_readS32_in_range (w : World) (address : Z) :
  let ea := calcEA (vi_rangeStart (vi w)) address in
  0x1C <= Z.of_nat (length (vi_reg w)) ->
  0 <= ea -> ea + 4 <= Z.of_nat (length (vi_reg w)) ->
  VI.readS32 address w
  = (Ok (JS.to_int32 (word (vi_reg (vi_read w address ea)) ea)), vi_read w address ea).
Proof.
  intros ea Hl H0 He. unfold VI.readS32, bind at 1, gets at 1. fold ea.
  destruct (quietly_frame (vi_quiet (vi w)) (LogRead address) w)
    as (Hq1 & Hq2 & Hq3 & Hq4 & Hq5 & Hq6 & Hq7).
  unfold bind at 1, logRead. rewrite unless_quiet_spec.
  unfold bind at 1, u8_length, gets at 1. cbn [region]. rewrite Hq1.
  replace (Z.of_nat (length (vi_reg w)) <? ea + 4) with false
    by (symmetry; apply Z.ltb_ge; exact He).
  unfold vi_read.
  destruct (Z.eqb_spec ea VI.VI_V_CURRENT_LINE_REG) as [E | N].
  - unfold bind at 1. unfold bind at 1, Cpu0.getVblCount, gets at 1.
    unfold bind at 1. rewrite mem_readU32_ok by (cbn [region]; rewrite ?Hq1; offsets).
    rewrite mem_write32_ok by (cbn [region]; rewrite ?Hq1; lia).
    rewrite mem_readS32_ok by (cbn [region set_region vi_reg set_vi_reg];
                               rewrite ?store32_length, ?Hq1; lia).
    cbn [region set_region vi_reg set_vi_reg]. rewrite Hq1, Hq5, E.
    unfold currentLineOf, scanlineOf, syncValue. reflexivity.
  - unfold bind at 1, ret.
    rewrite mem_readS32_ok by (cbn [region]; rewrite ?Hq1; lia).
    cbn [region]. reflexivity.
Qed.

(** C10. A word read of the VI at an offset inside the block returns the
    stored word, signed through [readS32] and unsigned through [readU32],
    and [readU32] is [readS32] reinterpreted.  The read changes nothing in
    the register blocks, the devices or the CPU (it only logs), except at the
    current-line register, where the freshly computed line is stored in the
    block first. *)
Theorem vi_reads_have_no_side_effect (w : World) (address : Z) :
  holds_registers w ->
  0 <= calcEA (vi_rangeStart (vi w)) address ->
  calcEA (vi_rangeStart (vi w)) address + 4 <= Z.of_nat (length (vi_reg w)) ->
  exists w',
    VI.readS32 address w
    = (Ok (JS.to_int32 (word (vi_reg w') (calcEA (vi_rangeStart (vi w)) address))), w') /\
    VI.readU32 address w
    = (Ok (word (vi_reg w') (calcEA (vi_rangeStart (vi w)) address)), w') /\
    VI.readU32 address w
    = (match VI.readS32 address w with
       | (Ok v, w1) => (Ok (JS.to_uint32 v), w1)
       | (Throw e, w1) => (Throw e, w1)
       end) /\
    vi_reg w'
    = (if calcEA (vi_rangeStart (vi w)) address =? VI.VI_V_CURRENT_LINE_REG
       then store32 (vi_reg w) VI.VI_V_CURRENT_LINE_REG (currentLineOf w)
       else vi_reg w) /\
    mi_reg w' = mi_reg w /\ vi w' = vi w /\ mi w' = mi w /\
    cpu0 w' = cpu0 w /\ calls w' = calls w /\ tvType w' = tvType w.
Proof.
  intros [Hvi Hmi] H0 He.
  set (ea := calcEA (vi_rangeStart (vi w)) address) in *.
  exists (vi_read w address ea).
  pose proof (VI_readS32_in_range w address ltac:(lia) H0 He) as HS. fold ea in HS.
  split; [exact HS |].
  split; [| split; [apply VI_readU32_of_readS32 |]].
  - rewrite VI_readU32_of_readS32, HS. rewrite to_uint32_to_int32.
    rewrite to_uint32_small by apply word_range. reflexivity.
  - destruct (quietly_frame (vi_quiet (vi w)) (LogRead address) w)
      as (Hq1 & Hq2 & Hq3 & Hq4 & Hq5 & Hq6 & Hq7).
    unfold vi_read. destruct (ea =? VI.VI_V_CURRENT_LINE_REG);
      cbn [vi_reg mi_reg vi mi cpu0 calls tvType set_vi_reg];
      rewrite ?Hq1, ?Hq2, ?Hq3, ?Hq4, ?Hq5, ?Hq6, ?Hq7; repeat split; reflexivity.
Qed.

Lemma vi_reads_have_no_side_effect_witness :
  holds_registers (power_on OS_TV_NTSC) /\
  0 <= calcEA (vi_rangeStart (vi (power_on OS_TV_NTSC))) (0x04400000 + 0x30) /\
  calcEA (vi_rangeStart (vi (power_on OS_TV_NTSC))) (0x04400000 + 0x30) + 4
  <= Z.of_nat (length (vi_reg (power_on OS_TV_NTSC))) /\
  exists w',
    VI.readU32 (0x04400000 + 0x30) (power_on OS_TV_NTSC)
    = (Ok (word (vi_reg w')
             (calcEA (vi_rangeStart (vi (power_on OS_TV_NTSC))) (0x04400000 + 0x30))), w') /\
    vi_reg w' = vi_reg (power_on OS_TV_NTSC).
Proof.
  assert (H1 : holds_registers (power_on OS_TV_NTSC))
    by (unfold holds_registers; vm_compute; split; discriminate).
  assert (H2 : 0 <= calcEA (vi_rangeStart (vi (power_on OS_TV_NTSC))) (0x04400000 + 0x30))
    by (vm_compute; discriminate).
  assert (H3 : calcEA (vi_rangeStart (vi (power_on OS_TV_NTSC))) (0x04400000 + 0x30) + 4
               <= Z.of_nat (length (vi_reg (power_on OS_TV_NTSC))))
    by (vm_compute; discriminate).
  split; [exact H1 |]. split; [exact H2 |]. split; [exact H3 |].
  destruct (vi_reads_have_no_side_effect (power_on OS_TV_NTSC) (0x04400000 + 0x30) H1 H2 H3)
    as (w' & _ & HU & _ & Hreg & _).
  exists w'. split; [exact HU | exact Hreg].
Defined.

(** ** The vertical blank and the field parity *)

Lemma verticalBlank_spec (w : World) :
  holds_registers w -> VI.verticalBlank w = (Ok tt, blanked w).
Proof.
  intros [Hvi Hmi]. unfold VI.verticalBlank.
  unfold bind at 1. rewrite mem_readU32_ok by offsets.
  unfold bind at 1, modify at 1. unfold bind at 1, gets at 1.
  unfold bind at 1, Cpu0.addVblEvent, modify at 1.
  unfold bind at 1. rewrite mem_setBits32_ok by offsets.
  reflexivity.
Qed.

Lemma interlacedOf_has (w : World) :
  interlacedOf w = if has (controlReg w) VI.VI_CTRL_SERRATE_ON then 1 else 0.
Proof.
  unfold interlacedOf. change VI.VI_CTRL_SERRATE_ON with (2 ^ 6).
  rewrite truthy_and_bit, has_pow2 by lia. reflexivity.
Qed.

Lemma field_blanked (w : World) :
  parity_bit w ->
  field (vi (blanked w))
  = (if has (controlReg w) VI.VI_CTRL_SERRATE_ON then 1 - field (vi w) else field (vi w)).
Proof.
  intros Hp. unfold blanked. cbn [vi add_call set_mi_reg set_cpu0 set_vi set_field field].
  rewrite interlacedOf_has.
  destruct (has (controlReg w) VI.VI_CTRL_SERRATE_ON); destruct Hp as [-> | ->]; reflexivity.
Qed.

(** Bit 0 of the computed line is the field parity. *)
Lemma currentLineOf_bit0 (w : World) :
  parity_bit w -> Z.land (JS.to_uint32 (currentLineOf w)) 1 = field (vi w).
Proof.
  intros Hp. apply Z.bits_inj'. intros i Hi.
  rewrite Z.land_spec. change 1 with (2 ^ 0) at 1. rewrite Z.pow2_bits_eqb by lia.
  destruct (Z.eqb_spec 0 i) as [<- | Hne].
  - rewrite andb_true_r. unfold currentLineOf.
    rewrite to_uint32_bits, or_bits, and_bits, not_bits by lia.
    cbn [Z.min Z.compare Z.ltb andb]. rewrite andb_true_r.
    change (Z.testbit 1 0) with true. cbn [negb]. rewrite andb_false_r. reflexivity.
  - rewrite andb_false_r. destruct Hp as [-> | ->].
    + rewrite Z.bits_0. reflexivity.
    + change 1 with (2 ^ 0). rewrite Z.pow2_bits_false by lia. reflexivity.
Qed.

Lemma kept_refl (w : World) : kept w w.
Proof. unfold kept. tauto. Qed.

Lemma kept_trans (w1 w2 w3 : World) : kept w1 w2 -> kept w2 w3 -> kept w1 w3.
Proof.
  unfold kept. intros (A1 & A2 & A3 & A4 & A5 & A6) (B1 & B2 & B3 & B4 & B5 & B6).
  repeat split; congruence.
Qed.

Lemma kept_quietly (quiet : bool) (l : LogMsg) (w : World) : kept w (quietly quiet l w).
Proof. unfold kept, quietly. destruct quiet; cbn; tauto. Qed.

Lemma kept_add_log (l : LogMsg) (w : World) : kept w (add_log l w).
Proof. unfold kept. cbn. tauto. Qed.

Lemma kept_add_call (c : Call) (w : World) : kept w (add_call c w).
Proof. unfold kept. cbn. tauto. Qed.

Lemma kept_set_cpu0 (c : Cpu) (w : World) : kept w (set_cpu0 c w).
Proof. unfold kept. cbn. tauto. Qed.

Lemma kept_store_vi (w : World) (o v : Z) : kept w (set_vi_reg (store32 (vi_reg w) o v) w).
Proof. unfold kept. cbn. rewrite store32_length. tauto. Qed.

Lemma kept_store_mi (w : World) (o v : Z) : kept w (set_mi_reg (store32 (mi_reg w) o v) w).
Proof. unfold kept. cbn. rewrite store32_length. tauto. Qed.

Lemma kept_armed (w : World) : kept w (armed w).
Proof.
  unfold armed. destruct (vblEvent (cpu0 w)); [apply kept_refl |].
  destruct (syncValue w <=? interruptLine w); [apply kept_add_log |].
  unfold kept. cbn. tauto.
Qed.

Lemma kept_retimed (w : World) (V : Z) : kept w (retimed w V).
Proof. unfold kept, retimed. cbn. rewrite store32_length. tauto. Qed.

Lemma kept_acknowledged (w : World) (value : Z) : kept w (acknowledged w value).
Proof.
  unfold acknowledged.
  destruct (quietly_frame (vi_quiet (vi w)) (LogViCurrent value) w)
    as (A1 & A2 & A3 & _ & _ & _ & A7).
  destruct (quietly_frame (vi_quiet (vi w)) LogViIntrCleared
              (quietly (vi_quiet (vi w)) (LogViCurrent value) w))
    as (B1 & B2 & B3 & _ & _ & _ & B7).
  unfold kept. cbn [vi_reg mi_reg vi tvType add_call set_mi_reg].
  rewrite store32_length, B1, A1, B3, A3, B7, A7. tauto.
Qed.

Lemma kept_mask_written (w : World) (value : Z) : kept w (mask_written w value).
Proof.
  unfold mask_written.
  destruct (quietly_frame (mi_quiet (mi w)) (LogMiIntrMask value) w)
    as (A1 & A2 & A3 & _ & _ & _ & A7).
  unfold kept.
  destruct (JS.truthy _); cbn [vi_reg mi_reg vi tvType add_call set_mi_reg];
    rewrite store32_length, A1, A3, A7; tauto.
Qed.

Lemma kept_mode_written (w : World) (value : Z) : kept w (mode_written w value).
Proof.
  unfold mode_written.
  destruct (quietly_frame (mi_quiet (mi w)) (LogMiMode value) w)
    as (A1 & A2 & A3 & _ & _ & _ & A7).
  unfold kept.
  destruct (JS.truthy _); cbn [vi_reg mi_reg vi tvType add_call set_mi_reg];
    rewrite ?store32_length, A1, A3, A7; tauto.
Qed.

Lemma kept_VI_write32 (w : World) (address value : Z) :
  holds_registers w -> kept w (run (VI.write32 address value) w).
Proof.
  intros [Hvi Hmi]. unfold run.
  destruct (Z_lt_le_dec (Z.of_nat (length (vi_reg w)))
              (calcEA (vi_rangeStart (vi w)) address + 4)) as [Hout | Hin].
  { rewrite VI_write32_out_of_range by exact Hout. apply kept_refl. }
  rewrite VI_write32_in_range by lia.
  set (ea := calcEA (vi_rangeStart (vi w)) address) in *.
  destruct (ea =? VI.VI_V_INTR_REG).
  { cbn [snd]. eapply kept_trans; [| apply kept_armed].
    eapply kept_trans; [apply kept_quietly |].
    destruct (quietly_frame (vi_quiet (vi w)) (LogViIntr value) w) as (A1 & _).
    rewrite <- A1. apply kept_store_vi. }
  destruct (ea =? VI.VI_V_CURRENT_LINE_REG); [apply kept_acknowledged |].
  destruct (ea =? VI.VI_V_SYNC_REG).
  { cbn [snd]. destruct (syncValue w =? value); [apply kept_refl |].
    eapply kept_trans; [apply kept_retimed | apply kept_armed]. }
  cbv zeta.
  assert (Hw1 : forall w1, kept w w1 -> vi_reg w1 = vi_reg w ->
            kept w (snd (if 0 <=? ea
                         then (Ok tt, set_vi_reg (store32 (vi_reg w) ea value) w1)
                         else (Throw RangeError, w1)))).
  { intros w1 K E. destruct (0 <=? ea); cbn [snd]; [| exact K].
    eapply kept_trans; [exact K |]. rewrite <- E. apply kept_store_vi. }
  destruct (ea =? VI.VI_CONTROL_REG).
  { apply Hw1; [apply kept_quietly | apply quietly_frame]. }
  destruct (ea =? VI.VI_H_WIDTH_REG).
  { apply Hw1; [apply kept_quietly | apply quietly_frame]. }
  apply Hw1; [apply kept_refl | reflexivity].
Qed.

Lemma kept_MI_write32 (w : World) (address value : Z) :
  holds_registers w -> kept w (run (MI.write32 address value) w).
Proof.
  intros [Hvi Hmi]. unfold run.
  destruct (Z_lt_le_dec (Z.of_nat (length (mi_reg w)))
              (calcEA (mi_rangeStart (mi w)) address + 4)) as [Hout | Hin].
  { rewrite MI_write32_out_of_range by exact Hout. apply kept_refl. }
  rewrite MI_write32_in_range by lia.
  set (ea := calcEA (mi_rangeStart (mi w)) address) in *.
  destruct (ea =? MI.MI_MODE_REG); [apply kept_mode_written |].
  destruct (ea =? MI.MI_INTR_MASK_REG); [apply kept_mask_written |].
  destruct ((ea =? MI.MI_VERSION_REG) || (ea =? MI.MI_INTR_REG)); [apply kept_refl |].
  destruct (0 <=? ea); cbn [snd]; [| apply kept_add_log].
  eapply kept_trans; [apply kept_add_log |].
  apply (kept_store_mi (add_log (LogMiUnhandled value address) w)).
Qed.

Lemma kept_VI_readU32 (w : World) (address : Z) :
  holds_registers w -> kept w (run (VI.readU32 address) w).
Proof.
  intros [Hvi Hmi]. unfold run.
  assert (HS : kept w (snd (VI.readS32 address w))).
  { destruct (Z_lt_le_dec (Z.of_nat (length (vi_reg w)))
                (calcEA (vi_rangeStart (vi w)) address + 4)) as [Hout | Hin].
    { rewrite VI_readS32_out_of_range by exact Hout. apply kept_quietly. }
    destruct (Z_lt_le_dec (calcEA (vi_rangeStart (vi w)) address) 0) as [Hneg | Hpos].
    - unfold VI.readS32, bind at 1, gets at 1.
      destruct (quietly_frame (vi_quiet (vi w)) (LogRead address) w) as (Hq & _).
      unfold bind at 1, logRead. rewrite unless_quiet_spec.
      unfold bind at 1, u8_length, gets at 1. cbn [region]. rewrite Hq.
      replace (_ <? _) with false by (symmetry; apply Z.ltb_ge; exact Hin).
      replace (_ =? VI.VI_V_CURRENT_LINE_REG) with false
        by (symmetry; apply Z.eqb_neq; unfold VI.VI_V_CURRENT_LINE_REG; lia).
      unfold bind at 1, ret.
      rewrite mem_readS32_fail by (left; exact Hneg). apply kept_quietly.
    - rewrite VI_readS32_in_range by lia. cbn [snd]. unfold vi_read.
      destruct (_ =? VI.VI_V_CURRENT_LINE_REG); [| apply kept_quietly].
      eapply kept_trans; [apply kept_quietly |].
      destruct (quietly_frame (vi_quiet (vi w)) (LogRead address) w) as (A1 & _).
      rewrite <- A1. apply kept_store_vi. }
  rewrite VI_readU32_of_readS32.
  destruct (VI.readS32 address w) as [[v | e] w']; exact HS.
Qed.

Lemma kept_MI_readU32 (w : World) (address : Z) : kept w (run (MI.readU32 address) w).
Proof.
  unfold run, MI.readU32, bind at 1, gets at 1.
  unfold bind at 1, logRead. rewrite unless_quiet_spec.
  unfold bind at 1, u8_length, gets at 1.
  destruct (_ <? _); [apply kept_quietly |].
  unfold mem_readU32, lift_read. destruct (Mem.readU32 _ _); apply kept_quietly.
Qed.

Lemma step_kept (op : Op) (w : World) :
  holds_registers w ->
  match op with
  | VerticalBlank => step op w = blanked w
  | _ => kept w (step op w)
  end.
Proof.
  intros H. destruct op; cbn [step].
  - apply kept_VI_write32, H.
  - apply kept_VI_readU32, H.
  - apply kept_MI_write32, H.
  - apply kept_MI_readU32.
  - unfold run. rewrite setInterruptBit_spec by (destruct H; lia). cbn [snd].
    eapply kept_trans; [apply kept_store_mi | apply kept_add_call].
  - unfold run. rewrite verticalBlank_spec by exact H. reflexivity.
  - apply kept_set_cpu0.
Qed.

Lemma blanked_kept (w : World) :
  length (vi_reg (blanked w)) = length (vi_reg w) /\
  length (mi_reg (blanked w)) = length (mi_reg w) /\
  clock (vi (blanked w)) = clock (vi w) /\
  refreshRate (vi (blanked w)) = refreshRate (vi w) /\
  tvType (blanked w) = tvType w.
Proof. unfold blanked. cbn. rewrite store32_length. tauto. Qed.

Lemma step_invariant (op : Op) (w : World) :
  holds_registers w -> parity_bit w ->
  holds_registers (step op w) /\ parity_bit (step op w) /\
  (configured w -> configured (step op w)) /\
  (if has (controlReg w) VI.VI_CTRL_SERRATE_ON then True
   else field (vi (step op w)) = field (vi w)).
Proof.
  intros H Hp. pose proof (step_kept op w H) as K.
  assert (Hb : holds_registers (blanked w) /\ parity_bit (blanked w) /\
               (configured w -> configured (blanked w)) /\
               (if has (controlReg w) VI.VI_CTRL_SERRATE_ON then True
                else field (vi (blanked w)) = field (vi w))).
  { destruct (blanked_kept w) as (L1 & L2 & C1 & C2 & C3). destruct H as [H1 H2].
    split; [unfold holds_registers; rewrite L1, L2; tauto |].
    split; [| split; [unfold configured; rewrite C1, C2, C3; tauto |]].
    - unfold parity_bit. rewrite (field_blanked w Hp).
      destruct (has (controlReg w) VI.VI_CTRL_SERRATE_ON); [| exact Hp].
      destruct Hp as [-> | ->]; cbn; tauto.
    - rewrite (field_blanked w Hp).
      destruct (has (controlReg w) VI.VI_CTRL_SERRATE_ON); [exact I | reflexivity]. }
  assert (Hk : forall w', kept w w' ->
            holds_registers w' /\ parity_bit w' /\
            (configured w -> configured w') /\
            (if has (controlReg w) VI.VI_CTRL_SERRATE_ON then True
             else field (vi w') = field (vi w))).
  { intros w' (L1 & L2 & F & C1 & C2 & C3). destruct H as [H1 H2].
    split; [unfold holds_registers; rewrite L1, L2; tauto |].
    split; [unfold parity_bit; rewrite F; exact Hp |].
    split; [unfold configured; rewrite C1, C2, C3; tauto |].
    destruct (has (controlReg w) VI.VI_CTRL_SERRATE_ON); [exact I | exact F]. }
  destruct op; try (apply Hk; exact K).
  rewrite K. exact Hb.
Qed.

Lemma exec_invariant (ops : list Op) : forall w,
  holds_registers w -> parity_bit w ->
  holds_registers (exec ops w) /\ parity_bit (exec ops w) /\
  (configured w -> configured (exec ops w)) /\
  (if serrate_off ops w then field (vi (exec ops w)) = field (vi w) else True).
Proof.
  induction ops as [| op ops IH]; intros w H Hp; cbn [exec serrate_off].
  - tauto.
  - destruct (step_invariant op w H Hp) as (H' & Hp' & C & F).
    destruct (IH (step op w) H' Hp') as (H'' & Hp'' & C' & F').
    split; [exact H'' |]. split; [exact Hp'' |]. split; [tauto |].
    destruct (has (controlReg w) VI.VI_CTRL_SERRATE_ON); cbn [negb andb]; [exact I |].
    destruct (serrate_off ops (step op w)); [congruence | exact I].
Qed.

(** X23. Every state the console reaches from power-on, by any sequence of
    register accesses, raised interrupts, vertical blanks and progress of
    the CPU, has register blocks that hold the registers, the clock and
    refresh rate of its television standard, and a one-bit field parity. *)
Lemma reachable_invariant (tv : TvType) (ops : list Op) :
  holds_registers (exec ops (power_on tv)) /\
  configured (exec ops (power_on tv)) /\
  parity_bit (exec ops (power_on tv)).
Proof.
  assert (H : holds_registers (power_on tv))
    by (unfold holds_registers; vm_compute; split; discriminate).
  assert (Hp : parity_bit (power_on tv)) by (left; reflexivity).
  assert (Hc : configured (power_on tv)) by (split; reflexivity).
  destruct (exec_invariant ops (power_on tv) H Hp) as (A & B & C & _).
  split; [exact A |]. split; [apply C, Hc | exact B].
Qed.

Lemma land1_to_int32 (y : Z) : Z.land (JS.to_int32 y) 1 = Z.land y 1.
Proof.
  apply Z.bits_inj'. intros i Hi. rewrite !Z.land_spec.
  destruct (Z.eq_dec i 0) as [-> | Hne].
  - rewrite to_int32_bits by lia. reflexivity.
  - change 1 with (2 ^ 0). rewrite Z.pow2_bits_false by lia. rewrite !andb_false_r. reflexivity.
Qed.

(** C5, as the code has it.  A vertical blank toggles the field parity
    when the serrate bit of the control register is set and leaves it as it
    is otherwise.  Bit 0 of a current-line read is the field parity.  While
    interlaced output stays off the parity keeps its value through any
    sequence of accesses and vertical blanks. *)
Theorem field_parity_follows_serrate (w : World) (ops : list Op) :
  holds_registers w -> parity_bit w ->
  (exists w',
     VI.verticalBlank w = (Ok tt, w') /\
     field (vi w')
     = (if has (controlReg w) VI.VI_CTRL_SERRATE_ON then 1 - field (vi w) else field (vi w)) /\
     parity_bit w') /\
  (exists v w',
     VI.readS32 (vi_rangeStart (vi w) + VI.VI_V_CURRENT_LINE_REG) w = (Ok v, w') /\
     VI.readU32 (vi_rangeStart (vi w) + VI.VI_V_CURRENT_LINE_REG) w
     = (Ok (JS.to_uint32 v), w') /\
     Z.land v 1 = field (vi w) /\ Z.land (JS.to_uint32 v) 1 = field (vi w) /\
     field (vi w') = field (vi w)) /\
  parity_bit (exec ops w) /\
  (if serrate_off ops w then field (vi (exec ops w)) = field (vi w) else True).
Proof.
  intros H Hp. pose proof H as [Hvi Hmi].
  split; [| split].
  - exists (blanked w). split; [apply verticalBlank_spec, H |].
    split; [apply field_blanked, Hp |].
    unfold parity_bit. rewrite (field_blanked w Hp).
    destruct (has (controlReg w) VI.VI_CTRL_SERRATE_ON); [| exact Hp].
    destruct Hp as [-> | ->]; cbn; tauto.
  - pose proof (VI_readS32_in_range w (vi_rangeStart (vi w) + VI.VI_V_CURRENT_LINE_REG)) as HS.
    cbv zeta in HS. rewrite calcEA_offset in HS.
    specialize (HS ltac:(lia) ltac:(offsets) ltac:(offsets)).
    assert (Hword : word (vi_reg (vi_read w (vi_rangeStart (vi w) + VI.VI_V_CURRENT_LINE_REG)
                                    VI.VI_V_CURRENT_LINE_REG)) VI.VI_V_CURRENT_LINE_REG
                    = JS.to_uint32 (currentLineOf w)).
    { unfold vi_read. rewrite Z.eqb_refl. cbn [vi_reg set_vi_reg].
      apply word_store32_eq; offsets. }
    rewrite Hword in HS.
    eexists. eexists. split; [exact HS |].
    split; [rewrite VI_readU32_of_readS32, HS; reflexivity |].
    rewrite to_uint32_to_int32, land1_to_int32.
    rewrite (to_uint32_small (JS.to_uint32 _)) by apply to_uint32_range.
    split; [apply currentLineOf_bit0, Hp |]. split; [apply currentLineOf_bit0, Hp |].
    unfold vi_read. rewrite Z.eqb_refl. cbn [vi set_vi_reg].
    destruct (quietly_frame (vi_quiet (vi w))
                (LogRead (vi_rangeStart (vi w) + VI.VI_V_CURRENT_LINE_REG)) w)
      as (_ & _ & -> & _).
    reflexivity.
  - destruct (exec_invariant ops w H Hp) as (_ & Hp' & _ & F). split; [exact Hp' | exact F].
Qed.

Lemma field_parity_follows_serrate_witness :
  holds_registers interlace_turned_off /\ parity_bit interlace_turned_off /\
  (exists w',
     VI.verticalBlank interlace_turned_off = (Ok tt, w') /\
     field (vi w')
     = (if has (controlReg interlace_turned_off) VI.VI_CTRL_SERRATE_ON
        then 1 - field (vi interlace_turned_off) else field (vi interlace_turned_off)) /\
     parity_bit w') /\
  field (vi (exec [VerticalBlank; VerticalBlank; VerticalBlank] interlace_turned_off))
  = field (vi interlace_turned_off).
Proof.
  assert (H1 : holds_registers interlace_turned_off)
    by (unfold holds_registers; vm_compute; split; discriminate).
  assert (H2 : parity_bit interlace_turned_off) by (right; vm_compute; reflexivity).
  split; [exact H1 |]. split; [exact H2 |].
  destruct (field_parity_follows_serrate interlace_turned_off
              [VerticalBlank; VerticalBlank; VerticalBlank] H1 H2) as (A & _ & _ & B).
  split; [exact A |].
  replace (serrate_off [VerticalBlank; VerticalBlank; VerticalBlank] interlace_turned_off)
    with true in B by (vm_compute; reflexivity).
  exact B.
Defined.

(** C5: with interlaced output turned off after an odd field, the vertical
    blank leaves the parity at 1 and the current line reads with bit 0 set. *)
Lemma parity_not_cleared_when_interlace_off :
  has (controlReg interlace_turned_off) VI.VI_CTRL_SERRATE_ON = false /\
  exists w',
    VI.verticalBlank interlace_turned_off = (Ok tt, w') /\
    field (vi w') = 1 /\ field (vi w') <> 0 /\
    exists v w'',
      VI.readU32 (0x04400000 + VI.VI_V_CURRENT_LINE_REG) w' = (Ok v, w'') /\
      Z.land v 1 = 1 /\ Z.land v 1 <> 0.
Proof.
  split; [vm_compute; reflexivity |].
  eexists. split; [vm_compute; reflexivity |].
  split; [vm_compute; reflexivity |]. split; [vm_compute; discriminate |].
  eexists. eexists. split; [vm_compute; reflexivity |].
  split; [vm_compute; reflexivity | vm_compute; discriminate].
Qed.

(** ** More binary64 arithmetic: differences and quotients of integers *)

(** An integer below 2^53 given with trailing zero bits normalises to the
    same binary64 value. *)
Lemma normalize_scaled (D k : Z) :
  0 < D < 2 ^ 53 -> 0 <= k ->
  binary_normalize JS.prec JS.emax (D * 2 ^ k) (- k) false = JS.of_Z D.
Proof.
  intros HD Hk. rewrite (of_Z_pos D HD).
  destruct (mant_spec D HD) as (Hm & Hd & Hdd).
  assert (Hpos : 0 < D * 2 ^ k) by (pose proof (Z.pow_pos_nonneg 2 k); nia).
  destruct (D * 2 ^ k) as [| p | p] eqn:Ep; try lia.
  unfold binary_normalize, binary_round.
  change (Zpos (digits2_pos p)) with (Zdigits2 (Zpos p)).
  rewrite <- Ep, Zdigits2_mul_pow2 by lia.
  replace (Zdigits2 D + k + - k) with (Zdigits2 D) by lia.
  assert (Hf : fexp JS.prec JS.emax (Zdigits2 D) = Zdigits2 D - JS.prec).
  { unfold fexp, emin, JS.prec, JS.emax. lia. }
  rewrite Hf. unfold shl_align.
  destruct (Zdigits2 D - JS.prec - - k) as [| q | q] eqn:E.
  - rewrite <- Ep.
    pose proof (binary_round_aux_exact false (mant D) 0 (- k) Hd) as H.
    rewrite Z.mul_1_r, Z.sub_0_r in H.
    replace (Zdigits2 D - JS.prec) with (- k) by lia.
    replace (D * 2 ^ k) with (Zpos (mant D)).
    + apply H; unfold JS.prec in *; lia.
    + rewrite Hm. f_equal. f_equal. lia.
  - rewrite <- Ep.
    pose proof (binary_round_aux_exact false (mant D) (Zpos q) (Zdigits2 D - JS.prec) Hd) as H.
    replace (Zdigits2 D - JS.prec - Zpos q) with (- k) in H by lia.
    replace (D * 2 ^ k) with (Zpos (mant D) * 2 ^ Zpos q).
    + apply H; unfold JS.prec in *; lia.
    + rewrite Hm. rewrite <- Z.mul_assoc, <- Z.pow_add_r by (unfold JS.prec in *; lia).
      f_equal. f_equal. lia.
  - assert (Hmp : Pos.iter xO p q = mant D).
    { apply Pos2Z.inj. rewrite Pos_iter_xO, <- Ep, Hm.
      rewrite <- Z.mul_assoc, <- Z.pow_add_r by lia. f_equal. f_equal. lia. }
    rewrite Hmp.
    pose proof (binary_round_aux_exact false (mant D) 0 (Zdigits2 D - JS.prec) Hd) as H.
    rewrite Z.mul_1_r, Z.sub_0_r in H. apply H; unfold JS.prec in *; lia.
Qed.

(** The difference of two integers below 2^53 is exact. *)
Lemma sub_of_Z (a b : Z) :
  0 <= b <= a -> a < 2 ^ 53 -> JS.sub (JS.of_Z a) (JS.of_Z b) = JS.of_Z (a - b).
Proof.
  intros Hab Ha.
  destruct (Z.eq_dec b 0) as [-> | Hb].
  { rewrite Z.sub_0_r. destruct (Z.eq_dec a 0) as [-> | Hna]; [reflexivity |].
    rewrite (of_Z_pos a) by lia. reflexivity. }
  rewrite (of_Z_pos a), (of_Z_pos b) by lia.
  destruct (mant_spec a) as (Hma & Hda & Hda'); [lia |].
  destruct (mant_spec b) as (Hmb & Hdb & Hdb'); [lia |].
  assert (Hdd : Zdigits2 b <= Zdigits2 a).
  { apply Zdigits2_le; [lia |]. destruct (Zdigits2_bounds a) as [_ H]; lia. }
  unfold JS.sub, SFsub. cbn [cond_Zopp].
  rewrite Z.min_r by lia.
  unfold shl_align at 2. rewrite Z.sub_diag. cbn [fst].
  assert (Hfst : Zpos (fst (shl_align (mant a) (Zdigits2 a - JS.prec) (Zdigits2 b - JS.prec)))
                 = a * 2 ^ (JS.prec - Zdigits2 b)).
  { unfold shl_align.
    destruct (Zdigits2 b - JS.prec - (Zdigits2 a - JS.prec)) as [| q | q] eqn:E; cbn [fst].
    - rewrite Hma. f_equal. f_equal. lia.
    - lia.
    - rewrite Pos_iter_xO, Hma, <- Z.mul_assoc, <- Z.pow_add_r by (unfold JS.prec in *; lia).
      f_equal. f_equal. lia. }
  rewrite Hfst, Hmb.
  replace (a * 2 ^ (JS.prec - Zdigits2 b) - b * 2 ^ (JS.prec - Zdigits2 b))
    with ((a - b) * 2 ^ (JS.prec - Zdigits2 b)) by ring.
  destruct (Z.eq_dec a b) as [-> | Hne].
  { rewrite Z.sub_diag. reflexivity. }
  replace (Zdigits2 b - JS.prec) with (- (JS.prec - Zdigits2 b)) by lia.
  apply normalize_scaled; unfold JS.prec in *; lia.
Qed.

(** The truncated quotient of two integers is their integer quotient. *)
Lemma trunc_div_integers (a s : Z) :
  0 <= a < 2 ^ 50 -> 0 < s < 2 ^ 53 ->
  JS.trunc (JS.div (JS.of_Z a) (JS.of_Z s)) = a / s.
Proof.
  intros Ha Hs.
  destruct (Z.eq_dec a 0) as [-> | Hna].
  { rewrite (of_Z_pos s Hs). reflexivity. }
  assert (Ha53 : 0 < a < 2 ^ 53) by lia.
  rewrite (of_Z_pos a Ha53).
  destruct (mant_spec a Ha53) as (Hm & Hd & Hda).
  assert (Hd50 : Zdigits2 a <= 50) by (apply Zdigits2_le; lia).
  set (K := a / s).
  assert (HK0 : 0 <= K) by (apply Z.div_pos; lia).
  assert (HKs : s * K <= a) by (apply Z.mul_div_le; lia).
  assert (HKn : a < s * Z.succ K) by (apply Z.mul_succ_div_gt; lia).
  assert (Hp : 8 <= 2 ^ (- (Zdigits2 a - JS.prec))).
  { change 8 with (2 ^ 3). apply Z.pow_le_mono_r; unfold JS.prec; lia. }
  apply trunc_div_of_Z; try assumption; try (unfold JS.prec in *; lia).
  - rewrite Hm. replace (JS.prec - Zdigits2 a) with (- (Zdigits2 a - JS.prec)) by lia. nia.
  - rewrite Hm. replace (JS.prec - Zdigits2 a) with (- (Zdigits2 a - JS.prec)) by lia. nia.
Qed.

(** Dividing by zero gives no finite value, and [>> 0] makes it 0. *)
Lemma ToInt32_div_zero (x : JS.number) : JS.ToInt32 (JS.div x (JS.of_Z 0)) = 0.
Proof. destruct x as [s | s | | s m e]; reflexivity. Qed.

(** ** More on the registers of the MI *)

Lemma uint32_and_not (x b : Z) :
  0 <= x < 2 ^ 32 -> JS.to_uint32 (JS.and x (JS.not b)) = Z.land x (Z.lnot b).
Proof.
  intros Hx. apply Z.bits_inj'. intros i Hi.
  rewrite to_uint32_bits, and_bits, not_bits by lia.
  rewrite min31_idem, Z.land_spec, Z.lnot_spec by lia.
  destruct (Z.ltb_spec i 32).
  - rewrite Z.min_l by lia. apply andb_true_r.
  - rewrite andb_false_r. rewrite (bits_above x 32 i) by lia. reflexivity.
Qed.

Lemma uint32_or (x b : Z) :
  0 <= x < 2 ^ 32 -> 0 <= b < 2 ^ 32 -> JS.to_uint32 (JS.or x b) = Z.lor x b.
Proof.
  intros Hx Hb. apply Z.bits_inj'. intros i Hi.
  rewrite to_uint32_bits, or_bits, Z.lor_spec by lia.
  destruct (Z.ltb_spec i 32).
  - rewrite Z.min_l by lia. apply andb_true_r.
  - rewrite andb_false_r. rewrite (bits_above x 32 i), (bits_above b 32 i) by lia. reflexivity.
Qed.

Lemma mode_written_frame (w : World) (value : Z) :
  vi_reg (mode_written w value) = vi_reg w /\ vi (mode_written w value) = vi w /\
  mi (mode_written w value) = mi w /\ cpu0 (mode_written w value) = cpu0 w /\
  tvType (mode_written w value) = tvType w /\
  calls (mode_written w value)
  = (if Z.testbit value 11 then calls w ++ [UpdateCause3] else calls w).
Proof.
  destruct (quietly_frame (mi_quiet (mi w)) (LogMiMode value) w)
    as (Q1 & Q2 & Q3 & Q4 & Q5 & Q6 & Q7).
  unfold mode_written. change MI.MI_CLR_DP_INTR with (2 ^ 11).
  rewrite truthy_and_bit by lia.
  destruct (Z.testbit value 11);
    cbn [vi_reg vi mi cpu0 tvType calls add_call set_mi_reg];
    rewrite ?Q1, ?Q3, ?Q4, ?Q5, ?Q6, ?Q7; repeat split; reflexivity.
Qed.

Lemma interruptPending_mode_written (w : World) (value : Z) :
  0x10 <= Z.of_nat (length (mi_reg w)) ->
  interruptPending (mode_written w value)
  = (if Z.testbit value 11
     then Z.land (interruptPending w) (Z.lnot MI.MI_INTR_DP)
     else interruptPending w).
Proof.
  intros Hl.
  destruct (quietly_frame (mi_quiet (mi w)) (LogMiMode value) w) as (_ & Q2 & _).
  unfold mode_written. change MI.MI_CLR_DP_INTR with (2 ^ 11).
  rewrite truthy_and_bit by lia.
  assert (E : interruptPending
                (set_mi_reg (store32 (mi_reg w) MI.MI_MODE_REG (MI.mode_bits value (modeBits w)))
                   (quietly (mi_quiet (mi w)) (LogMiMode value) w)) = interruptPending w).
  { unfold interruptPending. cbn [mi_reg set_mi_reg]. apply word_store32_ne. offsets. }
  destruct (Z.testbit value 11); [| exact E].
  rewrite E. unfold interruptPending at 1. cbn [mi_reg add_call set_mi_reg].
  rewrite word_store32_eq by offsets.
  apply uint32_and_not, word_range.
Qed.

Lemma others_mode_written (w : World) (value : Z) :
  0x10 <= Z.of_nat (length (mi_reg w)) ->
  interruptMask (mode_written w value) = interruptMask w /\
  word (mi_reg (mode_written w value)) MI.MI_VERSION_REG = word (mi_reg w) MI.MI_VERSION_REG.
Proof.
  intros Hl. unfold mode_written, interruptMask.
  destruct (JS.truthy _); cbn [mi_reg add_call set_mi_reg];
    rewrite ?word_store32_ne by offsets; split; reflexivity.
Qed.

Lemma others_mask_written (w : World) (value : Z) :
  0x10 <= Z.of_nat (length (mi_reg w)) ->
  interruptPending (mask_written w value) = interruptPending w /\
  modeBits (mask_written w value) = modeBits w /\
  word (mi_reg (mask_written w value)) MI.MI_VERSION_REG = word (mi_reg w) MI.MI_VERSION_REG.
Proof.
  intros Hl. unfold mask_written, interruptPending, modeBits.
  destruct (JS.truthy _); cbn [mi_reg add_call set_mi_reg];
    rewrite ?word_store32_ne by offsets; repeat split; reflexivity.
Qed.

(** X1. A write to one of the four registers of the MI never raises a
    pending interrupt and never changes the version: at most it clears the
    DP bit of the pending vector.  A write to the version or to the
    pending-interrupt register changes nothing at all, not even the log. *)
Theorem mi_register_writes_never_raise (w : World) (address value : Z) :
  holds_registers w ->
  In (calcEA (mi_rangeStart (mi w)) address) mi_registers ->
  exists w',
    MI.write32 address value w = (Ok tt, w') /\
    word (mi_reg w') MI.MI_VERSION_REG = word (mi_reg w) MI.MI_VERSION_REG /\
    (forall i, 0 <= i ->
       Z.testbit (interruptPending w') i
       = Z.testbit (interruptPending w) i
         && negb ((i =? 5) && (calcEA (mi_rangeStart (mi w)) address =? MI.MI_MODE_REG)
                  && Z.testbit value 11)) /\
    (if (calcEA (mi_rangeStart (mi w)) address =? MI.MI_VERSION_REG)
        || (calcEA (mi_rangeStart (mi w)) address =? MI.MI_INTR_REG)
     then w' = w else True).
Proof.
  intros [Hvi Hmi] Hin.
  pose proof (MI_write32_in_range w address value Hmi) as HW. cbv zeta in HW.
  set (ea := calcEA (mi_rangeStart (mi w)) address) in *.
  cbn [In mi_registers] in Hin.
  destruct Hin as [E | [E | [E | [E | []]]]]; rewrite <- E in *; clear E;
    (rewrite HW by offsets; clear HW).
  - change (MI.MI_MODE_REG =? MI.MI_MODE_REG) with true.
    change (MI.MI_MODE_REG =? MI.MI_VERSION_REG) with false.
    change (MI.MI_MODE_REG =? MI.MI_INTR_REG) with false. cbv iota. cbn [orb].
    exists (mode_written w value). split; [reflexivity |].
    destruct (others_mode_written w value Hmi) as [_ Hv]. split; [exact Hv |].
    split; [| exact I].
    intros i Hi. rewrite interruptPending_mode_written by exact Hmi.
    rewrite andb_true_r.
    destruct (Z.testbit value 11).
    + rewrite Z.land_spec, Z.lnot_spec by lia. change MI.MI_INTR_DP with (2 ^ 5).
      rewrite Z.pow2_bits_eqb by lia. rewrite andb_true_r, (Z.eqb_sym 5 i). reflexivity.
    + rewrite andb_false_r. cbn [negb]. rewrite andb_true_r. reflexivity.
  - change (MI.MI_VERSION_REG =? MI.MI_MODE_REG) with false.
    change (MI.MI_VERSION_REG =? MI.MI_INTR_MASK_REG) with false.
    change (MI.MI_VERSION_REG =? MI.MI_VERSION_REG) with true. cbv iota. cbn [orb].
    exists w. split; [reflexivity |]. split; [reflexivity |]. split; [| reflexivity].
    intros i Hi. rewrite andb_false_r. cbn [andb negb]. rewrite andb_true_r. reflexivity.
  - change (MI.MI_INTR_REG =? MI.MI_MODE_REG) with false.
    change (MI.MI_INTR_REG =? MI.MI_INTR_MASK_REG) with false.
    change (MI.MI_INTR_REG =? MI.MI_VERSION_REG) with false.
    change (MI.MI_INTR_REG =? MI.MI_INTR_REG) with true. cbv iota. cbn [orb].
    exists w. split; [reflexivity |]. split; [reflexivity |]. split; [| reflexivity].
    intros i Hi. rewrite andb_false_r. cbn [andb negb]. rewrite andb_true_r. reflexivity.
  - change (MI.MI_INTR_MASK_REG =? MI.MI_MODE_REG) with false.
    change (MI.MI_INTR_MASK_REG =? MI.MI_INTR_MASK_REG) with true.
    change (MI.MI_INTR_MASK_REG =? MI.MI_VERSION_REG) with false.
    change (MI.MI_INTR_MASK_REG =? MI.MI_INTR_REG) with false. cbv iota. cbn [orb].
    exists (mask_written w value). split; [reflexivity |].
    destruct (others_mask_written w value Hmi) as (Hp & _ & Hv). split; [exact Hv |].
    split; [| exact I].
    intros i Hi. rewrite Hp, andb_false_r. cbn [andb negb]. rewrite andb_true_r. reflexivity.
Qed.

Lemma mi_register_writes_never_raise_witness :
  holds_registers first_blank /\
  In (calcEA (mi_rangeStart (mi first_blank)) (0x04300000 + 0x08)) mi_registers /\
  exists w',
    MI.write32 (0x04300000 + 0x08) 0 first_blank = (Ok tt, w') /\
    word (mi_reg w') MI.MI_VERSION_REG = word (mi_reg first_blank) MI.MI_VERSION_REG /\
    (forall i, 0 <= i ->
       Z.testbit (interruptPending w') i
       = Z.testbit (interruptPending first_blank) i
         && negb ((i =? 5)
                  && (calcEA (mi_rangeStart (mi first_blank)) (0x04300000 + 0x08)
                      =? MI.MI_MODE_REG)
                  && Z.testbit 0 11)) /\
    (if (calcEA (mi_rangeStart (mi first_blank)) (0x04300000 + 0x08) =? MI.MI_VERSION_REG)
        || (calcEA (mi_rangeStart (mi first_blank)) (0x04300000 + 0x08) =? MI.MI_INTR_REG)
     then w' = first_blank else True).
Proof.
  assert (H1 : holds_registers first_blank)
    by (unfold holds_registers; vm_compute; split; discriminate).
  assert (H2 : In (calcEA (mi_rangeStart (mi first_blank)) (0x04300000 + 0x08)) mi_registers)
    by (vm_compute; tauto).
  split; [exact H1 |]. split; [exact H2 |].
  exact (mi_register_writes_never_raise first_blank (0x04300000 + 0x08) 0 H1 H2).
Defined.

(** X2. A write to a word of the MI block beyond the four registers stores
    the raw value there and logs the write even when the device is quiet;
    the four registers, both devices and the scheduler stay as they were,
    and the interrupt line is not re-evaluated. *)
Theorem mi_unhandled_write_stores_and_logs (w : World) (address value : Z) :
  holds_registers w ->
  calcEA (mi_rangeStart (mi w)) address mod 4 = 0 ->
  0x10 <= calcEA (mi_rangeStart (mi w)) address ->
  calcEA (mi_rangeStart (mi w)) address + 4 <= Z.of_nat (length (mi_reg w)) ->
  exists w',
    MI.write32 address value w = (Ok tt, w') /\
    word (mi_reg w') (calcEA (mi_rangeStart (mi w)) address) = JS.to_uint32 value /\
    modeBits w' = modeBits w /\ interruptPending w' = interruptPending w /\
    interruptMask w' = interruptMask w /\
    word (mi_reg w') MI.MI_VERSION_REG = word (mi_reg w) MI.MI_VERSION_REG /\
    logs w' = logs w ++ [LogMiUnhandled value address] /\
    calls w' = calls w /\ vi_side_kept w w'.
Proof.
  intros [Hvi Hmi] _ H0 He.
  pose proof (MI_write32_in_range w address value Hmi He) as HW. cbv zeta in HW.
  set (ea := calcEA (mi_rangeStart (mi w)) address) in *.
  replace (ea =? MI.MI_MODE_REG) with false in HW by (symmetry; apply Z.eqb_neq; offsets).
  replace (ea =? MI.MI_INTR_MASK_REG) with false in HW by (symmetry; apply Z.eqb_neq; offsets).
  replace (ea =? MI.MI_VERSION_REG) with false in HW by (symmetry; apply Z.eqb_neq; offsets).
  replace (ea =? MI.MI_INTR_REG) with false in HW by (symmetry; apply Z.eqb_neq; offsets).
  cbn [orb] in HW.
  replace (0 <=? ea) with true in HW by (symmetry; apply Z.leb_le; lia).
  rewrite HW. eexists. split; [reflexivity |].
  unfold modeBits, interruptPending, interruptMask.
  cbn [mi_reg set_mi_reg add_log logs calls].
  split; [apply word_store32_eq; lia |].
  do 4 (split; [apply word_store32_ne; offsets |]).
  unfold vi_side_kept. cbn. tauto.
Qed.

Lemma mi_unhandled_write_stores_and_logs_witness :
  holds_registers long_mi_block /\
  calcEA (mi_rangeStart (mi long_mi_block)) 0x04300010 mod 4 = 0 /\
  0x10 <= calcEA (mi_rangeStart (mi long_mi_block)) 0x04300010 /\
  calcEA (mi_rangeStart (mi long_mi_block)) 0x04300010 + 4
  <= Z.of_nat (length (mi_reg long_mi_block)) /\
  exists w',
    MI.write32 0x04300010 0xAABBCCDD long_mi_block = (Ok tt, w') /\
    word (mi_reg w') (calcEA (mi_rangeStart (mi long_mi_block)) 0x04300010)
    = JS.to_uint32 0xAABBCCDD /\
    modeBits w' = modeBits long_mi_block /\
    interruptPending w' = interruptPending long_mi_block /\
    interruptMask w' = interruptMask long_mi_block /\
    word (mi_reg w') MI.MI_VERSION_REG = word (mi_reg long_mi_block) MI.MI_VERSION_REG /\
    logs w' = logs long_mi_block ++ [LogMiUnhandled 0xAABBCCDD 0x04300010] /\
    calls w' = calls long_mi_block /\ vi_side_kept long_mi_block w'.
Proof.
  assert (H1 : holds_registers long_mi_block)
    by (unfold holds_registers; vm_compute; split; discriminate).
  assert (H2 : calcEA (mi_rangeStart (mi long_mi_block)) 0x04300010 mod 4 = 0)
    by (vm_compute; reflexivity).
  assert (H3 : 0x10 <= calcEA (mi_rangeStart (mi long_mi_block)) 0x04300010)
    by (vm_compute; discriminate).
  assert (H4 : calcEA (mi_rangeStart (mi long_mi_block)) 0x04300010 + 4
               <= Z.of_nat (length (mi_reg long_mi_block)))
    by (vm_compute; discriminate).
  split; [exact H1 |]. split; [exact H2 |]. split; [exact H3 |]. split; [exact H4 |].
  exact (mi_unhandled_write_stores_and_logs long_mi_block 0x04300010 0xAABBCCDD
           H1 H2 H3 H4).
Defined.

(** X3. A write to the mode register changes of the mode word only the
    three flag bits 7, 8 and 9, so the low bits of the written value are
    never stored; it clears the DP bit of the pending vector and asks for a
    re-evaluation of the interrupt line exactly when bit 11 of the value is
    set, and leaves the interrupt mask, the VI block, both devices and the
    scheduler as they were. *)
Theorem mode_write_scope (w : World) (value : Z) :
  holds_registers w ->
  exists w',
    MI.write32 (mi_rangeStart (mi w) + MI.MI_MODE_REG) value w = (Ok tt, w') /\
    (forall i, 0 <= i -> i <> 7 -> i <> 8 -> i <> 9 ->
       Z.testbit (modeBits w') i = Z.testbit (modeBits w) i) /\
    interruptPending w'
    = (if Z.testbit value 11
       then Z.land (interruptPending w) (Z.lnot MI.MI_INTR_DP)
       else interruptPending w) /\
    calls w' = (if Z.testbit value 11 then calls w ++ [UpdateCause3] else calls w) /\
    interruptMask w' = interruptMask w /\ vi_side_kept w w'.
Proof.
  intros [Hvi Hmi]. exists (mode_written w value).
  split; [apply write32_MI_MODE; exact Hmi |].
  destruct (mode_written_frame w value) as (F1 & F2 & F3 & F4 & F5 & F6).
  destruct (others_mode_written w value Hmi) as [Hm _].
  split; [| split; [apply interruptPending_mode_written; exact Hmi |
                    split; [exact F6 | split; [exact Hm | unfold vi_side_kept; tauto]]]].
  intros i Hi N7 N8 N9. rewrite modeBits_mode_written by exact Hmi.
  rewrite to_uint32_bits by lia.
  destruct (Z.ltb_spec i 32).
  - rewrite mode_bits_spec by lia.
    replace (i =? 9) with false by (symmetry; apply Z.eqb_neq; lia).
    replace (i =? 8) with false by (symmetry; apply Z.eqb_neq; lia).
    replace (i =? 7) with false by (symmetry; apply Z.eqb_neq; lia).
    rewrite !andb_false_r. cbn [negb]. rewrite !orb_false_r, !andb_true_r. reflexivity.
  - rewrite andb_false_r. symmetry. apply (bits_above (modeBits w) 32 i); [apply word_range | lia].
Qed.

Lemma mode_write_scope_witness :
  holds_registers first_blank /\
  exists w',
    MI.write32 (mi_rangeStart (mi first_blank) + MI.MI_MODE_REG) 0x87F first_blank
    = (Ok tt, w') /\
    (forall i, 0 <= i -> i <> 7 -> i <> 8 -> i <> 9 ->
       Z.testbit (modeBits w') i = Z.testbit (modeBits first_blank) i) /\
    interruptPending w'
    = (if Z.testbit 0x87F 11
       then Z.land (interruptPending first_blank) (Z.lnot MI.MI_INTR_DP)
       else interruptPending first_blank) /\
    calls w' = (if Z.testbit 0x87F 11 then calls first_blank ++ [UpdateCause3]
                else calls first_blank) /\
    interruptMask w' = interruptMask first_blank /\ vi_side_kept first_blank w'.
Proof.
  assert (H1 : holds_registers first_blank)
    by (unfold holds_registers; vm_compute; split; discriminate).
  split; [exact H1 |].
  exact (mode_write_scope first_blank 0x87F H1).
Defined.

Lemma mask_written_frame (w : World) (value : Z) :
  vi_reg (mask_written w value) = vi_reg w /\ vi (mask_written w value) = vi w /\
  mi (mask_written w value) = mi w /\ cpu0 (mask_written w value) = cpu0 w /\
  tvType (mask_written w value) = tvType w /\
  length (mi_reg (mask_written w value)) = length (mi_reg w).
Proof.
  destruct (quietly_frame (mi_quiet (mi w)) (LogMiIntrMask value) w)
    as (Q1 & Q2 & Q3 & Q4 & Q5 & Q6 & Q7).
  unfold mask_written.
  destruct (JS.truthy _);
    cbn [vi_reg vi mi cpu0 tvType calls add_call set_mi_reg mi_reg];
    rewrite ?Q1, ?Q3, ?Q4, ?Q5, ?Q6, ?Q7, ?store32_length; repeat split; reflexivity.
Qed.

Lemma clr_bits_low (value value' : Z) :
  value mod 2 ^ 12 = value' mod 2 ^ 12 -> MI.clr_bits value = MI.clr_bits value'.
Proof.
  intros E. apply Z.bits_inj'. intros i Hi. rewrite !clr_bits_spec by lia.
  destruct (Z.ltb_spec i 6); [| reflexivity]. cbn [andb].
  rewrite <- (Z.mod_pow2_bits_low value 12 (2 * i)) by lia.
  rewrite <- (Z.mod_pow2_bits_low value' 12 (2 * i)) by lia.
  rewrite E. reflexivity.
Qed.

Lemma set_bits_low (value value' : Z) :
  value mod 2 ^ 12 = value' mod 2 ^ 12 -> MI.set_bits value = MI.set_bits value'.
Proof.
  intros E. apply Z.bits_inj'. intros i Hi. rewrite !set_bits_spec by lia.
  destruct (Z.ltb_spec i 6); [| reflexivity]. cbn [andb].
  rewrite <- (Z.mod_pow2_bits_low value 12 (2 * i + 1)) by lia.
  rewrite <- (Z.mod_pow2_bits_low value' 12 (2 * i + 1)) by lia.
  rewrite E. reflexivity.
Qed.

(** X4. Writing the same value to the interrupt-mask register twice leaves
    the mask that writing it once leaves, and neither write changes the
    pending vector or the mode. *)
Theorem mask_write_idempotent (w : World) (value : Z) :
  holds_registers w ->
  exists w1 w2,
    MI.write32 (mi_rangeStart (mi w) + MI.MI_INTR_MASK_REG) value w = (Ok tt, w1) /\
    MI.write32 (mi_rangeStart (mi w) + MI.MI_INTR_MASK_REG) value w1 = (Ok tt, w2) /\
    interruptMask w2 = interruptMask w1 /\
    interruptPending w2 = interruptPending w /\ modeBits w2 = modeBits w.
Proof.
  intros [Hvi Hmi].
  destruct (mask_written_frame w value) as (F1 & F2 & F3 & F4 & F5 & F6).
  assert (Hmi1 : 0x10 <= Z.of_nat (length (mi_reg (mask_written w value))))
    by (rewrite F6; exact Hmi).
  exists (mask_written w value), (mask_written (mask_written w value) value).
  split; [apply write32_MI_MASK; exact Hmi |].
  split; [rewrite <- F3; apply write32_MI_MASK; exact Hmi1 |].
  destruct (others_mask_written w value Hmi) as (P1 & M1 & _).
  destruct (others_mask_written (mask_written w value) value Hmi1) as (P2 & M2 & _).
  split; [| split; congruence].
  rewrite (interruptMask_mask_written (mask_written w value)) by exact Hmi1.
  rewrite newMask_stored. rewrite (interruptMask_mask_written w) by exact Hmi.
  rewrite newMask_stored.
  apply Z.bits_inj'. intros i Hi.
  rewrite !Z.lor_spec, !Z.land_spec, !Z.lor_spec, !Z.land_spec, Z.lnot_spec by lia.
  destruct (Z.testbit (interruptMask w) i), (Z.testbit (MI.clr_bits value) i),
    (Z.testbit (MI.set_bits value) i); reflexivity.
Qed.

Lemma mask_write_idempotent_witness :
  holds_registers first_blank /\
  exists w1 w2,
    MI.write32 (mi_rangeStart (mi first_blank) + MI.MI_INTR_MASK_REG) 0x0A5A first_blank
    = (Ok tt, w1) /\
    MI.write32 (mi_rangeStart (mi first_blank) + MI.MI_INTR_MASK_REG) 0x0A5A w1 = (Ok tt, w2) /\
    interruptMask w2 = interruptMask w1 /\
    interruptPending w2 = interruptPending first_blank /\ modeBits w2 = modeBits first_blank.
Proof.
  assert (H1 : holds_registers first_blank)
    by (unfold holds_registers; vm_compute; split; discriminate).
  split; [exact H1 |].
  exact (mask_write_idempotent first_blank 0x0A5A H1).
Defined.

(** X5. A write to the interrupt-mask register reads only the low twelve
    bits of the value and changes only the six source bits of the mask. *)
Theorem mask_write_scope (w : World) (value value' : Z) :
  holds_registers w -> value mod 2 ^ 12 = value' mod 2 ^ 12 ->
  exists w1 w1',
    MI.write32 (mi_rangeStart (mi w) + MI.MI_INTR_MASK_REG) value w = (Ok tt, w1) /\
    MI.write32 (mi_rangeStart (mi w) + MI.MI_INTR_MASK_REG) value' w = (Ok tt, w1') /\
    interruptMask w1 = interruptMask w1' /\ calls w1 = calls w1' /\
    (forall i, 6 <= i -> Z.testbit (interruptMask w1) i = Z.testbit (interruptMask w) i) /\
    vi_side_kept w w1.
Proof.
  intros [Hvi Hmi] E.
  exists (mask_written w value), (mask_written w value').
  split; [apply write32_MI_MASK; exact Hmi |].
  split; [apply write32_MI_MASK; exact Hmi |].
  assert (HN : newMask w value = newMask w value').
  { unfold newMask. rewrite (clr_bits_low value value' E), (set_bits_low value value' E).
    reflexivity. }
  split; [rewrite !interruptMask_mask_written, HN by exact Hmi; reflexivity |].
  split.
  { destruct (quietly_frame (mi_quiet (mi w)) (LogMiIntrMask value) w)
      as (_ & _ & _ & _ & _ & Q & _).
    destruct (quietly_frame (mi_quiet (mi w)) (LogMiIntrMask value') w)
      as (_ & _ & _ & _ & _ & Q' & _).
    unfold mask_written. rewrite HN.
    destruct (JS.truthy _); cbn [calls add_call set_mi_reg]; rewrite Q, Q'; reflexivity. }
  split.
  { intros i Hi. rewrite interruptMask_mask_written, newMask_stored by exact Hmi.
    rewrite Z.lor_spec, Z.land_spec, Z.lnot_spec, clr_bits_spec, set_bits_spec by lia.
    replace (i <? 6) with false by (symmetry; apply Z.ltb_ge; lia).
    cbn [andb negb]. rewrite andb_true_r, orb_false_r. reflexivity. }
  destruct (mask_written_frame w value) as (F1 & F2 & F3 & F4 & F5 & F6).
  unfold vi_side_kept. tauto.
Qed.

Lemma mask_write_scope_witness :
  holds_registers first_blank /\ 0x0AA mod 2 ^ 12 = 0xFFFFF0AA mod 2 ^ 12 /\
  exists w1 w1',
    MI.write32 (mi_rangeStart (mi first_blank) + MI.MI_INTR_MASK_REG) 0x0AA first_blank
    = (Ok tt, w1) /\
    MI.write32 (mi_rangeStart (mi first_blank) + MI.MI_INTR_MASK_REG) 0xFFFFF0AA first_blank
    = (Ok tt, w1') /\
    interruptMask w1 = interruptMask w1' /\ calls w1 = calls w1' /\
    (forall i, 6 <= i ->
       Z.testbit (interruptMask w1) i = Z.testbit (interruptMask first_blank) i) /\
    vi_side_kept first_blank w1.
Proof.
  assert (H1 : holds_registers first_blank)
    by (unfold holds_registers; vm_compute; split; discriminate).
  assert (H2 : 0x0AA mod 2 ^ 12 = 0xFFFFF0AA mod 2 ^ 12) by reflexivity.
  split; [exact H1 |]. split; [exact H2 |].
  exact (mask_write_scope first_blank 0x0AA 0xFFFFF0AA H1 H2).
Defined.

(** ** Raising and acknowledging interrupts *)

Lemma bind_ok {A B} (m : M A) (k : A -> M B) (w w1 : World) (a : A) :
  m w = (Ok a, w1) -> bind m k w = k a w1.
Proof. intros H. unfold bind. rewrite H. reflexivity. Qed.

Lemma uint32_or_any (x b : Z) :
  0 <= x < 2 ^ 32 -> JS.to_uint32 (JS.or x b) = Z.lor x (JS.to_uint32 b).
Proof.
  intros Hx. apply Z.bits_inj'. intros i Hi.
  rewrite to_uint32_bits, or_bits, Z.lor_spec, to_uint32_bits by lia.
  destruct (Z.ltb_spec i 32).
  - rewrite Z.min_l by lia. rewrite !andb_true_r. reflexivity.
  - rewrite !andb_false_r. rewrite (bits_above x 32 i) by lia. reflexivity.
Qed.

Lemma land_lor_lnot (p b : Z) : Z.land (Z.lor p b) (Z.lnot b) = Z.land p (Z.lnot b).
Proof.
  apply Z.bits_inj'. intros i Hi.
  rewrite !Z.land_spec, Z.lor_spec, Z.lnot_spec by lia.
  destruct (Z.testbit p i), (Z.testbit b i); reflexivity.
Qed.

Lemma land_lnot_clear (p b : Z) : Z.land p b = 0 -> Z.land p (Z.lnot b) = p.
Proof.
  intros H. apply Z.bits_inj'. intros i Hi.
  assert (E : Z.testbit (Z.land p b) i = false) by (rewrite H; apply Z.bits_0).
  rewrite Z.land_spec in E. rewrite Z.land_spec, Z.lnot_spec by lia.
  destruct (Z.testbit p i), (Z.testbit b i); try reflexivity; discriminate.
Qed.

(** The world after [setInterruptBit]. *)
Lemma raised_frame (w : World) (bit : Z) :
  0x10 <= Z.of_nat (length (mi_reg w)) ->
  let w1 := add_call UpdateCause3
              (set_mi_reg (store32 (mi_reg w) MI.MI_INTR_REG
                             (JS.or (interruptPending w) bit)) w) in
  interruptPending w1 = Z.lor (interruptPending w) (JS.to_uint32 bit) /\
  interruptMask w1 = interruptMask w /\ modeBits w1 = modeBits w /\
  length (mi_reg w1) = length (mi_reg w).
Proof.
  intros Hl w1. unfold w1, interruptPending, interruptMask, modeBits.
  cbn [mi_reg add_call set_mi_reg].
  rewrite word_store32_eq, !word_store32_ne, store32_length by offsets.
  split; [apply uint32_or_any, word_range | repeat split; reflexivity].
Qed.

(** X6. Raising the DP interrupt and then acknowledging it through the
    mode register leaves the pending vector without the DP bit, which is
    the vector from before when DP was not pending; the mode flags and the
    interrupt mask are as before and the interrupt line is re-evaluated
    twice. *)
Theorem dp_interrupt_round_trip (w : World) :
  holds_registers w ->
  exists w',
    (MI.interruptDP ;;;
     MI.write32 (mi_rangeStart (mi w) + MI.MI_MODE_REG) MI.MI_CLR_DP_INTR) w = (Ok tt, w') /\
    interruptPending w' = Z.land (interruptPending w) (Z.lnot MI.MI_INTR_DP) /\
    (if has (interruptPending w) MI.MI_INTR_DP then True
     else interruptPending w' = interruptPending w) /\
    modeBits w' = modeBits w /\ interruptMask w' = interruptMask w /\
    calls w' = calls w ++ [UpdateCause3; UpdateCause3].
Proof.
  intros [Hvi Hmi].
  set (w1 := add_call UpdateCause3
               (set_mi_reg (store32 (mi_reg w) MI.MI_INTR_REG
                              (JS.or (interruptPending w) MI.MI_INTR_DP)) w)).
  destruct (raised_frame w MI.MI_INTR_DP Hmi) as (P1 & K1 & M1 & L1). fold w1 in P1, K1, M1, L1.
  assert (Hmi1 : 0x10 <= Z.of_nat (length (mi_reg w1))) by (rewrite L1; exact Hmi).
  exists (mode_written w1 MI.MI_CLR_DP_INTR).
  split.
  { rewrite (bind_ok _ _ w w1 tt) by (apply setInterruptBit_spec; exact Hmi).
    change (mi_rangeStart (mi w)) with (mi_rangeStart (mi w1)).
    apply write32_MI_MODE. exact Hmi1. }
  assert (HP : interruptPending (mode_written w1 MI.MI_CLR_DP_INTR)
               = Z.land (interruptPending w) (Z.lnot MI.MI_INTR_DP)).
  { rewrite interruptPending_mode_written by exact Hmi1.
    change (Z.testbit MI.MI_CLR_DP_INTR 11) with true. cbv iota.
    rewrite P1. change (JS.to_uint32 MI.MI_INTR_DP) with MI.MI_INTR_DP.
    apply land_lor_lnot. }
  split; [exact HP |].
  split.
  { unfold has. destruct (Z.eqb_spec (Z.land (interruptPending w) MI.MI_INTR_DP) 0) as [E | _];
      cbn [negb]; [| exact I].
    rewrite HP. apply land_lnot_clear. exact E. }
  destruct (others_mode_written w1 MI.MI_CLR_DP_INTR Hmi1) as [K2 _].
  destruct (mode_written_frame w1 MI.MI_CLR_DP_INTR) as (_ & _ & _ & _ & _ & C2).
  split; [| split; [congruence |]].
  - rewrite modeBits_mode_written by exact Hmi1. rewrite M1.
    change (MI.mode_bits MI.MI_CLR_DP_INTR (modeBits w)) with (modeBits w).
    apply to_uint32_small, word_range.
  - rewrite C2. change (Z.testbit MI.MI_CLR_DP_INTR 11) with true. cbv iota.
    unfold w1. cbn [calls add_call set_mi_reg]. rewrite <- app_assoc. reflexivity.
Qed.

Lemma dp_interrupt_round_trip_witness :
  holds_registers first_blank /\
  exists w',
    (MI.interruptDP ;;;
     MI.write32 (mi_rangeStart (mi first_blank) + MI.MI_MODE_REG) MI.MI_CLR_DP_INTR)
      first_blank = (Ok tt, w') /\
    interruptPending w' = Z.land (interruptPending first_blank) (Z.lnot MI.MI_INTR_DP) /\
    (if has (interruptPending first_blank) MI.MI_INTR_DP then True
     else interruptPending w' = interruptPending first_blank) /\
    modeBits w' = modeBits first_blank /\ interruptMask w' = interruptMask first_blank /\
    calls w' = calls first_blank ++ [UpdateCause3; UpdateCause3].
Proof.
  assert (H1 : holds_registers first_blank)
    by (unfold holds_registers; vm_compute; split; discriminate).
  split; [exact H1 |].
  exact (dp_interrupt_round_trip first_blank H1).
Defined.

Lemma interruptsUnmasked_spec (w : World) :
  0x10 <= Z.of_nat (length (mi_reg w)) ->
  MI.interruptsUnmasked w
  = (Ok (negb (Z.land (interruptMask w) (interruptPending w) =? 0)), w).
Proof.
  intros Hl. unfold MI.interruptsUnmasked.
  rewrite (bind_ok _ _ w w (interruptMask w)) by (apply mem_readU32_ok; offsets).
  rewrite (bind_ok _ _ w w (interruptPending w)) by (apply mem_readU32_ok; offsets).
  unfold ret. f_equal. f_equal. f_equal.
  pose proof (and_zero_iff (interruptMask w) (interruptPending w)) as H.
  rewrite !to_uint32_small in H by apply word_range.
  destruct (Z.eqb_spec (JS.and (interruptMask w) (interruptPending w)) 0) as [E | E],
    (Z.eqb_spec (Z.land (interruptMask w) (interruptPending w)) 0) as [E' | E'];
    try reflexivity; tauto.
Qed.

(** X7. After a source raises its pending bit, [interruptsUnmasked] answers
    true exactly when the mask lets that bit through or let an already
    pending one through before; the query itself changes nothing. *)
Theorem raised_interrupt_is_seen (w : World) (bit : Z) :
  holds_registers w ->
  exists w1,
    MI.setInterruptBit bit w = (Ok tt, w1) /\
    MI.interruptsUnmasked w1
    = (Ok (negb (Z.land (interruptMask w) (JS.to_uint32 bit) =? 0)
           || negb (Z.land (interruptMask w) (interruptPending w) =? 0)), w1) /\
    (forall i, 0 <= i -> Z.testbit (interruptPending w) i = true ->
       Z.testbit (interruptPending w1) i = true).
Proof.
  intros [Hvi Hmi]. eexists. split; [apply setInterruptBit_spec; exact Hmi |].
  destruct (raised_frame w bit Hmi) as (P1 & K1 & M1 & L1). cbv zeta in P1, K1, M1, L1.
  split.
  { rewrite interruptsUnmasked_spec by (rewrite L1; exact Hmi).
    rewrite P1, K1. f_equal. f_equal.
    rewrite Z.land_lor_distr_r.
    destruct (Z.eqb_spec (Z.land (interruptMask w) (interruptPending w)) 0) as [E | E],
      (Z.eqb_spec (Z.land (interruptMask w) (JS.to_uint32 bit)) 0) as [E' | E'];
      cbn [negb orb]; rewrite ?E, ?E'.
    - reflexivity.
    - rewrite Z.lor_0_l. destruct (Z.eqb_spec (Z.land (interruptMask w) (JS.to_uint32 bit)) 0);
        [contradiction | reflexivity].
    - rewrite Z.lor_0_r. destruct (Z.eqb_spec (Z.land (interruptMask w) (interruptPending w)) 0);
        [contradiction | reflexivity].
    - destruct (Z.eqb_spec (Z.lor (Z.land (interruptMask w) (interruptPending w))
                              (Z.land (interruptMask w) (JS.to_uint32 bit))) 0) as [E0 | _];
        [| reflexivity].
      apply Z.lor_eq_0_iff in E0. tauto. }
  intros i Hi Hb. rewrite P1, Z.lor_spec, Hb. reflexivity.
Qed.

Lemma raised_interrupt_is_seen_witness :
  holds_registers vi_unmasked /\
  exists w1,
    MI.setInterruptBit MI.MI_INTR_VI vi_unmasked = (Ok tt, w1) /\
    MI.interruptsUnmasked w1
    = (Ok (negb (Z.land (interruptMask vi_unmasked) (JS.to_uint32 MI.MI_INTR_VI) =? 0)
           || negb (Z.land (interruptMask vi_unmasked) (interruptPending vi_unmasked) =? 0)),
       w1) /\
    (forall i, 0 <= i -> Z.testbit (interruptPending vi_unmasked) i = true ->
       Z.testbit (interruptPending w1) i = true).
Proof.
  assert (H1 : holds_registers vi_unmasked)
    by (unfold holds_registers; vm_compute; split; discriminate).
  split; [exact H1 |].
  exact (raised_interrupt_is_seen vi_unmasked MI.MI_INTR_VI H1).
Defined.

(** X8. The reset of the MI stores the version word and nothing else: the
    mode flags, the pending vector and the interrupt mask survive it, the
    interrupt line is not re-evaluated, and a second reset changes
    nothing more. *)
Theorem mi_reset_keeps_interrupt_state (w : World) :
  holds_registers w ->
  exists w',
    MI.reset w = (Ok tt, w') /\
    word (mi_reg w') MI.MI_VERSION_REG = 0x02020102 /\
    modeBits w' = modeBits w /\ interruptPending w' = interruptPending w /\
    interruptMask w' = interruptMask w /\ calls w' = calls w /\ logs w' = logs w /\
    vi_side_kept w w' /\
    exists w'', MI.reset w' = (Ok tt, w'') /\
      word (mi_reg w'') MI.MI_VERSION_REG = 0x02020102 /\
      modeBits w'' = modeBits w /\ interruptPending w'' = interruptPending w /\
      interruptMask w'' = interruptMask w.
Proof.
  intros [Hvi Hmi].
  assert (R : forall u, 0x10 <= Z.of_nat (length (mi_reg u)) ->
            MI.reset u = (Ok tt, set_mi_reg (store32 (mi_reg u) MI.MI_VERSION_REG 0x02020102) u)).
  { intros u Hu. unfold MI.reset. rewrite mem_write32_ok by offsets. reflexivity. }
  eexists. split; [apply R; exact Hmi |].
  unfold modeBits, interruptPending, interruptMask. cbn [mi_reg set_mi_reg calls logs].
  rewrite word_store32_eq, !word_store32_ne by offsets.
  split; [reflexivity |]. do 5 (split; [reflexivity |]).
  split; [unfold vi_side_kept; cbn; tauto |].
  eexists. split; [apply R; cbn [mi_reg set_mi_reg]; rewrite store32_length; exact Hmi |].
  cbn [mi_reg set_mi_reg].
  rewrite word_store32_eq by offsets.
  rewrite !(word_store32_ne (store32 (mi_reg w) MI.MI_VERSION_REG 33685762)) by offsets.
  rewrite !word_store32_ne by offsets.
  repeat split; reflexivity.
Qed.

Lemma mi_reset_keeps_interrupt_state_witness :
  holds_registers first_blank /\
  exists w',
    MI.reset first_blank = (Ok tt, w') /\
    word (mi_reg w') MI.MI_VERSION_REG = 0x02020102 /\
    interruptPending w' = interruptPending first_blank.
Proof.
  assert (H1 : holds_registers first_blank)
    by (unfold holds_registers; vm_compute; split; discriminate).
  split; [exact H1 |].
  destruct (mi_reset_keeps_interrupt_state first_blank H1) as (w' & A & B & _ & C & _).
  exists w'. split; [exact A |]. split; [exact B | exact C].
Defined.

(** ** Frames: what the operations of one device leave alone *)

Section Preserves.
Variable R : World -> World -> Prop.
Hypothesis R_refl : forall w, R w w.
Hypothesis R_trans : forall a b c, R a b -> R b c -> R a c.

Lemma preserves_ret {A} (a : A) : preserves R (ret a).
Proof. intros w. apply R_refl. Qed.

Lemma preserves_throw {A} (e : exn) : preserves R (@throw A e).
Proof. intros w. apply R_refl. Qed.

Lemma preserves_gets {A} (f : World -> A) : preserves R (gets f).
Proof. intros w. apply R_refl. Qed.

Lemma preserves_modify (f : World -> World) :
  (forall w, R w (f w)) -> preserves R (modify f).
Proof. intros H w. apply H. Qed.

Lemma preserves_bind {A B} (m : M A) (k : A -> M B) :
  preserves R m -> (forall a, preserves R (k a)) -> preserves R (bind m k).
Proof.
  intros Hm Hk w. unfold bind. specialize (Hm w).
  destruct (m w) as [[a | e] w1]; cbn [snd] in *.
  - eapply R_trans; [exact Hm | apply Hk].
  - exact Hm.
Qed.

Lemma preserves_lift_read (r : Region) (f : Mem.t -> option Z) : preserves R (lift_read r f).
Proof. intros w. unfold lift_read. destruct (f (region r w)); apply R_refl. Qed.

Lemma preserves_lift_write (r : Region) (f : Mem.t -> option Mem.t) :
  (forall m w, R w (set_region r m w)) -> preserves R (lift_write r f).
Proof.
  intros H w. unfold lift_write. destruct (f (region r w)); [apply H | apply R_refl].
Qed.

Lemma preserves_unless_quiet (quiet : bool) (l : LogMsg) :
  (forall w, R w (add_log l w)) -> preserves R (unless_quiet quiet l).
Proof.
  intros H. unfold unless_quiet. destruct quiet; [apply preserves_ret |].
  apply preserves_modify, H.
Qed.
End Preserves.

Lemma vi_side_kept_refl (w : World) : vi_side_kept w w.
Proof. unfold vi_side_kept. tauto. Qed.

Lemma vi_side_kept_trans (a b c : World) :
  vi_side_kept a b -> vi_side_kept b c -> vi_side_kept a c.
Proof.
  unfold vi_side_kept. intros (A1 & A2 & A3 & A4 & A5) (B1 & B2 & B3 & B4 & B5).
  repeat split; congruence.
Qed.

Lemma mi_side_kept_refl (w : World) : mi_side_kept w w.
Proof. unfold mi_side_kept. tauto. Qed.

Lemma mi_side_kept_trans (a b c : World) :
  mi_side_kept a b -> mi_side_kept b c -> mi_side_kept a c.
Proof.
  unfold mi_side_kept. intros (A1 & A2 & A3) (B1 & B2 & B3). repeat split; congruence.
Qed.

Lemma schedule_kept_refl (w : World) : schedule_kept w w.
Proof. unfold schedule_kept. destruct (vblEvent (cpu0 w)); tauto. Qed.

Lemma schedule_kept_trans (a b c : World) :
  schedule_kept a b -> schedule_kept b c -> schedule_kept a c.
Proof.
  unfold schedule_kept. intros H1 H2.
  destruct (vblEvent (cpu0 a)) eqn:E; [| exact I].
  destruct H1 as [H1 H1']. rewrite H1, E in H2. destruct H2 as [H2 H2'].
  split; congruence.
Qed.

(** Decompose an operation into its primitive steps. *)
Ltac frame refl trans :=
  repeat match goal with
    | |- preserves _ (if ?c then _ else _) => destruct c
    | |- preserves _ (ret _) => apply (preserves_ret _ refl)
    | |- preserves _ (throw _) => apply (preserves_throw _ refl)
    | |- preserves _ (gets _) => apply (preserves_gets _ refl)
    | |- preserves _ (lift_read _ _) => apply (preserves_lift_read _ refl)
    | |- preserves _ (bind _ _) => apply (preserves_bind _ trans); [| intros ?]
    | |- preserves _ (unless_quiet _ _) => apply (preserves_unless_quiet _ refl); intros ?
    | |- preserves _ (lift_write _ _) => apply (preserves_lift_write _ refl); intros ? ?
    | |- preserves _ (modify _) => apply preserves_modify; intros ?
    end.

Ltac unfold_ops :=
  unfold MI.interruptSP, MI.interruptDP;
  unfold MI.write32, MI.writeModeReg, MI.writeIntrMaskReg, MI.setInterruptBit, MI.reset,
    MI.interruptsUnmasked, MI.intrReg, MI.intrMaskReg,
    MI.readS32, MI.readU32,
    VI.write32, VI.readU32, VI.readS32, VI.initInterrupt, VI.verticalBlank, VI.reset,
    VI.interlaced, VI.viIs32Bit, VI.viControlReg,
    Cpu0.updateCause3, Cpu0.addVblEvent, Cpu0.hasVblEvent, Cpu0.getVblCount,
    presentBackBuffer, returnControlToSystem,
    logRead, log, u8_length,
    mem_readU32, mem_readS32, mem_write32, mem_setBits32, mem_clearBits32.

(** X9. No operation of the MI touches the VI: whatever the address, the
    value and the sizes of the blocks, and whether it succeeds or fails, a
    register write, a raised interrupt, the reset and the query of the
    interrupt line leave the VI block, the VI device, the scheduler and the
    television standard as they were. *)
Theorem mi_never_touches_vi (w : World) (address value bit : Z) :
  vi_side_kept w (run (MI.write32 address value) w) /\
  vi_side_kept w (run (MI.setInterruptBit bit) w) /\
  vi_side_kept w (run MI.interruptSP w) /\
  vi_side_kept w (run MI.interruptDP w) /\
  vi_side_kept w (run MI.reset w) /\
  vi_side_kept w (run MI.interruptsUnmasked w).
Proof.
  assert (H : forall A (m : M A), preserves vi_side_kept m -> vi_side_kept w (run m w))
    by (intros A m Hm; apply Hm).
  split; [| split; [| split; [| split; [| split]]]]; apply H; unfold_ops;
    frame vi_side_kept_refl vi_side_kept_trans;
    unfold vi_side_kept; cbn; tauto.
Qed.

(** X10. Apart from the acknowledgement through the current-line register,
    no register access of the VI touches the MI: whatever the address and
    the value, and whether it succeeds or fails, a read, a write to any
    other register, the arming of the vertical-blank event and the reset
    leave the MI block and the MI device as they were. *)
Theorem vi_accesses_leave_mi (w : World) (address value : Z) :
  mi_side_kept w (run (VI.readS32 address) w) /\
  mi_side_kept w (run (VI.readU32 address) w) /\
  mi_side_kept w (run VI.initInterrupt w) /\
  mi_side_kept w (run VI.reset w) /\
  (if calcEA (vi_rangeStart (vi w)) address =? VI.VI_V_CURRENT_LINE_REG then True
   else mi_side_kept w (run (VI.write32 address value) w)).
Proof.
  assert (H : forall A (m : M A), preserves mi_side_kept m -> mi_side_kept w (run m w))
    by (intros A m Hm; apply Hm).
  split; [| split; [| split; [| split]]].
  1-4: apply H; unfold_ops; frame mi_side_kept_refl mi_side_kept_trans;
       unfold mi_side_kept; cbn; tauto.
  unfold run, VI.write32, bind at 1, gets at 1.
  destruct (calcEA (vi_rangeStart (vi w)) address =? VI.VI_V_CURRENT_LINE_REG); [exact I |].
  match goal with |- mi_side_kept w (snd (?m w)) => apply (H _ m) end.
  unfold_ops; frame mi_side_kept_refl mi_side_kept_trans;
    unfold mi_side_kept; cbn; tauto.
Qed.

(** ** The schedule while a vertical blank is pending *)

Lemma vbl_requests_app (cs : list Call) (c : Call) :
  vbl_requests (cs ++ [c])
  = (vbl_requests cs + match c with AddVblEvent _ => 1 | _ => 0 end)%nat.
Proof.
  unfold vbl_requests. rewrite List.filter_app, List.length_app.
  destruct c; reflexivity.
Qed.

Lemma schedule_kept_when (w w' : World) :
  cpu0 w' = cpu0 w -> vbl_requests (calls w') = vbl_requests (calls w) -> schedule_kept w w'.
Proof. intros H1 H2. unfold schedule_kept. destruct (vblEvent (cpu0 w)); tauto. Qed.

Lemma schedule_kept_initInterrupt : preserves schedule_kept VI.initInterrupt.
Proof.
  intros w. unfold schedule_kept. destruct (vblEvent (cpu0 w)) eqn:E; [| exact I].
  unfold VI.initInterrupt, bind, Cpu0.hasVblEvent, gets. rewrite E. cbn. tauto.
Qed.

Lemma schedule_kept_step (op : Op) (w : World) :
  register_access op = true -> schedule_kept w (step op w).
Proof.
  assert (H : forall A (m : M A), preserves schedule_kept m -> schedule_kept w (run m w))
    by (intros A m Hm; apply Hm).
  destruct op; cbn [register_access step]; intros Hop; try discriminate; apply H.
  all: unfold MI.write32, MI.writeModeReg, MI.writeIntrMaskReg, MI.setInterruptBit,
         MI.readU32, VI.write32, VI.readU32, VI.readS32,
         Cpu0.updateCause3, Cpu0.getVblCount, logRead, log, u8_length,
         mem_readU32, mem_readS32, mem_write32, mem_setBits32, mem_clearBits32.
  all: frame schedule_kept_refl schedule_kept_trans.
  all: try apply schedule_kept_initInterrupt.
  all: apply schedule_kept_when;
    try match goal with |- context [set_region ?r _ _] => destruct r end;
    cbn [cpu0 calls add_log add_call set_vi set_vi_reg set_mi_reg set_region];
    rewrite ?vbl_requests_app, ?Nat.add_0_r; reflexivity.
Qed.

(** X11. While a vertical-blank event is queued, no sequence of register
    accesses of the two devices changes the schedule or requests another
    callback: only the vertical blank itself re-arms the event. *)
Theorem no_rescheduling_while_pending (ops : list Op) (w : World) (count : JS.number) :
  forallb register_access ops = true -> vblEvent (cpu0 w) = Some count ->
  cpu0 (exec ops w) = cpu0 w /\
  vbl_requests (calls (exec ops w)) = vbl_requests (calls w).
Proof.
  revert w. induction ops as [| op ops IH]; intros w Hops Hc; cbn [exec].
  - split; reflexivity.
  - cbn [forallb] in Hops. apply andb_true_iff in Hops. destruct Hops as [Hop Hops].
    pose proof (schedule_kept_step op w Hop) as K. unfold schedule_kept in K.
    rewrite Hc in K. destruct K as [K1 K2].
    destruct (IH (step op w) Hops) as [I1 I2]; [rewrite K1; exact Hc |].
    split; congruence.
Qed.

Lemma no_rescheduling_while_pending_witness :
  forallb register_access
    [ViWrite (0x04400000 + VI.VI_V_SYNC_REG) 624; ViWrite (0x04400000 + VI.VI_V_INTR_REG) 2;
     ViRead (0x04400000 + VI.VI_V_CURRENT_LINE_REG); MiInterrupt MI.MI_INTR_SP] = true /\
  vblEvent (cpu0 mid_frame) = Some (JS.of_Z 400000) /\
  cpu0 (exec
          [ViWrite (0x04400000 + VI.VI_V_SYNC_REG) 624; ViWrite (0x04400000 + VI.VI_V_INTR_REG) 2;
           ViRead (0x04400000 + VI.VI_V_CURRENT_LINE_REG); MiInterrupt MI.MI_INTR_SP]
          mid_frame) = cpu0 mid_frame /\
  vbl_requests (calls (exec
          [ViWrite (0x04400000 + VI.VI_V_SYNC_REG) 624; ViWrite (0x04400000 + VI.VI_V_INTR_REG) 2;
           ViRead (0x04400000 + VI.VI_V_CURRENT_LINE_REG); MiInterrupt MI.MI_INTR_SP]
          mid_frame)) = vbl_requests (calls mid_frame).
Proof.
  assert (H1 : forallb register_access
    [ViWrite (0x04400000 + VI.VI_V_SYNC_REG) 624; ViWrite (0x04400000 + VI.VI_V_INTR_REG) 2;
     ViRead (0x04400000 + VI.VI_V_CURRENT_LINE_REG); MiInterrupt MI.MI_INTR_SP] = true)
    by reflexivity.
  assert (H2 : vblEvent (cpu0 mid_frame) = Some (JS.of_Z 400000)) by (vm_compute; reflexivity).
  split; [exact H1 |]. split; [exact H2 |].
  exact (no_rescheduling_while_pending _ mid_frame (JS.of_Z 400000) H1 H2).
Defined.

(** ** Writing a register of the VI and reading it back *)

Lemma to_int32_to_uint32 (z : Z) : JS.to_int32 (JS.to_uint32 z) = JS.to_int32 z.
Proof.
  apply Z.bits_inj'. intros i Hi. rewrite !to_int32_bits, to_uint32_bits by lia.
  replace (Z.min i 31 <? 32) with true by (symmetry; apply Z.ltb_lt; lia).
  apply andb_true_r.
Qed.

(** What a successful word write of the VI leaves, apart from the
    current-line register. *)
Lemma VI_write32_stores (w : World) (address value : Z) :
  holds_registers w ->
  0 <= calcEA (vi_rangeStart (vi w)) address ->
  calcEA (vi_rangeStart (vi w)) address + 4 <= Z.of_nat (length (vi_reg w)) ->
  calcEA (vi_rangeStart (vi w)) address <> VI.VI_V_CURRENT_LINE_REG ->
  exists w1,
    VI.write32 address value w = (Ok tt, w1) /\
    vi_rangeStart (vi w1) = vi_rangeStart (vi w) /\
    length (vi_reg w1) = length (vi_reg w) /\
    word (vi_reg w1) (calcEA (vi_rangeStart (vi w)) address) = JS.to_uint32 value /\
    (forall o, o + 4 <= calcEA (vi_rangeStart (vi w)) address \/
               calcEA (vi_rangeStart (vi w)) address + 4 <= o ->
               word (vi_reg w1) o = word (vi_reg w) o).
Proof.
  intros [Hvi Hmi] H0 He Hn.
  pose proof (VI_write32_in_range w address value) as HW. cbv zeta in HW.
  specialize (HW ltac:(lia) ltac:(lia) He).
  set (ea := calcEA (vi_rangeStart (vi w)) address) in *.
  rewrite HW. clear HW.
  destruct (Z.eqb_spec ea VI.VI_V_INTR_REG) as [E1 | N1].
  { eexists. split; [reflexivity |].
    match goal with |- context [armed ?u] => destruct (armed_frame u) as (A1 & _ & A3 & _) end.
    rewrite A1, A3. cbn [vi vi_reg set_vi_reg].
    destruct (quietly_frame (vi_quiet (vi w)) (LogViIntr value) w) as (_ & _ & Q3 & _).
    rewrite Q3, store32_length, E1.
    split; [reflexivity |]. split; [reflexivity |].
    split; [apply word_store32_eq; offsets |].
    intros o Ho. apply word_store32_ne. lia. }
  destruct (Z.eqb_spec ea VI.VI_V_CURRENT_LINE_REG) as [E2 | N2]; [contradiction |].
  destruct (Z.eqb_spec ea VI.VI_V_SYNC_REG) as [E3 | N3].
  { destruct (Z.eqb_spec (syncValue w) value) as [Es | Ns].
    - exists w. split; [reflexivity |]. split; [reflexivity |]. split; [reflexivity |].
      split; [| reflexivity].
      rewrite E3. fold (syncValue w). rewrite Es. symmetry. apply to_uint32_small.
      rewrite <- Es. apply word_range.
    - eexists. split; [reflexivity |].
      destruct (armed_frame (retimed w value)) as (A1 & _ & A3 & _).
      rewrite A1, A3. unfold retimed. cbn [vi vi_reg set_vi_reg add_log set_vi set_counts
                                           vi_rangeStart].
      rewrite store32_length, E3.
      split; [reflexivity |]. split; [reflexivity |].
      split; [apply word_store32_eq; offsets |].
      intros o Ho. apply word_store32_ne. lia. }
  cbv zeta. replace (0 <=? ea) with true by (symmetry; apply Z.leb_le; exact H0).
  eexists. split; [reflexivity |].
  cbn [vi vi_reg set_vi_reg]. rewrite store32_length.
  split.
  { destruct (ea =? VI.VI_CONTROL_REG); [apply f_equal, quietly_frame |].
    destruct (ea =? VI.VI_H_WIDTH_REG); [apply f_equal, quietly_frame | reflexivity]. }
  split; [reflexivity |].
  split; [apply word_store32_eq; assumption |].
  intros o Ho. apply word_store32_ne. exact Ho.
Qed.

(** X12. A word written to a register of the VI other than the current-line
    register is read back: [readU32] returns the value reduced to 32 bits
    unsigned, [readS32] the same word signed, and the other registers are
    as before. *)
Theorem vi_register_round_trip (w : World) (address value : Z) :
  holds_registers w ->
  calcEA (vi_rangeStart (vi w)) address mod 4 = 0 ->
  0 <= calcEA (vi_rangeStart (vi w)) address ->
  calcEA (vi_rangeStart (vi w)) address + 4 <= Z.of_nat (length (vi_reg w)) ->
  calcEA (vi_rangeStart (vi w)) address <> VI.VI_V_CURRENT_LINE_REG ->
  exists w1 w2,
    VI.write32 address value w = (Ok tt, w1) /\
    VI.readU32 address w1 = (Ok (JS.to_uint32 value), w2) /\
    VI.readS32 address w1 = (Ok (JS.to_int32 value), w2) /\
    vi_reg w2 = vi_reg w1 /\
    (forall o, o mod 4 = 0 -> o <> calcEA (vi_rangeStart (vi w)) address ->
               word (vi_reg w1) o = word (vi_reg w) o).
Proof.
  intros H Ha H0 He Hn.
  destruct (VI_write32_stores w address value H H0 He Hn) as (w1 & HW & Hr & Hl & Hw & Ho).
  destruct H as [Hvi Hmi].
  set (ea := calcEA (vi_rangeStart (vi w)) address) in *.
  pose proof (VI_readS32_in_range w1 address) as HS. cbv zeta in HS.
  rewrite Hr, Hl in HS. fold ea in HS. specialize (HS ltac:(lia) H0 He).
  assert (Hv : vi_reg (vi_read w1 address ea) = vi_reg w1).
  { unfold vi_read. replace (ea =? VI.VI_V_CURRENT_LINE_REG) with false
      by (symmetry; apply Z.eqb_neq; exact Hn).
    apply quietly_frame. }
  rewrite Hv, Hw in HS.
  exists w1, (vi_read w1 address ea).
  split; [exact HW |].
  split; [| split; [| split; [exact Hv |]]].
  - rewrite VI_readU32_of_readS32, HS. rewrite to_uint32_to_int32.
    f_equal. f_equal. apply to_uint32_small, to_uint32_range.
  - rewrite HS. f_equal. f_equal. apply to_int32_to_uint32.
  - intros o Hoa Hne. apply Ho.
    pose proof (Z.div_mod o 4 ltac:(lia)). pose proof (Z.div_mod ea 4 ltac:(lia)). lia.
Qed.

Lemma vi_register_round_trip_witness :
  holds_registers (power_on OS_TV_PAL) /\
  calcEA (vi_rangeStart (vi (power_on OS_TV_PAL))) (0x04400000 + 0x18) mod 4 = 0 /\
  0 <= calcEA (vi_rangeStart (vi (power_on OS_TV_PAL))) (0x04400000 + 0x18) /\
  calcEA (vi_rangeStart (vi (power_on OS_TV_PAL))) (0x04400000 + 0x18) + 4
  <= Z.of_nat (length (vi_reg (power_on OS_TV_PAL))) /\
  calcEA (vi_rangeStart (vi (power_on OS_TV_PAL))) (0x04400000 + 0x18)
  <> VI.VI_V_CURRENT_LINE_REG /\
  exists w1 w2,
    VI.write32 (0x04400000 + 0x18) (-1) (power_on OS_TV_PAL) = (Ok tt, w1) /\
    VI.readU32 (0x04400000 + 0x18) w1 = (Ok (JS.to_uint32 (-1)), w2) /\
    VI.readS32 (0x04400000 + 0x18) w1 = (Ok (JS.to_int32 (-1)), w2) /\
    vi_reg w2 = vi_reg w1 /\
    (forall o, o mod 4 = 0 ->
               o <> calcEA (vi_rangeStart (vi (power_on OS_TV_PAL))) (0x04400000 + 0x18) ->
               word (vi_reg w1) o = word (vi_reg (power_on OS_TV_PAL)) o).
Proof.
  assert (H1 : holds_registers (power_on OS_TV_PAL))
    by (unfold holds_registers; vm_compute; split; discriminate).
  assert (H0 : calcEA (vi_rangeStart (vi (power_on OS_TV_PAL))) (0x04400000 + 0x18) mod 4 = 0)
    by (vm_compute; reflexivity).
  assert (H2 : 0 <= calcEA (vi_rangeStart (vi (power_on OS_TV_PAL))) (0x04400000 + 0x18))
    by (vm_compute; discriminate).
  assert (H3 : calcEA (vi_rangeStart (vi (power_on OS_TV_PAL))) (0x04400000 + 0x18) + 4
               <= Z.of_nat (length (vi_reg (power_on OS_TV_PAL))))
    by (vm_compute; discriminate).
  assert (H4 : calcEA (vi_rangeStart (vi (power_on OS_TV_PAL))) (0x04400000 + 0x18)
               <> VI.VI_V_CURRENT_LINE_REG)
    by (vm_compute; discriminate).
  split; [exact H1 |]. split; [exact H0 |]. split; [exact H2 |]. split; [exact H3 |].
  split; [exact H4 |].
  exact (vi_register_round_trip (power_on OS_TV_PAL) (0x04400000 + 0x18) (-1) H1 H0 H2 H3 H4).
Defined.

(** ** The vertical blank *)

Lemma blanked_frame (w : World) :
  0x10 <= Z.of_nat (length (mi_reg w)) ->
  vi_reg (blanked w) = vi_reg w /\
  length (mi_reg (blanked w)) = length (mi_reg w) /\
  vi_rangeStart (vi (blanked w)) = vi_rangeStart (vi w) /\
  vi_quiet (vi (blanked w)) = vi_quiet (vi w) /\
  countPerScanline (vi (blanked w)) = countPerScanline (vi w) /\
  countPerVbl (vi (blanked w)) = countPerVbl (vi w) /\
  mi (blanked w) = mi w /\ logs (blanked w) = logs w /\
  cpu0 (blanked w) = {| vblEvent := Some (countPerVbl (vi w)) |} /\
  calls (blanked w)
  = calls w ++ [AddVblEvent (countPerVbl (vi w)); UpdateCause3; PresentBackBuffer;
                ReturnControlToSystem] /\
  interruptPending (blanked w) = Z.lor (interruptPending w) MI.MI_INTR_VI /\
  interruptMask (blanked w) = interruptMask w /\ modeBits (blanked w) = modeBits w.
Proof.
  intros Hl. unfold blanked, interruptPending, interruptMask, modeBits.
  cbn [vi_reg mi_reg vi mi cpu0 calls logs add_call set_mi_reg set_cpu0 set_vi set_field
       vi_rangeStart vi_quiet countPerScanline countPerVbl].
  rewrite store32_length, word_store32_eq, !word_store32_ne by offsets.
  rewrite <- !app_assoc. cbn [app].
  repeat split; try reflexivity.
  fold (interruptPending w). apply uint32_or; [apply word_range | vm_compute; split; congruence].
Qed.

(** X13. A vertical blank re-arms the vertical-blank event with
    [countPerVbl] whether or not one was queued, raises the VI bit of the
    pending vector, and calls the scheduler, the interrupt line, the
    presentation and the yield to the host in this order; the VI block, the
    counts, the interrupt mask and the log stay as they were. *)
Theorem vertical_blank_effects (w : World) :
  holds_registers w ->
  exists w',
    VI.verticalBlank w = (Ok tt, w') /\
    calls w'
    = calls w ++ [AddVblEvent (countPerVbl (vi w)); UpdateCause3; PresentBackBuffer;
                  ReturnControlToSystem] /\
    vblEvent (cpu0 w') = Some (countPerVbl (vi w)) /\
    interruptPending w' = Z.lor (interruptPending w) MI.MI_INTR_VI /\
    has (interruptPending w') MI.MI_INTR_VI = true /\
    interruptMask w' = interruptMask w /\ vi_reg w' = vi_reg w /\
    countPerVbl (vi w') = countPerVbl (vi w) /\
    countPerScanline (vi w') = countPerScanline (vi w) /\ logs w' = logs w.
Proof.
  intros H. exists (blanked w). split; [apply verticalBlank_spec; exact H |].
  destruct H as [Hvi Hmi].
  destruct (blanked_frame w Hmi) as (B1 & B2 & B3 & B4 & B5 & B6 & B7 & B8 & B9 & B10 & B11 & B12 & _).
  split; [exact B10 |]. split; [rewrite B9; reflexivity |]. split; [exact B11 |].
  split.
  { rewrite B11. change MI.MI_INTR_VI with (2 ^ 3). rewrite has_pow2 by lia.
    rewrite Z.lor_spec, Z.pow2_bits_true by lia. apply orb_true_r. }
  repeat split; assumption.
Qed.

Lemma vertical_blank_effects_witness :
  holds_registers mid_frame /\
  exists w',
    VI.verticalBlank mid_frame = (Ok tt, w') /\
    calls w'
    = calls mid_frame ++ [AddVblEvent (countPerVbl (vi mid_frame)); UpdateCause3;
                          PresentBackBuffer; ReturnControlToSystem] /\
    vblEvent (cpu0 w') = Some (countPerVbl (vi mid_frame)) /\
    interruptPending w' = Z.lor (interruptPending mid_frame) MI.MI_INTR_VI /\
    has (interruptPending w') MI.MI_INTR_VI = true /\
    interruptMask w' = interruptMask mid_frame /\ vi_reg w' = vi_reg mid_frame /\
    countPerVbl (vi w') = countPerVbl (vi mid_frame) /\
    countPerScanline (vi w') = countPerScanline (vi mid_frame) /\ logs w' = logs mid_frame.
Proof.
  assert (H1 : holds_registers mid_frame)
    by (unfold holds_registers; vm_compute; split; discriminate).
  split; [exact H1 |].
  exact (vertical_blank_effects mid_frame H1).
Defined.

Lemma interruptPending_acknowledged (w : World) (value : Z) :
  0x10 <= Z.of_nat (length (mi_reg w)) ->
  interruptPending (acknowledged w value)
  = Z.land (interruptPending w) (Z.lnot MI.MI_INTR_VI) /\
  interruptMask (acknowledged w value) = interruptMask w /\
  calls (acknowledged w value) = calls w ++ [UpdateCause3] /\
  cpu0 (acknowledged w value) = cpu0 w /\ vi (acknowledged w value) = vi w /\
  vi_reg (acknowledged w value) = vi_reg w.
Proof.
  intros Hl.
  destruct (quietly_frame (vi_quiet (vi w)) LogViIntrCleared
              (quietly (vi_quiet (vi w)) (LogViCurrent value) w))
    as (A1 & A2 & A3 & A4 & A5 & A6 & A7).
  destruct (quietly_frame (vi_quiet (vi w)) (LogViCurrent value) w)
    as (B1 & B2 & B3 & B4 & B5 & B6 & B7).
  unfold acknowledged, interruptPending, interruptMask.
  cbn [mi_reg vi_reg vi cpu0 calls add_call set_mi_reg].
  rewrite word_store32_eq, word_store32_ne by offsets.
  rewrite A1, A3, A5, A6, B1, B3, B5, B6.
  split; [apply uint32_and_not, word_range | repeat split; reflexivity].
Qed.

(** X14. A vertical blank followed by a write of any value to the
    current-line register leaves the pending vector without the VI bit,
    which is the vector from before when the VI interrupt was not pending;
    the event stays armed and the interrupt line is re-evaluated twice. *)
Theorem vi_interrupt_round_trip (w : World) (value : Z) :
  holds_registers w ->
  exists w',
    (VI.verticalBlank ;;;
     VI.write32 (vi_rangeStart (vi w) + VI.VI_V_CURRENT_LINE_REG) value) w = (Ok tt, w') /\
    interruptPending w' = Z.land (interruptPending w) (Z.lnot MI.MI_INTR_VI) /\
    (if has (interruptPending w) MI.MI_INTR_VI then True
     else interruptPending w' = interruptPending w) /\
    interruptMask w' = interruptMask w /\
    vblEvent (cpu0 w') = Some (countPerVbl (vi w)) /\
    calls w'
    = calls w ++ [AddVblEvent (countPerVbl (vi w)); UpdateCause3; PresentBackBuffer;
                  ReturnControlToSystem; UpdateCause3].
Proof.
  intros H. pose proof H as [Hvi Hmi].
  destruct (blanked_frame w Hmi) as (B1 & B2 & B3 & B4 & B5 & B6 & B7 & B8 & B9 & B10 & B11 & B12 & _).
  assert (Hmi1 : 0x10 <= Z.of_nat (length (mi_reg (blanked w)))) by (rewrite B2; exact Hmi).
  exists (acknowledged (blanked w) value).
  split.
  { rewrite (bind_ok _ _ w (blanked w) tt) by (apply verticalBlank_spec; exact H).
    rewrite <- B3. apply write32_V_CURRENT_LINE; [rewrite B1 |]; lia. }
  destruct (interruptPending_acknowledged (blanked w) value Hmi1) as (A1 & A2 & A3 & A4 & _).
  assert (HP : interruptPending (acknowledged (blanked w) value)
               = Z.land (interruptPending w) (Z.lnot MI.MI_INTR_VI)).
  { rewrite A1, B11. apply land_lor_lnot. }
  split; [exact HP |].
  split.
  { unfold has. destruct (Z.eqb_spec (Z.land (interruptPending w) MI.MI_INTR_VI) 0) as [E | _];
      cbn [negb]; [| exact I].
    rewrite HP. apply land_lnot_clear. exact E. }
  split; [congruence |]. split; [rewrite A4, B9; reflexivity |].
  rewrite A3, B10, <- app_assoc. reflexivity.
Qed.

Lemma vi_interrupt_round_trip_witness :
  holds_registers mid_frame /\
  exists w',
    (VI.verticalBlank ;;;
     VI.write32 (vi_rangeStart (vi mid_frame) + VI.VI_V_CURRENT_LINE_REG) 0) mid_frame
    = (Ok tt, w') /\
    interruptPending w' = Z.land (interruptPending mid_frame) (Z.lnot MI.MI_INTR_VI) /\
    (if has (interruptPending mid_frame) MI.MI_INTR_VI then True
     else interruptPending w' = interruptPending mid_frame) /\
    interruptMask w' = interruptMask mid_frame /\
    vblEvent (cpu0 w') = Some (countPerVbl (vi mid_frame)) /\
    calls w'
    = calls mid_frame ++ [AddVblEvent (countPerVbl (vi mid_frame)); UpdateCause3;
                          PresentBackBuffer; ReturnControlToSystem; UpdateCause3].
Proof.
  assert (H1 : holds_registers mid_frame)
    by (unfold holds_registers; vm_compute; split; discriminate).
  split; [exact H1 |].
  exact (vi_interrupt_round_trip mid_frame 0 H1).
Defined.

Lemma controlReg_blanked (w : World) : controlReg (blanked w) = controlReg w.
Proof. reflexivity. Qed.

(** X15. With the serrate bit set, [n] vertical blanks in a row leave the
    field parity [(field + n) mod 2]: the parity alternates with every
    frame. *)
Theorem parity_alternates (n : nat) (w : World) :
  holds_registers w -> parity_bit w ->
  has (controlReg w) VI.VI_CTRL_SERRATE_ON = true ->
  field (vi (exec (blanks n) w)) = (field (vi w) + Z.of_nat n) mod 2.
Proof.
  revert w. induction n as [| n IH]; intros w H Hp Hs.
  - cbn [blanks repeat exec]. destruct Hp as [-> | ->]; reflexivity.
  - change (blanks (S n)) with (VerticalBlank :: blanks n). cbn [exec step].
    unfold run. rewrite verticalBlank_spec by exact H. cbn [snd].
    assert (Hf : field (vi (blanked w)) = 1 - field (vi w)).
    { rewrite field_blanked by exact Hp. rewrite Hs. reflexivity. }
    assert (H' : holds_registers (blanked w)).
    { destruct (blanked_kept w) as (L1 & L2 & _). destruct H as [H1 H2].
      unfold holds_registers. rewrite L1, L2. tauto. }
    assert (Hp' : parity_bit (blanked w)).
    { unfold parity_bit. rewrite Hf. destruct Hp as [-> | ->]; cbn; tauto. }
    rewrite IH by (try assumption; rewrite controlReg_blanked; exact Hs).
    rewrite Hf, Nat2Z.inj_succ.
    destruct Hp as [-> | ->].
    + replace (1 - 0 + Z.of_nat n) with (0 + Z.succ (Z.of_nat n)) by lia. reflexivity.
    + replace (1 + Z.succ (Z.of_nat n)) with (1 - 1 + Z.of_nat n + 1 * 2) by lia.
      symmetry. apply Z.mod_add. lia.
Qed.

Lemma parity_alternates_witness :
  holds_registers interlaced_console /\ parity_bit interlaced_console /\
  has (controlReg interlaced_console) VI.VI_CTRL_SERRATE_ON = true /\
  field (vi (exec (blanks 3) interlaced_console))
  = (field (vi interlaced_console) + Z.of_nat 3) mod 2.
Proof.
  assert (H1 : holds_registers interlaced_console)
    by (unfold holds_registers; vm_compute; split; discriminate).
  assert (H2 : parity_bit interlaced_console) by (left; vm_compute; reflexivity).
  assert (H3 : has (controlReg interlaced_console) VI.VI_CTRL_SERRATE_ON = true)
    by (vm_compute; reflexivity).
  split; [exact H1 |]. split; [exact H2 |]. split; [exact H3 |].
  exact (parity_alternates 3 interlaced_console H1 H2 H3).
Defined.

(** ** The current line in integers *)

Lemma readU32_current_line (w : World) :
  holds_registers w ->
  VI.readU32 (vi_rangeStart (vi w) + VI.VI_V_CURRENT_LINE_REG) w
  = (Ok (JS.to_uint32 (currentLineOf w)),
     vi_read w (vi_rangeStart (vi w) + VI.VI_V_CURRENT_LINE_REG) VI.VI_V_CURRENT_LINE_REG).
Proof.
  intros [Hvi Hmi].
  pose proof (VI_readS32_in_range w (vi_rangeStart (vi w) + VI.VI_V_CURRENT_LINE_REG)) as HS.
  cbv zeta in HS. rewrite calcEA_offset in HS.
  specialize (HS ltac:(lia) ltac:(offsets) ltac:(offsets)).
  rewrite VI_readU32_of_readS32, HS. rewrite to_uint32_to_int32.
  rewrite to_uint32_small by apply word_range.
  unfold vi_read at 1. rewrite Z.eqb_refl. cbn [vi_reg set_vi_reg].
  rewrite word_store32_eq by offsets. reflexivity.
Qed.

Lemma currentLine_vi_read (w : World) (a : Z) :
  holds_registers w ->
  currentLine (vi_read w a VI.VI_V_CURRENT_LINE_REG) = JS.to_uint32 (currentLineOf w).
Proof.
  intros [Hvi Hmi]. unfold currentLine, vi_read. rewrite Z.eqb_refl. cbn [vi_reg set_vi_reg].
  apply word_store32_eq; offsets.
Qed.

(** Replacing bit 0 of a line by the parity bit. *)
Lemma line_with_parity (x f : Z) :
  0 <= x < 2 ^ 31 -> f = 0 \/ f = 1 ->
  JS.or (JS.and x (JS.not 1)) f = 2 * (x / 2) + f.
Proof.
  intros Hx Hf.
  assert (Hb : exists b : bool, f = Z.b2z b).
  { destruct Hf as [-> | ->]; [exists false | exists true]; reflexivity. }
  destruct Hb as [b ->].
  apply Z.bits_inj'. intros i Hi.
  rewrite or_bits, and_bits, not_bits by lia. rewrite !min31_idem.
  destruct (Z.eq_dec i 0) as [-> | Hne].
  - rewrite Z.testbit_0_r. cbn [Z.min Z.compare]. change (Z.testbit 1 0) with true.
    cbn [negb]. rewrite andb_false_r. cbn [orb].
    destruct b; reflexivity.
  - replace i with (Z.succ (i - 1)) at 4 by lia. rewrite Z.testbit_succ_r by lia.
    rewrite <- Z.div2_div, Z.div2_spec, Z.shiftr_spec by lia.
    replace (i - 1 + 1) with i by lia.
    assert (H1 : Z.testbit 1 (Z.min i 31) = false).
    { change 1 with (2 ^ 0). apply Z.pow2_bits_false. lia. }
    assert (Hfb : Z.testbit (Z.b2z b) (Z.min i 31) = false).
    { destruct b; [exact H1 | apply Z.bits_0]. }
    rewrite H1, Hfb. cbn [negb]. rewrite andb_true_r, orb_false_r.
    destruct (Z_le_gt_dec i 31).
    + rewrite Z.min_l by lia. reflexivity.
    + rewrite Z.min_r by lia. rewrite !(bits_above x 31) by lia. reflexivity.
Qed.

(** X16. With the counts set and the next vertical blank [k] cycles away, a
    read of the current-line register returns the integer quotient of the
    cycles executed by the cycles per scanline, wrapped once around the sync
    value, with bit 0 replaced by the field parity. *)
Theorem current_line_is_integer_quotient (w : World) (P k : Z) :
  holds_registers w -> parity_bit w ->
  0 < countPerScanline (vi w) < 2 ^ 31 ->
  countPerVbl (vi w) = JS.of_Z P -> vblEvent (cpu0 w) = Some (JS.of_Z k) ->
  0 <= k <= P -> P < 2 ^ 31 ->
  exists w',
    VI.readU32 (vi_rangeStart (vi w) + VI.VI_V_CURRENT_LINE_REG) w
    = (Ok (2 * ((if syncValue w <=? (P - k) / countPerScanline (vi w)
                 then (P - k) / countPerScanline (vi w) - syncValue w
                 else (P - k) / countPerScanline (vi w)) / 2) + field (vi w)), w') /\
    currentLine w'
    = 2 * ((if syncValue w <=? (P - k) / countPerScanline (vi w)
            then (P - k) / countPerScanline (vi w) - syncValue w
            else (P - k) / countPerScanline (vi w)) / 2) + field (vi w) /\
    (if (P =? (syncValue w + 1) * countPerScanline (vi w)) && (2 <=? syncValue w)
     then (if syncValue w <=? (P - k) / countPerScanline (vi w)
           then (P - k) / countPerScanline (vi w) - syncValue w
           else (P - k) / countPerScanline (vi w)) < syncValue w
     else True).
Proof.
  intros H Hp Hc HP Hk Hkr HP31.
  set (c := countPerScanline (vi w)) in *.
  set (raw := (P - k) / c).
  assert (Hraw0 : 0 <= raw) by (apply Z.div_pos; lia).
  assert (Hraw1 : raw <= P - k).
  { unfold raw. apply Z.div_le_upper_bound; [lia | nia]. }
  assert (Hscan : scanlineOf w = raw).
  { unfold scanlineOf. rewrite Hk, HP. fold c.
    rewrite sub_of_Z by lia. unfold JS.ToInt32.
    rewrite trunc_div_integers by lia. apply to_int32_small. fold raw. lia. }
  pose proof (word_range (vi_reg w) VI.VI_V_SYNC_REG) as Hs. fold (syncValue w) in Hs.
  set (line := if syncValue w <=? raw then raw - syncValue w else raw).
  assert (Hline : 0 <= line < 2 ^ 31).
  { unfold line. destruct (Z.leb_spec (syncValue w) raw); lia. }
  assert (Hcur : JS.to_uint32 (currentLineOf w) = 2 * (line / 2) + field (vi w)).
  { unfold currentLineOf. rewrite Hscan. fold line.
    rewrite line_with_parity by (exact Hline || exact Hp).
    apply to_uint32_small.
    assert (0 <= line / 2 <= line) by (split; [apply Z.div_pos; lia | apply Z.div_le_upper_bound; lia]).
    destruct Hp as [-> | ->]; lia. }
  eexists. split; [rewrite readU32_current_line by exact H; rewrite Hcur; reflexivity |].
  split; [rewrite currentLine_vi_read by exact H; exact Hcur |].
  destruct (Z.eqb_spec P ((syncValue w + 1) * c)) as [EP | _]; cbn [andb]; [| exact I].
  destruct (Z.leb_spec 2 (syncValue w)) as [H2 | _]; [| exact I].
  fold raw. fold line. unfold line.
  assert (Hr : raw <= syncValue w + 1).
  { unfold raw. apply Z.div_le_upper_bound; [lia |]. nia. }
  destruct (Z.leb_spec (syncValue w) raw); lia.
Qed.

Lemma current_line_is_integer_quotient_witness :
  holds_registers mid_frame /\ parity_bit mid_frame /\
  0 < countPerScanline (vi mid_frame) < 2 ^ 31 /\
  countPerVbl (vi mid_frame) = JS.of_Z 811125 /\
  vblEvent (cpu0 mid_frame) = Some (JS.of_Z 400000) /\
  0 <= 400000 <= 811125 /\ 811125 < 2 ^ 31 /\
  exists w',
    VI.readU32 (vi_rangeStart (vi mid_frame) + VI.VI_V_CURRENT_LINE_REG) mid_frame
    = (Ok 266, w') /\
    currentLine w' = 266.
Proof.
  assert (H1 : holds_registers mid_frame)
    by (unfold holds_registers; vm_compute; split; discriminate).
  assert (H2 : parity_bit mid_frame) by (left; vm_compute; reflexivity).
  assert (H3 : 0 < countPerScanline (vi mid_frame) < 2 ^ 31) by (vm_compute; split; reflexivity).
  assert (H4 : countPerVbl (vi mid_frame) = JS.of_Z 811125) by (vm_compute; reflexivity).
  assert (H5 : vblEvent (cpu0 mid_frame) = Some (JS.of_Z 400000)) by (vm_compute; reflexivity).
  assert (H6 : 0 <= 400000 <= 811125) by lia.
  assert (H7 : 811125 < 2 ^ 31) by lia.
  split; [exact H1 |]. split; [exact H2 |]. split; [exact H3 |]. split; [exact H4 |].
  split; [exact H5 |]. split; [exact H6 |]. split; [exact H7 |].
  destruct (current_line_is_integer_quotient mid_frame 811125 400000 H1 H2 H3 H4 H5 H6 H7)
    as (w' & A & B & _).
  exists w'. split; [exact A | exact B].
Defined.

(** X17. Before the counts are set (as after construction and after reset),
    the division by zero makes the scanline 0 and a read of the current-line
    register returns the field parity alone. *)
Theorem current_line_without_counts (w : World) :
  holds_registers w -> parity_bit w -> countPerScanline (vi w) = 0 ->
  exists w',
    VI.readU32 (vi_rangeStart (vi w) + VI.VI_V_CURRENT_LINE_REG) w
    = (Ok (field (vi w)), w') /\
    currentLine w' = field (vi w).
Proof.
  intros H Hp Hc.
  assert (Hscan : scanlineOf w = 0).
  { unfold scanlineOf. rewrite Hc. apply ToInt32_div_zero. }
  pose proof (word_range (vi_reg w) VI.VI_V_SYNC_REG) as Hs. fold (syncValue w) in Hs.
  assert (Hcur : JS.to_uint32 (currentLineOf w) = field (vi w)).
  { unfold currentLineOf. rewrite Hscan.
    assert (E : (if syncValue w <=? 0 then 0 - syncValue w else 0) = 0).
    { destruct (Z.leb_spec (syncValue w) 0); lia. }
    rewrite E. rewrite line_with_parity by (lia || exact Hp).
    change (2 * (0 / 2)) with 0. rewrite Z.add_0_l.
    apply to_uint32_small. destruct Hp as [-> | ->]; lia. }
  eexists. split; [rewrite readU32_current_line by exact H; rewrite Hcur; reflexivity |].
  rewrite currentLine_vi_read by exact H. exact Hcur.
Qed.

Lemma current_line_without_counts_witness :
  holds_registers (power_on OS_TV_NTSC) /\ parity_bit (power_on OS_TV_NTSC) /\
  countPerScanline (vi (power_on OS_TV_NTSC)) = 0 /\
  exists w',
    VI.readU32 (vi_rangeStart (vi (power_on OS_TV_NTSC)) + VI.VI_V_CURRENT_LINE_REG)
      (power_on OS_TV_NTSC)
    = (Ok (field (vi (power_on OS_TV_NTSC))), w') /\
    currentLine w' = field (vi (power_on OS_TV_NTSC)).
Proof.
  assert (H1 : holds_registers (power_on OS_TV_NTSC))
    by (unfold holds_registers; vm_compute; split; discriminate).
  assert (H2 : parity_bit (power_on OS_TV_NTSC)) by (left; reflexivity).
  assert (H3 : countPerScanline (vi (power_on OS_TV_NTSC)) = 0) by reflexivity.
  split; [exact H1 |]. split; [exact H2 |]. split; [exact H3 |].
  exact (current_line_without_counts (power_on OS_TV_NTSC) H1 H2 H3).
Defined.

(** ** The frame budget *)

(** X18. The retiming uses the frame budget [clock / refreshRate] up to
    less than one cycle per scanline, whatever the sign of the value: after
    a changed value [V] is written to the vertical-sync register,
    [countPerVbl] is the integer [(V + 1) * countPerScanline], which lies in
    [(budget - |V + 1|, budget]] unless [V = -1]; both counts are 0 when
    there is no scanline or more scanlines than cycles in the budget, and
    otherwise [countPerScanline] is at least 1 in absolute value, with the
    sign of [V + 1]. *)
Theorem retiming_within_budget (w : World) (V : Z) :
  holds_registers w -> configured w -> - 2 ^ 53 < V + 1 < 2 ^ 53 -> V <> syncValue w ->
  exists w',
    VI.write32 (vi_rangeStart (vi w) + VI.VI_V_SYNC_REG) V w = (Ok tt, w') /\
    JS.trunc (countPerVbl (vi w')) = (V + 1) * countPerScanline (vi w') /\
    countPerVbl (vi w')
    = (if (V + 1 <? 0) && (countPerScanline (vi w') =? 0)
       then S754_zero true
       else JS.of_Z ((V + 1) * countPerScanline (vi w'))) /\
    (if V + 1 =? 0
     then countPerScanline (vi w') = 0
     else frameBudget (vi w) - Z.abs (V + 1) < (V + 1) * countPerScanline (vi w')
          <= frameBudget (vi w)) /\
    (if (V + 1 =? 0) || (frameBudget (vi w) <? Z.abs (V + 1))
     then countPerScanline (vi w') = 0 /\ JS.trunc (countPerVbl (vi w')) = 0
     else 1 <= Z.sgn (V + 1) * countPerScanline (vi w')).
Proof.
  intros [Hvi Hmi] [Hc Hr] HV Hne. rewrite write32_V_SYNC by lia.
  destruct (Z.eqb_spec (syncValue w) V) as [E | _]; [congruence |].
  exists (armed (retimed w V)). split; [reflexivity |].
  destruct (armed_frame (retimed w V)) as (_ & _ & -> & _).
  cbn [retimed vi set_vi_reg add_log set_vi set_counts countPerScanline countPerVbl].
  destruct (standard_range (vi w) (tvType w) Hc Hr) as (Hr0 & Hc0 & Hn).
  destruct (perVblOf_signed (vi w) (tvType w) V Hc Hr HV) as (Hp0 & Hp1 & Hp2).
  split; [exact Hp2 |]. split; [exact Hp1 |].
  rewrite Hp2. unfold frameBudget.
  destruct (Z.lt_trichotomy (V + 1) 0) as [Hneg | [Hz | Hpos]].
  - replace (V + 1 =? 0) with false by (symmetry; apply Z.eqb_neq; lia). cbn [orb].
    rewrite (perScanlineOf_neg (vi w) (tvType w) V Hc Hr) by lia.
    rewrite Z.abs_neq, Z.sgn_neg by lia.
    destruct (quotient_range (clock (vi w)) (refreshRate (vi w)) (- (V + 1)) Hr0 Hn)
      as (Q0 & Q1 & Q2); [lia |].
    set (K := clock (vi w) / (refreshRate (vi w) * - (V + 1))) in *.
    split; [lia |].
    destruct (Z.ltb_spec (clock (vi w) / refreshRate (vi w)) (- (V + 1))) as [Hlt | Hge].
    + assert (K = 0) by nia. lia.
    + assert (1 <= K) by nia. lia.
  - rewrite Hz. cbn [Z.eqb orb].
    assert (E : perScanlineOf (vi w) V = 0).
    { rewrite (perScanlineOf_quot (vi w) (tvType w) V Hc Hr HV), Hz, Z.mul_0_r.
      apply quot_zero. }
    rewrite E. repeat split; reflexivity.
  - replace (V + 1 =? 0) with false by (symmetry; apply Z.eqb_neq; lia). cbn [orb].
    rewrite (perScanlineOf_pos (vi w) (tvType w) V Hc Hr) by lia.
    rewrite Z.abs_eq, Z.sgn_pos by lia.
    destruct (quotient_range (clock (vi w)) (refreshRate (vi w)) (V + 1) Hr0 Hn)
      as (Q0 & Q1 & Q2); [lia |].
    set (K := clock (vi w) / (refreshRate (vi w) * (V + 1))) in *.
    split; [lia |].
    destruct (Z.ltb_spec (clock (vi w) / refreshRate (vi w)) (V + 1)) as [Hlt | Hge].
    + assert (K = 0) by nia. lia.
    + assert (1 <= K) by nia. lia.
Qed.

Lemma retiming_within_budget_witness :
  holds_registers (power_on OS_TV_NTSC) /\ configured (power_on OS_TV_NTSC) /\
  - 2 ^ 53 < -3 + 1 < 2 ^ 53 /\ -3 <> syncValue (power_on OS_TV_NTSC) /\
  exists w',
    VI.write32 (vi_rangeStart (vi (power_on OS_TV_NTSC)) + VI.VI_V_SYNC_REG) (-3)
      (power_on OS_TV_NTSC) = (Ok tt, w') /\
    JS.trunc (countPerVbl (vi w')) = (-3 + 1) * countPerScanline (vi w') /\
    frameBudget (vi (power_on OS_TV_NTSC)) - Z.abs (-3 + 1)
    < (-3 + 1) * countPerScanline (vi w') <= frameBudget (vi (power_on OS_TV_NTSC)) /\
    1 <= Z.sgn (-3 + 1) * countPerScanline (vi w').
Proof.
  assert (H1 : holds_registers (power_on OS_TV_NTSC))
    by (unfold holds_registers; vm_compute; split; discriminate).
  assert (H2 : configured (power_on OS_TV_NTSC)) by (split; reflexivity).
  assert (H3 : - 2 ^ 53 < -3 + 1 < 2 ^ 53) by lia.
  assert (H4 : -3 <> syncValue (power_on OS_TV_NTSC)) by (vm_compute; discriminate).
  split; [exact H1 |]. split; [exact H2 |]. split; [exact H3 |]. split; [exact H4 |].
  destruct (retiming_within_budget (power_on OS_TV_NTSC) (-3) H1 H2 H3 H4)
    as (w' & A & B & _ & C & D).
  exists w'. split; [exact A |]. split; [exact B |]. split; [exact C | exact D].
Defined.

(** ** Reset and re-arming *)

(** X19. The reset of the VI zeroes the counts and takes the clock and the
    refresh rate from the television standard, but keeps the registers,
    the field parity and the schedule; writing the stored sync value again
    is then no change, so the counts stay 0 until a different value is
    written. *)
Theorem reset_forgets_timing (w : World) :
  holds_registers w ->
  exists w1,
    VI.reset w = (Ok tt, w1) /\
    countPerScanline (vi w1) = 0 /\ countPerVbl (vi w1) = JS.of_Z 0 /\
    configured w1 /\
    vi_reg w1 = vi_reg w /\ mi_reg w1 = mi_reg w /\ field (vi w1) = field (vi w) /\
    cpu0 w1 = cpu0 w /\ calls w1 = calls w /\
    VI.write32 (vi_rangeStart (vi w) + VI.VI_V_SYNC_REG) (syncValue w) w1 = (Ok tt, w1).
Proof.
  intros [Hvi Hmi]. eexists. split; [reflexivity |].
  cbn [vi vi_reg mi_reg cpu0 calls set_vi countPerScanline countPerVbl field].
  do 2 (split; [reflexivity |]).
  split; [split; reflexivity |].
  do 5 (split; [reflexivity |]).
  match goal with |- VI.write32 _ _ ?u = _ =>
    change (vi_rangeStart (vi w)) with (vi_rangeStart (vi u));
    rewrite (write32_V_SYNC u) by (cbn [vi_reg set_vi]; lia);
    change (syncValue u) with (syncValue w)
  end.
  rewrite Z.eqb_refl. reflexivity.
Qed.

Lemma reset_forgets_timing_witness :
  holds_registers mid_frame /\
  exists w1,
    VI.reset mid_frame = (Ok tt, w1) /\
    countPerScanline (vi w1) = 0 /\ countPerVbl (vi w1) = JS.of_Z 0 /\
    configured w1 /\
    vi_reg w1 = vi_reg mid_frame /\ mi_reg w1 = mi_reg mid_frame /\
    field (vi w1) = field (vi mid_frame) /\
    cpu0 w1 = cpu0 mid_frame /\ calls w1 = calls mid_frame /\
    VI.write32 (vi_rangeStart (vi mid_frame) + VI.VI_V_SYNC_REG) (syncValue mid_frame) w1
    = (Ok tt, w1).
Proof.
  assert (H1 : holds_registers mid_frame)
    by (unfold holds_registers; vm_compute; split; discriminate).
  split; [exact H1 |].
  exact (reset_forgets_timing mid_frame H1).
Defined.

(** X20. Arming the vertical-blank event twice is arming it once: the second
    call schedules nothing, and at most repeats the diagnostic of the
    first. *)
Theorem arming_twice_is_arming_once (w : World) :
  holds_registers w ->
  exists w1 w2,
    VI.initInterrupt w = (Ok tt, w1) /\
    (VI.initInterrupt ;;; VI.initInterrupt) w = (Ok tt, w2) /\
    same_state w1 w2 /\
    (vbl_requests (calls w2) <= S (vbl_requests (calls w)))%nat.
Proof.
  intros [Hvi Hmi].
  assert (Hl1 : 0x1C <= Z.of_nat (length (vi_reg (armed w)))).
  { destruct (armed_frame w) as (-> & _). lia. }
  exists (armed w), (armed (armed w)).
  split; [apply initInterrupt_spec; lia |].
  split.
  { rewrite (bind_ok _ _ w (armed w) tt) by (apply initInterrupt_spec; lia).
    apply initInterrupt_spec. exact Hl1. }
  destruct (vblEvent (cpu0 w)) eqn:E.
  - assert (A : armed w = w) by (unfold armed; rewrite E; reflexivity).
    rewrite !A. split; [apply same_state_refl | lia].
  - destruct (Z.leb_spec (syncValue w) (interruptLine w)) as [Hle | Hgt].
    + assert (A : armed w = add_log (LogViNotSetting (interruptLine w) (syncValue w)) w).
      { unfold armed. rewrite E.
        replace (syncValue w <=? interruptLine w) with true
          by (symmetry; apply Z.leb_le; exact Hle).
        reflexivity. }
      rewrite A.
      assert (A' : armed (add_log (LogViNotSetting (interruptLine w) (syncValue w)) w)
                   = add_log (LogViNotSetting (interruptLine w) (syncValue w))
                       (add_log (LogViNotSetting (interruptLine w) (syncValue w)) w)).
      { unfold armed. cbn [cpu0 add_log]. rewrite E.
        change (syncValue (add_log (LogViNotSetting (interruptLine w) (syncValue w)) w))
          with (syncValue w).
        change (interruptLine (add_log (LogViNotSetting (interruptLine w) (syncValue w)) w))
          with (interruptLine w).
        replace (syncValue w <=? interruptLine w) with true
          by (symmetry; apply Z.leb_le; exact Hle).
        reflexivity. }
      rewrite A'. split; [apply same_state_add_log | cbn [calls add_log]; lia].
    + assert (A : armed w = add_call (AddVblEvent (countPerVbl (vi w)))
                              (set_cpu0 {| vblEvent := Some (countPerVbl (vi w)) |} w)).
      { unfold armed. rewrite E.
        replace (syncValue w <=? interruptLine w) with false
          by (symmetry; apply Z.leb_gt; exact Hgt).
        reflexivity. }
      rewrite A.
      assert (A' : forall u, armed (add_call (AddVblEvent (countPerVbl (vi w)))
                                      (set_cpu0 {| vblEvent := Some (countPerVbl (vi w)) |} u))
                             = add_call (AddVblEvent (countPerVbl (vi w)))
                                 (set_cpu0 {| vblEvent := Some (countPerVbl (vi w)) |} u))
        by reflexivity.
      rewrite A'. split; [apply same_state_refl |].
      cbn [calls add_call set_cpu0]. rewrite vbl_requests_app. lia.
Qed.

Lemma arming_twice_is_arming_once_witness :
  holds_registers (power_on OS_TV_NTSC) /\
  exists w1 w2,
    VI.initInterrupt (power_on OS_TV_NTSC) = (Ok tt, w1) /\
    (VI.initInterrupt ;;; VI.initInterrupt) (power_on OS_TV_NTSC) = (Ok tt, w2) /\
    same_state w1 w2 /\
    (vbl_requests (calls w2) <= S (vbl_requests (calls (power_on OS_TV_NTSC))))%nat.
Proof.
  assert (H1 : holds_registers (power_on OS_TV_NTSC))
    by (unfold holds_registers; vm_compute; split; discriminate).
  split; [exact H1 |].
  exact (arming_twice_is_arming_once (power_on OS_TV_NTSC) H1).
Defined.

(** ** The video mode and the scale factors *)

Lemma land_3 (x : Z) : (Z.land x 3 =? 3) = Z.testbit x 0 && Z.testbit x 1.
Proof.
  change 3 with (Z.ones 2) at 1. rewrite Z.land_ones by lia.
  change (2 ^ 2) with (2 * 2). rewrite Z.rem_mul_r by lia.
  pose proof (Z.testbit_spec' x 0 ltac:(lia)) as H0.
  pose proof (Z.testbit_spec' x 1 ltac:(lia)) as H1.
  change (2 ^ 0) with 1 in H0. rewrite Z.div_1_r in H0. change (2 ^ 1) with 2 in H1.
  rewrite <- H0, <- H1.
  destruct (Z.testbit x 0), (Z.testbit x 1); reflexivity.
Qed.

(** X21. After a write of [value] to the control register, the device
    reports interlaced output exactly when bit 6 of the value is set and
    32-bit colour exactly when bits 0 and 1 are both set. *)
Theorem control_write_selects_mode (w : World) (value : Z) :
  holds_registers w ->
  exists w',
    VI.write32 (vi_rangeStart (vi w) + VI.VI_CONTROL_REG) value w = (Ok tt, w') /\
    controlReg w' = JS.to_uint32 value /\
    VI.interlaced w' = (Ok (Z.testbit value 6), w') /\
    VI.viIs32Bit w' = (Ok (Z.testbit value 0 && Z.testbit value 1), w').
Proof.
  intros H. pose proof H as [Hvi Hmi].
  destruct (VI_write32_stores w (vi_rangeStart (vi w) + VI.VI_CONTROL_REG) value H)
    as (w1 & HW & Hr & Hl & Hw & _);
    rewrite ?calcEA_offset; try offsets.
  rewrite calcEA_offset in Hw.
  exists w1. split; [exact HW |]. split; [exact Hw |].
  assert (Hread : mem_readU32 VIReg VI.VI_CONTROL_REG w1 = (Ok (JS.to_uint32 value), w1)).
  { rewrite mem_readU32_ok by (cbn [region]; rewrite ?Hl; offsets).
    cbn [region]. rewrite Hw. reflexivity. }
  split.
  - unfold VI.interlaced, VI.viControlReg. rewrite (bind_ok _ _ _ _ _ Hread).
    unfold ret. f_equal. f_equal.
    change VI.VI_CTRL_SERRATE_ON with (2 ^ 6).
    fold (JS.truthy (JS.and (JS.to_uint32 value) (2 ^ 6))).
    rewrite truthy_and_bit, to_uint32_bits by lia. apply andb_true_r.
  - unfold VI.viIs32Bit. rewrite (bind_ok _ _ _ _ _ Hread).
    unfold ret. f_equal. f_equal.
    unfold JS.and. change (JS.to_int32 VI.controlTypeMask) with 3.
    change VI.VI_CTRL_TYPE_32 with 3.
    rewrite land_3, !to_int32_bits, !to_uint32_bits by lia. cbn. rewrite !andb_true_r.
    reflexivity.
Qed.

Lemma control_write_selects_mode_witness :
  holds_registers (power_on OS_TV_NTSC) /\
  exists w',
    VI.write32 (vi_rangeStart (vi (power_on OS_TV_NTSC)) + VI.VI_CONTROL_REG) 0x3243
      (power_on OS_TV_NTSC) = (Ok tt, w') /\
    controlReg w' = JS.to_uint32 0x3243 /\
    VI.interlaced w' = (Ok (Z.testbit 0x3243 6), w') /\
    VI.viIs32Bit w' = (Ok (Z.testbit 0x3243 0 && Z.testbit 0x3243 1), w').
Proof.
  assert (H1 : holds_registers (power_on OS_TV_NTSC))
    by (unfold holds_registers; vm_compute; split; discriminate).
  split; [exact H1 |].
  exact (control_write_selects_mode (power_on OS_TV_NTSC) 0x3243 H1).
Defined.

Lemma and_fff_range (x : Z) : 0 <= JS.and x 0xfff < 2 ^ 12.
Proof.
  unfold JS.and. change (JS.to_int32 4095) with (Z.ones 12).
  rewrite Z.land_ones by lia. apply Z.mod_pos_bound. lia.
Qed.

(** Dividing an integer by 1024 only lowers the exponent. *)
Lemma div_1024 (a : Z) :
  0 < a < 2 ^ 53 ->
  JS.div (JS.of_Z a) (JS.of_Z 1024)
  = S754_finite false (mant a) (Zdigits2 a - JS.prec - 10).
Proof.
  intros Ha. rewrite (of_Z_pos a Ha).
  destruct (mant_spec a Ha) as (Hm & Hd & Hda).
  change (JS.of_Z 1024) with (S754_finite false 4503599627370496 (-42)).
  rewrite div_finite; [| exact Hd | reflexivity | unfold JS.prec; lia].
  replace (Zpos (mant a) * 2 ^ 53) with (Zpos (mant a) * 2 * 4503599627370496) by lia.
  rewrite Z.div_mul, Z.mod_mul by lia.
  change (new_location 4503599627370496 0) with loc_Exact.
  pose proof (binary_round_aux_exact false (mant a) 1 (Zdigits2 a - JS.prec - 10) Hd) as H.
  change (2 ^ 1) with 2 in H.
  replace (Zdigits2 a - JS.prec - -42 - 53) with (Zdigits2 a - JS.prec - 10 - 1) by lia.
  apply H; unfold JS.prec; lia.
Qed.

Lemma fraction_1024 (k : Z) :
  0 <= k < 2 ^ 12 -> is_fraction (JS.div (JS.of_Z k) (JS.of_Z 1024)) k 10 = true.
Proof.
  intros Hk. destruct (Z.eq_dec k 0) as [-> | Hne]; [reflexivity |].
  rewrite div_1024 by lia.
  destruct (mant_spec k) as (Hm & Hd & Hda); [lia |].
  unfold is_fraction. apply andb_true_iff. split.
  - apply Z.leb_le. unfold JS.prec. lia.
  - apply Z.eqb_eq. rewrite Hm. f_equal. f_equal. lia.
Qed.

(** X22. The horizontal and vertical scale factors are exact: each is the
    low twelve bits of its register divided by 1024, a binary64 value with
    no rounding, so below 4; reading them changes nothing. *)
Theorem scale_fractions_exact (w : World) :
  holds_registers w ->
  exists fx fy,
    VI.viXScaleFrac w = (Ok fx, w) /\ VI.viYScaleFrac w = (Ok fy, w) /\
    is_fraction fx (Z.land (word (vi_reg w) VI.VI_X_SCALE_REG) 0xfff) 10 = true /\
    is_fraction fy (Z.land (word (vi_reg w) VI.VI_Y_SCALE_REG) 0xfff) 10 = true /\
    0 <= JS.trunc fx < 4 /\ 0 <= JS.trunc fy < 4.
Proof.
  intros [Hvi Hmi].
  assert (Hand : forall x, 0 <= x < 2 ^ 32 -> JS.and x 0xfff = Z.land x 0xfff).
  { intros x Hx. apply Z.bits_inj'. intros i Hi.
    rewrite and_bits, Z.land_spec by lia.
    destruct (Z_lt_le_dec i 31).
    - rewrite Z.min_l by lia. reflexivity.
    - rewrite (bits_above 4095 12 i), (bits_above 4095 12 (Z.min i 31)) by lia.
      rewrite !andb_false_r. reflexivity. }
  assert (Htr : forall k, 0 <= k < 2 ^ 12 ->
            0 <= JS.trunc (JS.div (JS.of_Z k) (JS.of_Z 1024)) < 4).
  { intros k Hk. destruct (Z.eq_dec k 0) as [-> | Hne]; [vm_compute; split; congruence |].
    rewrite div_1024 by lia.
    destruct (mant_spec k) as (Hm & Hd & Hda); [lia |].
    rewrite trunc_finite by (unfold JS.prec; lia). rewrite Hm.
    replace (- (Zdigits2 k - JS.prec - 10)) with ((JS.prec - Zdigits2 k) + 10)
      by lia.
    rewrite Z.pow_add_r by (unfold JS.prec; lia).
    rewrite <- Z.div_div by (try apply Z.pow_pos_nonneg; unfold JS.prec; lia).
    rewrite Z.div_mul by (apply Z.pow_nonzero; unfold JS.prec; lia).
    split; [apply Z.div_pos; lia | apply Z.div_lt_upper_bound; lia]. }
  exists (JS.div (JS.of_Z (JS.and (word (vi_reg w) VI.VI_X_SCALE_REG) 0xfff)) (JS.of_Z 1024)),
         (JS.div (JS.of_Z (JS.and (word (vi_reg w) VI.VI_Y_SCALE_REG) 0xfff)) (JS.of_Z 1024)).
  split.
  { unfold VI.viXScaleFrac, VI.viXScaleReg.
    rewrite (bind_ok _ _ w w (word (vi_reg w) VI.VI_X_SCALE_REG))
      by (apply mem_readU32_ok; cbn [region]; unfold VI.VI_X_SCALE_REG; lia).
    reflexivity. }
  split.
  { unfold VI.viYScaleFrac, VI.viYScaleReg.
    rewrite (bind_ok _ _ w w (word (vi_reg w) VI.VI_Y_SCALE_REG))
      by (apply mem_readU32_ok; cbn [region]; unfold VI.VI_Y_SCALE_REG; lia).
    reflexivity. }
  rewrite <- !Hand by apply word_range.
  split; [apply fraction_1024, and_fff_range |].
  split; [apply fraction_1024, and_fff_range |].
  split; apply Htr, and_fff_range.
Qed.

Lemma scale_fractions_exact_witness :
  holds_registers (power_on OS_TV_NTSC) /\
  exists fx fy,
    VI.viXScaleFrac (power_on OS_TV_NTSC) = (Ok fx, power_on OS_TV_NTSC) /\
    VI.viYScaleFrac (power_on OS_TV_NTSC) = (Ok fy, power_on OS_TV_NTSC) /\
    is_fraction fx (Z.land (word (vi_reg (power_on OS_TV_NTSC)) VI.VI_X_SCALE_REG) 0xfff) 10
    = true /\
    is_fraction fy (Z.land (word (vi_reg (power_on OS_TV_NTSC)) VI.VI_Y_SCALE_REG) 0xfff) 10
    = true /\
    0 <= JS.trunc fx < 4 /\ 0 <= JS.trunc fy < 4.
Proof.
  assert (H1 : holds_registers (power_on OS_TV_NTSC))
    by (unfold holds_registers; vm_compute; split; discriminate).
  split; [exact H1 |].
  exact (scale_fractions_exact (power_on OS_TV_NTSC) H1).
Defined.
